(** * LoRAFactory logging server ([log_server.py])

    A shallow embedding of the HTTP log-ingestion handler and of the parts
    of the Python runtime it calls (str/bytes, UTF-8, [json], [datetime],
    [int], file append), followed by the properties of the handler.

    Conventions
    - a Python [str] is a list of Unicode code points ([list Z]);
    - a Python [bytes] is a list of [Byte.byte];
    - a Python [float] is an IEEE-754 binary64 value ([spec_float] with
      precision 53 and exponent bound 1024), all operations rounding to
      nearest-even;
    - what differs between installations (time zone rules, the C library's
      rendering of the year, the Unicode tables behind [repr], the limit on
      int/str conversions) is a field of the record [platform];
    - the exhaustion of resources (recursion depth, memory, disk space) and
      failures of the client socket are outside the model. *)

From Stdlib Require Import ZArith List String Ascii Bool Lia SpecFloat.
From Stdlib Require Import Decimal DecimalString DecimalN.
From stdpp Require Import gmap.
Import ListNotations.

Local Open Scope Z_scope.

(** ** Python str and bytes *)

Abbreviation pystr := (list Z).
Abbreviation bytes := (list Byte.byte).

Definition code (b : Byte.byte) : Z := Z.of_N (Byte.to_N b).

(** Literals: the text of a Rocq string, one code point per character, with
    the backquote standing for the double quote of the Python literal. *)
Definition unquote (c : Z) : Z := if c =? 96 then 34 else c.

Definition lit (s : string) : pystr :=
  map (fun b => unquote (code b)) (list_byte_of_string s).

Definition byte_of (c : Z) : Byte.byte :=
  match Byte.of_N (Z.to_N c) with Some b => b | None => Byte.x00 end.

(** A bytes literal, with the same convention. *)
Definition blit (s : string) : bytes := map byte_of (lit s).

Definition NL : Z := 10.

Fixpoint str_eqb (a b : pystr) : bool :=
  match a, b with
  | [], [] => true
  | x :: a', y :: b' => (x =? y) && str_eqb a' b'
  | _, _ => false
  end.

(** [s.startswith(p)], returning what follows the prefix. *)
Fixpoint strip_prefix (p s : pystr) : option pystr :=
  match p, s with
  | [], _ => Some s
  | x :: p', y :: s' => if x =? y then strip_prefix p' s' else None
  | _ :: _, [] => None
  end.

(** ** Decimal digits *)

Definition is_digit (c : Z) : bool := (48 <=? c) && (c <=? 57).

Fixpoint uint_chars (d : Decimal.uint) : pystr :=
  match d with
  | Decimal.Nil => []
  | Decimal.D0 d => 48 :: uint_chars d
  | Decimal.D1 d => 49 :: uint_chars d
  | Decimal.D2 d => 50 :: uint_chars d
  | Decimal.D3 d => 51 :: uint_chars d
  | Decimal.D4 d => 52 :: uint_chars d
  | Decimal.D5 d => 53 :: uint_chars d
  | Decimal.D6 d => 54 :: uint_chars d
  | Decimal.D7 d => 55 :: uint_chars d
  | Decimal.D8 d => 56 :: uint_chars d
  | Decimal.D9 d => 57 :: uint_chars d
  end.

(** The decimal digits of a natural number, most significant first. *)
Definition digits_of (n : N) : pystr := uint_chars (N.to_uint n).

(** [str(n)] for an int. *)
Definition int_str (n : Z) : pystr :=
  match n with
  | Zneg p => 45 :: digits_of (Npos p)
  | _ => digits_of (Z.to_N n)
  end.

(** The value of a run of decimal digits. *)
Definition digits_value (ds : pystr) : Z :=
  fold_left (fun acc d => 10 * acc + (d - 48)) ds 0.

(** The last [w] decimal digits of [n]. *)
Fixpoint fixed (w : nat) (n : Z) : pystr :=
  match w with
  | O => []
  | S w' => fixed w' (n / 10) ++ [48 + n mod 10]
  end.

(** A natural number [n] written with at least [w] digits, padded with
    zeros on the left (the [%0wd] of C). *)
Definition zpad (w : nat) (n : Z) : pystr :=
  if n <? 10 ^ Z.of_nat w then fixed w n else digits_of (Z.to_N n).

(** ** Python float: IEEE-754 binary64 *)

Module Float.

Definition prec : Z := 53.
Definition emax : Z := 1024.

Definition eqb (x y : spec_float) : bool :=
  match x, y with
  | S754_zero a, S754_zero b => Bool.eqb a b
  | S754_infinity a, S754_infinity b => Bool.eqb a b
  | S754_finite a m e, S754_finite b m' e' =>
      Bool.eqb a b && Pos.eqb m m' && (e =? e')
  | _, _ => false
  end.

(** The double nearest to [(-1)^s * n / d]: the quotient is developed to
    at least 53 bits and rounded once, to nearest-even. *)
Definition of_ratio (s : bool) (n : N) (d : positive) : spec_float :=
  match n with
  | N0 => S754_zero s
  | Npos p =>
      let '(mz, ez, lz) := SFdiv_core_binary prec emax (Zpos p) 0 (Zpos d) 0 in
      binary_round_aux prec emax s mz ez lz
  end.

(** [float(text)] for the decimal numeral [(-1)^s * m * 10^e10]. *)
Definition of_decimal (s : bool) (m : N) (e10 : Z) : spec_float :=
  if 0 <=? e10 then of_ratio s (m * Z.to_N (10 ^ e10)) 1
  else of_ratio s m (Z.to_pos (10 ^ (- e10))).

Definition of_int (n : Z) : spec_float :=
  of_ratio (n <? 0) (Z.abs_N n) 1.

(** [x / y] on two floats. A zero divisor raises in Python; the handler
    only ever divides by 1000. *)
Definition div (x y : spec_float) : spec_float := SFdiv prec emax x y.

(** ** [repr(x)]: the shortest decimal numeral that reads back as [x] *)

(** The exact value of a positive finite float as a fraction. *)
Definition fraction (m : positive) (e : Z) : Z * Z :=
  if 0 <=? e then (Zpos m * 2 ^ e, 1) else (Zpos m, 2 ^ (- e)).

Definition ndigits (n : Z) : Z := Z.of_nat (length (digits_of (Z.to_N n))).

(** The exponent [p] of the leading decimal digit: [10^p <= num/den < 10^(p+1)]. *)
Definition log10_floor (num den : Z) : Z :=
  if den <=? num then ndigits (num / den) - 1
  else
    let qd := ndigits (den / num) in
    if den <=? num * 10 ^ (qd - 1) then - (qd - 1) else - qd.

(** [num/den / 10^k], as a fraction. *)
Definition scale10 (num den k : Z) : Z * Z :=
  if 0 <=? k then (num, den * 10 ^ k) else (num * 10 ^ (- k), den).

(** With [n] significant digits: the two [n]-digit numerals around the
    value; the nearer one that reads back as the float, if any. *)
Definition candidate (x : spec_float) (num den p : Z) (n : Z)
  : option (Z * Z) :=
  let k := p - n + 1 in
  let '(a, b) := scale10 num den k in
  let lo := a / b in
  let hi := lo + 1 in
  let ok_lo := eqb (of_decimal false (Z.to_N lo) k) x in
  let ok_hi := eqb (of_decimal false (Z.to_N hi) k) x in
  let lo_nearer := 2 * (a mod b) <=? b in
  if ok_lo && (lo_nearer || negb ok_hi) then Some (lo, k)
  else if ok_hi then Some (hi, k)
  else None.

Fixpoint shortest (fuel : nat) (x : spec_float) (num den p : Z) (n : Z)
  : Z * Z :=
  match fuel with
  | O => let k := p - n + 1 in
         let '(a, b) := scale10 num den k in
         ((2 * a + b) / (2 * b), k)
  | S fuel' =>
      match candidate x num den p n with
      | Some r => r
      | None => shortest fuel' x num den p (n + 1)
      end
  end.

Fixpoint strip_zeros_rev (ds : pystr) : pystr :=
  match ds with
  | 48 :: ds' => strip_zeros_rev ds'
  | _ => ds
  end.

(** The digits of the shortest numeral (no trailing zeros) and the
    position of the decimal point relative to their start. *)
Definition shortest_digits (m : positive) (e : Z) : pystr * Z :=
  let '(num, den) := fraction m e in
  let p := log10_floor num den in
  let '(d, k) := shortest 16 (S754_finite false m e) num den p 1 in
  let ds := digits_of (Z.to_N d) in
  (rev (strip_zeros_rev (rev ds)), Z.of_nat (length ds) + k).

Definition zeros (n : Z) : pystr := repeat 48 (Z.to_nat n).

Definition exponent_str (x : Z) : pystr :=
  (if x <? 0 then 45 else 43) :: zpad 2 (Z.abs x).

(** The layout of [repr]: exponent notation when the decimal point would
    fall more than 16 places to the right of the first digit or more than
    3 zeros to its left. *)
Definition layout (ds : pystr) (decpt : Z) : pystr :=
  if (decpt <=? -4) || (16 <? decpt) then
    match ds with
    | [] => []
    | d :: [] => d :: 101 :: exponent_str (decpt - 1)
    | d :: rest => d :: 46 :: rest ++ 101 :: exponent_str (decpt - 1)
    end
  else if decpt <=? 0 then
    48 :: 46 :: zeros (- decpt) ++ ds
  else if Z.of_nat (length ds) <=? decpt then
    ds ++ zeros (decpt - Z.of_nat (length ds)) ++ [46; 48]
  else
    firstn (Z.to_nat decpt) ds ++ 46 :: skipn (Z.to_nat decpt) ds.

Definition sign_str (s : bool) : pystr := if s then [45] else [].

(** [repr] of a finite float. *)
Definition repr_finite (s : bool) (m : positive) (e : Z) : pystr :=
  let '(ds, decpt) := shortest_digits m e in
  sign_str s ++ layout ds decpt.

(** [repr(x)], which is also [str(x)]. *)
Definition repr (x : spec_float) : pystr :=
  match x with
  | S754_zero s => sign_str s ++ lit "0.0"
  | S754_infinity s => sign_str s ++ lit "inf"
  | S754_nan => lit "nan"
  | S754_finite s m e => repr_finite s m e
  end.

(** ** Conversions to integers *)

(** [modf]: the integral part of a positive finite float, and its
    fractional part, which is a float. Both are exact. *)
Definition modf (m : positive) (e : Z) : Z * spec_float :=
  if 0 <=? e then (Zpos m * 2 ^ e, S754_zero false)
  else
    (Zpos m / 2 ^ (- e),
     binary_normalize prec emax (Zpos m mod 2 ^ (- e)) e false).

(** The integer nearest to a non-negative float, halfway cases going to
    the even one. *)
Definition round_half_even (x : spec_float) : Z :=
  match x with
  | S754_finite _ m e =>
      if 0 <=? e then Zpos m * 2 ^ e
      else
        let q := Zpos m / 2 ^ (- e) in
        let r := Zpos m mod 2 ^ (- e) in
        match 2 * r ?= 2 ^ (- e) with
        | Lt => q
        | Gt => q + 1
        | Eq => if Z.even q then q else q + 1
        end
  | _ => 0
  end.

Definition mul (x y : spec_float) : spec_float := SFmul prec emax x y.

End Float.

(** ** Exceptions *)

(** The exceptions the handler can meet, by Python class. [OutOfRangeError]
    stands for the [OverflowError], [OSError] or [ValueError] that
    [datetime.fromtimestamp] raises for an instant it cannot represent (the
    class depends on how remote the instant is; nothing in the handler looks
    at it). All of them derive from [Exception]. *)
Inductive exn :=
| TypeError
| ValueError
| AttributeError
| OverflowError
| OutOfRangeError
| OSError
| UnicodeDecodeError
| UnicodeEncodeError
| JSONDecodeError.

(** A computation that returns or raises. *)
Definition result (A : Type) : Type := exn + A.

Definition rbind {A B : Type} (m : result A) (k : A -> result B) : result B :=
  match m with
  | inl e => inl e
  | inr a => k a
  end.

Notation "'let*' x ':=' m 'in' k" := (rbind m (fun x => k))
  (at level 10, x pattern, m at level 100, k at level 200).

(** ** What depends on the installation *)

Record platform := {
  (** the time zone rules: seconds east of UTC in force at a POSIX instant *)
  utcoffset : Z -> Z;
  (** whether the C library's [strftime] pads [%Y] to four digits (glibc
      does not) *)
  year_padded : bool;
  (** [str.isprintable] on one non-ASCII code point (Unicode tables) *)
  isprintable : Z -> bool;
  (** [sys.get_int_max_str_digits()]: 0 for no limit, else at least 640 *)
  max_str_digits : Z;
}.

(** ** Values built by [json.loads] *)

Inductive pyval :=
| PNone
| PBool (b : bool)
| PInt (n : Z)
| PFloat (x : spec_float)
| PStr (s : pystr)
| PList (items : list pyval)
| PDict (pairs : list (pystr * pyval)).

(** A [dict] keeps its keys in the order of their first insertion, so it is
    an association list without repeated keys. *)
Fixpoint dict_get (d : list (pystr * pyval)) (k : pystr) : option pyval :=
  match d with
  | [] => None
  | (k', v) :: d' => if str_eqb k' k then Some v else dict_get d' k
  end.

(** [d[k] = v]: a key already present keeps its place and takes the new
    value, a new key goes to the end. *)
Fixpoint dict_set (d : list (pystr * pyval)) (k : pystr) (v : pyval)
  : list (pystr * pyval) :=
  match d with
  | [] => [(k, v)]
  | (k', v') :: d' =>
      if str_eqb k' k then (k', v) :: d' else (k', v') :: dict_set d' k v
  end.

(** [obj.get(key, default)]: only a dict has the method. *)
Definition py_get (obj : pyval) (key : pystr) (default : pyval) : result pyval :=
  match obj with
  | PDict d =>
      match dict_get d key with
      | Some v => inr v
      | None => inr default
      end
  | _ => inl AttributeError
  end.

(** ** UTF-8 *)

Definition is_cont (c : Z) : bool := (128 <=? c) && (c <=? 191).

Definition between (lo c hi : Z) : bool := (lo <=? c) && (c <=? hi).

(** [data.decode('utf-8')]: strict, so overlong forms, surrogates, code
    points beyond U+10FFFF and truncated sequences are refused. *)
Fixpoint utf8_decode (bs : bytes) : result pystr :=
  match bs with
  | [] => inr []
  | b0 :: r0 =>
      let c0 := code b0 in
      if c0 <? 128 then
        let* s := utf8_decode r0 in inr (c0 :: s)
      else
        match r0 with
        | [] => inl UnicodeDecodeError
        | b1 :: r1 =>
            let c1 := code b1 in
            if between 194 c0 223 then
              if is_cont c1 then
                let* s := utf8_decode r1 in
                inr (((c0 - 192) * 64 + (c1 - 128)) :: s)
              else inl UnicodeDecodeError
            else
              match r1 with
              | [] => inl UnicodeDecodeError
              | b2 :: r2 =>
                  let c2 := code b2 in
                  if between 224 c0 239 then
                    if (if c0 =? 224 then between 160 c1 191
                        else if c0 =? 237 then between 128 c1 159
                        else is_cont c1) && is_cont c2
                    then
                      let* s := utf8_decode r2 in
                      inr (((c0 - 224) * 4096 + (c1 - 128) * 64 + (c2 - 128)) :: s)
                    else inl UnicodeDecodeError
                  else
                    match r2 with
                    | [] => inl UnicodeDecodeError
                    | b3 :: r3 =>
                        let c3 := code b3 in
                        if between 240 c0 244
                           && (if c0 =? 240 then between 144 c1 191
                               else if c0 =? 244 then between 128 c1 143
                               else is_cont c1)
                           && is_cont c2 && is_cont c3
                        then
                          let* s := utf8_decode r3 in
                          inr (((c0 - 240) * 262144 + (c1 - 128) * 4096
                                + (c2 - 128) * 64 + (c3 - 128)) :: s)
                        else inl UnicodeDecodeError
                    end
              end
        end
  end.

Definition is_surrogate (c : Z) : bool := between 55296 c 57343.

(** The UTF-8 form of one code point. *)
Definition utf8_char (c : Z) : bytes :=
  if c <? 128 then [byte_of c]
  else if c <? 2048 then [byte_of (192 + c / 64); byte_of (128 + c mod 64)]
  else if c <? 65536 then
    [byte_of (224 + c / 4096); byte_of (128 + (c / 64) mod 64);
     byte_of (128 + c mod 64)]
  else
    [byte_of (240 + c / 262144); byte_of (128 + (c / 4096) mod 64);
     byte_of (128 + (c / 64) mod 64); byte_of (128 + c mod 64)].

(** [text.encode('utf-8')]: a lone surrogate cannot be encoded. *)
Fixpoint utf8_encode (s : pystr) : result bytes :=
  match s with
  | [] => inr []
  | c :: s' =>
      if is_surrogate c then inl UnicodeEncodeError
      else let* bs := utf8_encode s' in inr (utf8_char c ++ bs)
  end.

(** ** [json.loads] *)

Module Json.

Definition is_ws (c : Z) : bool :=
  (c =? 32) || (c =? 9) || (c =? 10) || (c =? 13).

Fixpoint skip_ws (s : pystr) : pystr :=
  match s with
  | c :: r => if is_ws c then skip_ws r else s
  | [] => []
  end.

Definition hex_value (c : Z) : option Z :=
  if between 48 c 57 then Some (c - 48)
  else if between 97 c 102 then Some (c - 87)
  else if between 65 c 70 then Some (c - 55)
  else None.

(** The four hexadecimal digits of a [\uXXXX] escape. *)
Definition hex4 (a b c d : Z) : option Z :=
  match hex_value a, hex_value b, hex_value c, hex_value d with
  | Some x, Some y, Some z, Some w => Some (((x * 16 + y) * 16 + z) * 16 + w)
  | _, _, _, _ => None
  end.

Definition simple_escape (c : Z) : option Z :=
  if c =? 34 then Some 34          (* quote *)
  else if c =? 92 then Some 92     (* backslash *)
  else if c =? 47 then Some 47     (* slash *)
  else if c =? 98 then Some 8      (* b *)
  else if c =? 102 then Some 12    (* f *)
  else if c =? 110 then Some 10    (* n *)
  else if c =? 114 then Some 13    (* r *)
  else if c =? 116 then Some 9     (* t *)
  else None.

(** The body of a string literal, after its opening quote (strict mode:
    a raw control character is an error). A high surrogate escape
    directly followed by a low surrogate escape makes one code point; a
    surrogate escape on its own is kept as it is. *)
Fixpoint scanstring (s : pystr) : result (pystr * pystr) :=
  match s with
  | [] => inl JSONDecodeError
  | c :: r =>
      if c =? 34 then inr ([], r)
      else if c =? 92 then
        match r with
        | [] => inl JSONDecodeError
        | 117 :: h1 :: h2 :: h3 :: h4 :: r' =>
            match hex4 h1 h2 h3 h4 with
            | None => inl JSONDecodeError
            | Some u1 =>
                let single :=
                  let* (t, rest) := scanstring r' in inr (u1 :: t, rest) in
                if between 55296 u1 56319 then
                  match r' with
                  | 92 :: 117 :: g1 :: g2 :: g3 :: g4 :: r'' =>
                      match hex4 g1 g2 g3 g4 with
                      | None => inl JSONDecodeError
                      | Some u2 =>
                          if between 56320 u2 57343 then
                            let* (t, rest) := scanstring r'' in
                            inr ((65536 + (u1 - 55296) * 1024 + (u2 - 56320)) :: t,
                                 rest)
                          else single
                      end
                  | _ => single
                  end
                else single
            end
        | 117 :: _ => inl JSONDecodeError
        | e :: r' =>
            match simple_escape e with
            | None => inl JSONDecodeError
            | Some x => let* (t, rest) := scanstring r' in inr (x :: t, rest)
            end
        end
      else if c <=? 31 then inl JSONDecodeError
      else let* (t, rest) := scanstring r in inr (c :: t, rest)
  end.

Fixpoint span_digits (s : pystr) : pystr * pystr :=
  match s with
  | c :: r =>
      if is_digit c then let '(d, r') := span_digits r in (c :: d, r')
      else ([], s)
  | [] => ([], [])
  end.

(** The integer part: [0] or a nonzero digit followed by digits. *)
Definition scan_int (s : pystr) : option (pystr * pystr) :=
  match s with
  | [] => None
  | c :: r =>
      if c =? 48 then Some ([48], r)
      else if between 49 c 57 then
        let '(d, r') := span_digits r in Some (c :: d, r')
      else None
  end.

(** The fraction, a point followed by at least one digit; no digits: no
    fraction, and nothing is consumed. *)
Definition scan_frac (s : pystr) : pystr * pystr :=
  match s with
  | 46 :: r =>
      match span_digits r with
      | ([], _) => ([], s)
      | (d, r') => (d, r')
      end
  | _ => ([], s)
  end.

(** The exponent: [e] or [E], an optional sign, at least one digit. *)
Definition scan_exp (s : pystr) : option (bool * pystr) * pystr :=
  match s with
  | c :: r =>
      if (c =? 101) || (c =? 69) then
        let '(neg, r1) :=
          match r with
          | 45 :: r' => (true, r')
          | 43 :: r' => (false, r')
          | _ => (false, r)
          end in
        match span_digits r1 with
        | ([], _) => (None, s)
        | (d, r') => (Some (neg, d), r')
        end
      else (None, s)
  | [] => (None, s)
  end.

(** [int(text)] on a run of digits: refused beyond the conversion limit. *)
Definition int_of_digits (P : platform) (neg : bool) (ds : pystr) : result pyval :=
  let n := Z.of_nat (length ds) in
  if (640 <? n) && (0 <? max_str_digits P) && (max_str_digits P <? n)
  then inl ValueError
  else inr (PInt (if neg then - digits_value ds else digits_value ds)).

(** A number: an int when it has neither fraction nor exponent, else the
    float nearest to the numeral. *)
Definition scan_number (P : platform) (neg : bool) (s : pystr)
  : result (pyval * pystr) :=
  match scan_int s with
  | None => inl JSONDecodeError
  | Some (ip, r0) =>
      let '(fp, r1) := scan_frac r0 in
      let '(ex, r2) := scan_exp r1 in
      match fp, ex with
      | [], None => let* v := int_of_digits P neg ip in inr (v, r2)
      | _, _ =>
          let e10 :=
            match ex with
            | None => 0
            | Some (eneg, ed) =>
                if eneg then - digits_value ed else digits_value ed
            end in
          inr (PFloat (Float.of_decimal neg (Z.to_N (digits_value (ip ++ fp)))
                         (e10 - Z.of_nat (length fp))),
               r2)
      end
  end.

Definition constant (word : string) (v : pyval) (s : pystr)
  : result (pyval * pystr) :=
  match strip_prefix (lit word) s with
  | Some r => inr (v, r)
  | None => inl JSONDecodeError
  end.

Section Containers.

(** The scanner for one value, at the nesting level below. *)
Variable scan : pystr -> result (pyval * pystr).

(** The items of an array, entered after [[] and the blanks that follow
    it, up to and including the closing bracket. *)
Fixpoint array_items (fuel : nat) (s : pystr) (acc : list pyval)
  : result (pyval * pystr) :=
  match fuel with
  | O => inl JSONDecodeError
  | S fuel' =>
      let* (v, r) := scan s in
      match skip_ws r with
      | 93 :: r' => inr (PList (rev (v :: acc)), r')
      | 44 :: r' => array_items fuel' (skip_ws r') (v :: acc)
      | _ => inl JSONDecodeError
      end
  end.

(** The members of an object, entered at the quote of a key. *)
Fixpoint object_pairs (fuel : nat) (s : pystr) (acc : list (pystr * pyval))
  : result (pyval * pystr) :=
  match fuel with
  | O => inl JSONDecodeError
  | S fuel' =>
      match s with
      | 34 :: r =>
          let* (key, r1) := scanstring r in
          match skip_ws r1 with
          | 58 :: r2 =>
              let* (v, r3) := scan (skip_ws r2) in
              let acc' := dict_set acc key v in
              match skip_ws r3 with
              | 125 :: r4 => inr (PDict acc', r4)
              | 44 :: r4 => object_pairs fuel' (skip_ws r4) acc'
              | _ => inl JSONDecodeError
              end
          | _ => inl JSONDecodeError
          end
      | _ => inl JSONDecodeError
      end
  end.

End Containers.

(** One JSON value at the head of [s], and what follows it. [fuel] bounds
    the nesting depth and the number of items of a container; the
    length of the text is enough ([scan_once_fuel]). *)
Fixpoint scan_once (P : platform) (fuel : nat) (s : pystr)
  : result (pyval * pystr) :=
  match fuel with
  | O => inl JSONDecodeError
  | S fuel' =>
      match s with
      | [] => inl JSONDecodeError
      | c :: r =>
          if c =? 34 then
            let* (t, rest) := scanstring r in inr (PStr t, rest)
          else if c =? 123 then
            match skip_ws r with
            | 125 :: r' => inr (PDict [], r')
            | r' => object_pairs (scan_once P fuel') fuel' r' []
            end
          else if c =? 91 then
            match skip_ws r with
            | 93 :: r' => inr (PList [], r')
            | r' => array_items (scan_once P fuel') fuel' r' []
            end
          else if c =? 110 then constant "null" PNone s
          else if c =? 116 then constant "true" (PBool true) s
          else if c =? 102 then constant "false" (PBool false) s
          else if c =? 78 then constant "NaN" (PFloat S754_nan) s
          else if c =? 73 then
            constant "Infinity" (PFloat (S754_infinity false)) s
          else if c =? 45 then
            match strip_prefix (lit "Infinity") r with
            | Some r' => inr (PFloat (S754_infinity true), r')
            | None => scan_number P true r
            end
          else scan_number P false s
      end
  end.

(** [json.loads(text)]: one value, blanks allowed around it, nothing else;
    a text that starts with a byte order mark is refused. *)
Definition loads (P : platform) (s : pystr) : result pyval :=
  match s with
  | 65279 :: _ => inl JSONDecodeError
  | _ =>
      let* (v, r) := scan_once P (S (length s)) (skip_ws s) in
      match skip_ws r with
      | [] => inr v
      | _ => inl JSONDecodeError
      end
  end.

End Json.

(** ** [json.dumps] with its defaults *)

Definition join (sep : pystr) (parts : list pystr) : pystr :=
  match parts with
  | [] => []
  | p :: ps => p ++ flat_map (fun q => sep ++ q) ps
  end.

Definition hex_digit (n : Z) : Z := if n <? 10 then 48 + n else 87 + n.

Definition hex2 (c : Z) : pystr := [hex_digit (c / 16 mod 16); hex_digit (c mod 16)].

Definition hex4 (c : Z) : pystr := hex2 (c / 256) ++ hex2 c.

Module Encoder.

(** One character of a string, [ensure_ascii] being on: printable ASCII
    stays, the rest is escaped, code points beyond the basic plane as a
    surrogate pair. *)
Definition escape_char (c : Z) : pystr :=
  if c =? 34 then [92; 34]
  else if c =? 92 then [92; 92]
  else if c =? 10 then [92; 110]
  else if c =? 13 then [92; 114]
  else if c =? 9 then [92; 116]
  else if c =? 8 then [92; 98]
  else if c =? 12 then [92; 102]
  else if between 32 c 126 then [c]
  else if c <? 65536 then 92 :: 117 :: hex4 c
  else
    92 :: 117 :: hex4 (55296 + (c - 65536) / 1024)
    ++ 92 :: 117 :: hex4 (56320 + (c - 65536) mod 1024).

Definition encode_str (s : pystr) : pystr :=
  34 :: flat_map escape_char s ++ [34].

Definition encode_float (x : spec_float) : pystr :=
  match x with
  | S754_nan => lit "NaN"
  | S754_infinity false => lit "Infinity"
  | S754_infinity true => lit "-Infinity"
  | _ => Float.repr x
  end.

(** [json.dumps(obj)]: item separator [, ] and key separator [: ], no
    indentation, keys in the order of the dict. *)
Fixpoint dumps (v : pyval) : pystr :=
  match v with
  | PNone => lit "null"
  | PBool true => lit "true"
  | PBool false => lit "false"
  | PInt n => int_str n
  | PFloat x => encode_float x
  | PStr s => encode_str s
  | PList items => 91 :: join (lit ", ") (map dumps items) ++ [93]
  | PDict pairs =>
      123 :: join (lit ", ")
               (map (fun kv => encode_str (fst kv) ++ lit ": " ++ dumps (snd kv))
                    pairs)
      ++ [125]
  end.

End Encoder.

(** ** [str] and [repr] *)

Definition mem (c : Z) (s : pystr) : bool := existsb (Z.eqb c) s.

(** The quote [repr] puts around a str: double only when the text has a
    single quote and no double quote. *)
Definition repr_quote (s : pystr) : Z :=
  if mem 39 s && negb (mem 34 s) then 34 else 39.

Definition repr_char (P : platform) (quote c : Z) : pystr :=
  if (c =? quote) || (c =? 92) then [92; c]
  else if c =? 9 then [92; 116]
  else if c =? 10 then [92; 110]
  else if c =? 13 then [92; 114]
  else if (c <? 32) || (c =? 127) then 92 :: 120 :: hex2 c
  else if c <? 127 then [c]
  else if isprintable P c then [c]
  else if c <=? 255 then 92 :: 120 :: hex2 c
  else if c <=? 65535 then 92 :: 117 :: hex4 c
  else 92 :: 85 :: hex4 (c / 65536) ++ hex4 c.

Definition repr_str (P : platform) (s : pystr) : pystr :=
  let q := repr_quote s in
  q :: flat_map (repr_char P q) s ++ [q].

Fixpoint py_repr (P : platform) (v : pyval) : pystr :=
  match v with
  | PNone => lit "None"
  | PBool true => lit "True"
  | PBool false => lit "False"
  | PInt n => int_str n
  | PFloat x => Float.repr x
  | PStr s => repr_str P s
  | PList items => 91 :: join (lit ", ") (map (py_repr P) items) ++ [93]
  | PDict pairs =>
      123 :: join (lit ", ")
               (map (fun kv => repr_str P (fst kv) ++ lit ": " ++ py_repr P (snd kv))
                    pairs)
      ++ [125]
  end.

(** [str(v)], which is what an f-string field without format makes of [v]:
    a str as it is, anything else as its [repr]. *)
Definition py_str (P : platform) (v : pyval) : pystr :=
  match v with
  | PStr s => s
  | _ => py_repr P v
  end.

(** [v / 1000]: true division, defined on int (bool included) and float. *)
Definition py_truediv_1000 (v : pyval) : result spec_float :=
  match v with
  | PInt n =>
      match Float.of_ratio (n <? 0) (Z.abs_N n) 1000 with
      | S754_infinity _ => inl OverflowError
      | q => inr q
      end
  | PBool b => inr (Float.of_ratio false (if b then 1 else 0)%N 1000)
  | PFloat x => inr (Float.div x (Float.of_int 1000))
  | _ => inl TypeError
  end.

(** ** [datetime] *)

Module Datetime.

Record datetime := {
  year : Z; month : Z; day : Z;
  hour : Z; minute : Z; second : Z; microsecond : Z
}.

Definition MINYEAR : Z := 1.
Definition MAXYEAR : Z := 9999.

(** The proleptic Gregorian date of a day number counted from 1970-01-01. *)
Definition civil_from_days (z : Z) : Z * Z * Z :=
  let z := z + 719468 in
  let era := z / 146097 in
  let doe := z - era * 146097 in
  let yoe := (doe - doe / 1460 + doe / 36524 - doe / 146096) / 365 in
  let doy := doe - (365 * yoe + yoe / 4 - yoe / 100) in
  let mp := (5 * doy + 2) / 153 in
  let d := doy - (153 * mp + 2) / 5 + 1 in
  let m := if mp <? 10 then mp + 3 else mp - 9 in
  (yoe + era * 400 + (if m <=? 2 then 1 else 0), m, d).

(** The fields of a wall-clock time given in seconds from 1970-01-01
    00:00:00 (of that same clock), with its microseconds. *)
Definition of_wall (w us : Z) : datetime :=
  let '(y, m, d) := civil_from_days (w / 86400) in
  let s := w mod 86400 in
  {| year := y; month := m; day := d;
     hour := s / 3600; minute := s / 60 mod 60; second := s mod 60;
     microsecond := us |}.

Definition year_of_wall (w : Z) : Z := fst (fst (civil_from_days (w / 86400))).

(** A float of seconds as whole seconds and microseconds, the
    microseconds rounded half-even; the seconds have to fit the 64-bit
    [time_t]. *)
Definition timeval (t : spec_float) : result (Z * Z) :=
  match t with
  | S754_nan => inl ValueError
  | S754_infinity _ => inl OutOfRangeError
  | S754_zero _ => inr (0, 0)
  | S754_finite s m e =>
      let '(ip, fp) := Float.modf m e in
      let us := Float.round_half_even (Float.mul fp (Float.of_int 1000000)) in
      let intpart := if s then - ip else ip in
      let floatpart := if s then - us else us in
      let '(sec, usec) :=
        if 1000000 <=? floatpart then (intpart + 1, floatpart - 1000000)
        else if floatpart <? 0 then (intpart - 1, floatpart + 1000000)
        else (intpart, floatpart) in
      if (- 2 ^ 63 <=? sec) && (sec <? 2 ^ 63) then inr (sec, usec)
      else inl OutOfRangeError
  end.

(** The local wall clock at POSIX instant [t], in seconds; its year has to
    be one a datetime can hold. *)
Definition local (P : platform) (t : Z) : result Z :=
  let w := t + utcoffset P t in
  if between MINYEAR (year_of_wall w) MAXYEAR then inr w
  else inl OutOfRangeError.

Definition max_fold_seconds : Z := 24 * 3600.

(** The constructor checks the fields it is given. *)
Definition new_datetime (dt : datetime) : result datetime :=
  if between MINYEAR (year dt) MAXYEAR && between 0 (microsecond dt) 999999
  then inr dt
  else inl ValueError.

(** The local datetime of a POSIX instant given in seconds and
    microseconds. Besides the instant itself the function looks at the
    wall clock one day earlier (and, across a backward shift of the clock,
    once more in between) to tell the two readings of a repeated hour
    apart; those readings have to be representable too. *)
Definition from_timet (P : platform) (timet us : Z) : result datetime :=
  let* result_seconds := local P timet in
  let* probe_seconds := local P (timet - max_fold_seconds) in
  let transition := result_seconds - probe_seconds - max_fold_seconds in
  let* _ := (if transition <? 0 then local P (timet + transition) else inr 0) in
  new_datetime (of_wall result_seconds us).

(** [datetime.fromtimestamp(t)], no [tz] given: local time. *)
Definition fromtimestamp (P : platform) (t : spec_float) : result datetime :=
  let* (timet, us) := timeval t in
  from_timet P timet us.

(** [datetime.now()] when the clock shows [t] seconds (whole seconds are
    enough for what the server does with it). *)
Definition now (P : platform) (t : Z) : result datetime :=
  from_timet P t 0.

(** [%Y] as the C library writes it. *)
Definition fmt_year (P : platform) (y : Z) : pystr :=
  if year_padded P then zpad 4 y else int_str y.

Definition directive (P : platform) (dt : datetime) (c : Z) : pystr :=
  if c =? 89 then fmt_year P (year dt)              (* %Y *)
  else if c =? 109 then zpad 2 (month dt)           (* %m *)
  else if c =? 100 then zpad 2 (day dt)             (* %d *)
  else if c =? 72 then zpad 2 (hour dt)             (* %H *)
  else if c =? 77 then zpad 2 (minute dt)           (* %M *)
  else if c =? 83 then zpad 2 (second dt)           (* %S *)
  else if c =? 102 then zpad 6 (microsecond dt)     (* %f *)
  else [37; c].

(** [dt.strftime(format)], for the directives the server uses. *)
Fixpoint strftime (P : platform) (dt : datetime) (format : pystr) : pystr :=
  match format with
  | 37 :: c :: rest => directive P dt c ++ strftime P dt rest
  | c :: rest => c :: strftime P dt rest
  | [] => []
  end.

End Datetime.

(** [s[:-n]] *)
Definition drop_last (n : nat) (s : pystr) : pystr :=
  firstn (length s - n) s.

(** [int(x)] on a header value, which is [None] for an absent header and
    otherwise a str of ISO-8859-1 characters: blanks around, a sign, decimal
    digits, single underscores between digits. *)
Module IntOfStr.

(** The characters [int] strips: C blanks, and the two non-ASCII Unicode
    blanks that ISO-8859-1 has. *)
Definition is_space (c : Z) : bool :=
  between 9 c 13 || (c =? 32) || (c =? 133) || (c =? 160).

Fixpoint lstrip (s : pystr) : pystr :=
  match s with
  | c :: r => if is_space c then lstrip r else s
  | [] => []
  end.

Definition strip (s : pystr) : pystr := rev (lstrip (rev (lstrip s))).

(** Digits with single underscores between them; the digits, or [None]. *)
Fixpoint digit_groups (s : pystr) (after_digit : bool) : option pystr :=
  match s with
  | [] => if after_digit then Some [] else None
  | c :: r =>
      if is_digit c then option_map (cons c) (digit_groups r true)
      else if (c =? 95) && after_digit then digit_groups r false
      else None
  end.

Definition parse (P : platform) (s : pystr) : result Z :=
  let body := strip s in
  let '(neg, ds) :=
    match body with
    | 45 :: r => (true, r)
    | 43 :: r => (false, r)
    | _ => (false, body)
    end in
  match digit_groups ds false with
  | None => inl ValueError
  | Some digits =>
      let n := Z.of_nat (length digits) in
      if (640 <? n) && (0 <? max_str_digits P) && (max_str_digits P <? n)
      then inl ValueError
      else inr (if neg then - digits_value digits else digits_value digits)
  end.

End IntOfStr.

Definition py_int (P : platform) (x : option pystr) : result Z :=
  match x with
  | None => inl TypeError
  | Some s => IntOfStr.parse P s
  end.

(** ** The world of the server *)

(** What [print] wrote on the console. *)
Inductive printed :=
| PrintLine (s : pystr)
| PrintError (e : exn).       (* f"Error processing log: {e}" *)

(** What a handler does on its connection, in order. [send_response] also
    stands for the status line and the [Server] and [Date] headers that
    [http.server] writes with it; [send_error] for the error page that
    [http.server] makes by itself. *)
Inductive call :=
| send_response (code : Z)
| send_header (keyword value : pystr)
| end_headers
| wfile_write (data : bytes)
| send_error (code : Z).

(** The clock, the file system (POSIX names, directories and regular
    files), the console, and the output of the connection being served. *)
Record state := {
  clock : Z;
  dirs : gset (list Z);
  files : gmap (list Z) (list Byte.byte);
  stdout : list printed;
  sent : list call
}.

Definition set_files (f : gmap (list Z) (list Byte.byte)) (st : state) : state :=
  {| clock := clock st; dirs := dirs st; files := f;
     stdout := stdout st; sent := sent st |}.

Definition set_dirs (d : gset (list Z)) (st : state) : state :=
  {| clock := clock st; dirs := d; files := files st;
     stdout := stdout st; sent := sent st |}.

Definition set_stdout (o : list printed) (st : state) : state :=
  {| clock := clock st; dirs := dirs st; files := files st;
     stdout := o; sent := sent st |}.

Definition set_sent (c : list call) (st : state) : state :=
  {| clock := clock st; dirs := dirs st; files := files st;
     stdout := stdout st; sent := c |}.

Definition set_clock (t : Z) (st : state) : state :=
  {| clock := t; dirs := dirs st; files := files st;
     stdout := stdout st; sent := sent st |}.

(** The content of a file, an absent file reading as empty. *)
Definition content (st : state) (name : pystr) : bytes :=
  default [] (files st !! name).

(** *** Statements: state and exceptions *)

Definition M (A : Type) : Type := state -> result A * state.

Definition ret {A : Type} (a : A) : M A := fun st => (inr a, st).

Definition bind {A B : Type} (m : M A) (k : A -> M B) : M B :=
  fun st =>
    match m st with
    | (inl e, st') => (inl e, st')
    | (inr a, st') => k a st'
    end.

Definition raise {A : Type} (e : exn) : M A := fun st => (inl e, st).

(** The value of an expression that may raise. *)
Definition eval {A : Type} (r : result A) : M A := fun st => (r, st).

(** [try: body / except Exception as e: handler]: what the body did before
    it raised stays done. *)
Definition try_except {A : Type} (body : M A) (handler : exn -> M A) : M A :=
  fun st =>
    match body st with
    | (inl e, st') => handler e st'
    | (inr a, st') => (inr a, st')
    end.

Notation "x <- m ;; k" := (bind m (fun x => k))
  (at level 100, m at next level, k at level 200, right associativity).
Notation "m ;;; k" := (bind m (fun _ => k))
  (at level 100, k at level 200, right associativity).

(** *** Console and connection *)

Definition print (p : printed) : M unit :=
  fun st => (inr tt, set_stdout (stdout st ++ [p]) st).

Definition emit (c : call) : M unit :=
  fun st => (inr tt, set_sent (sent st ++ [c]) st).

(** *** Files *)

Definition SLASH : Z := 47.

(** The directory part of a POSIX file name: what precedes the last slash. *)
Fixpoint dirname (name : pystr) : pystr :=
  match name with
  | [] => []
  | c :: r =>
      if mem SLASH r then c :: dirname r
      else []
  end.

(** [os.path.join(a, b)] (POSIX). *)
Definition os_path_join (a b : pystr) : pystr :=
  match b with
  | 47 :: _ => b
  | _ =>
      match rev a with
      | [] => b
      | 47 :: _ => a ++ b
      | _ => a ++ SLASH :: b
      end
  end.

(** [os.makedirs(name, exist_ok=True)] *)
Definition os_makedirs (name : pystr) : M unit :=
  fun st => (inr tt, set_dirs ({[ name ]} ∪ dirs st) st).

(** [open(name, 'a', encoding='utf-8')]: the directory has to exist; the
    file is created when it does not exist yet. The handle is the name. *)
Definition open_append (name : pystr) : M pystr :=
  fun st =>
    if bool_decide (dirname name = [] \/ dirname name ∈ dirs st) then
      (inr name, set_files (<[ name := content st name ]> (files st)) st)
    else (inl OSError, st).

(** [f.write(text)] and the closing of [f] at the end of the [with] block:
    the text is encoded as a whole, then added at the end of the file. *)
Definition file_write (f : pystr) (text : pystr) : M unit :=
  fun st =>
    match utf8_encode text with
    | inl e => (inl e, st)
    | inr data =>
        (inr tt, set_files (<[ f := content st f ++ data ]> (files st)) st)
    end.

(** ** The request being handled *)

(** The body still to be read from the client: the bytes it sends before it
    stops, or a connection that fails when read. *)
Inductive stream :=
| Stream (data : bytes)
| Broken.

Record request := {
  command : pystr;                    (* the method, as received *)
  path : pystr;
  headers : list (pystr * pystr);     (* in the order received *)
  rfile : stream
}.

Definition ascii_lower (c : Z) : Z := if between 65 c 90 then c + 32 else c.

(** [headers[name]]: the first header of that name, the case of letters
    not counting; [None] when there is none. *)
Fixpoint headers_get (hs : list (pystr * pystr)) (name : pystr) : option pystr :=
  match hs with
  | [] => None
  | (k, v) :: hs' =>
      if str_eqb (map ascii_lower k) (map ascii_lower name) then Some v
      else headers_get hs' name
  end.

(** [rfile.read(n)]: [n] bytes, fewer when the client stops before; all of
    them for [-1]; other negative sizes are refused. *)
Definition rfile_read (f : stream) (n : Z) : result bytes :=
  match f with
  | Broken => inl OSError
  | Stream data =>
      if n <? -1 then inl ValueError
      else if n =? -1 then inr data
      else inr (firstn (Z.to_nat n) data)
  end.

(** ** [log_server.py] *)

Definition LOG_DIR : pystr := lit "logs".

(** [datetime.now()] reads the clock. *)
Definition datetime_now (P : platform) : M Datetime.datetime :=
  fun st => (Datetime.now P (clock st), st).

(** The module-level statements: [LOG_FILE] is computed once, from the date
    at that moment, and the log directory is created. *)
Definition module_init (P : platform) : M pystr :=
  now <- datetime_now P ;;
  let LOG_FILE :=
    os_path_join LOG_DIR
      (lit "lorafactory_" ++ Datetime.strftime P now (lit "%Y%m%d") ++ lit ".log") in
  os_makedirs LOG_DIR ;;;
  ret LOG_FILE.

Section LogHandler.

Variable P : platform.
Variable LOG_FILE : pystr.

(** [log_message]: overridden to do nothing. *)
Definition log_message : M unit := ret tt.

(** [self.send_response(code)] of the base class: it reports the request
    through [log_message], then writes the status line. *)
Definition do_send_response (code : Z) : M unit :=
  log_message ;;; emit (send_response code).

(** The line of the log for a parsed entry:
    [f"[{timestamp}] [{log_type}] {json.dumps(log_entry)}\n"]. *)
Definition format_line (timestamp : pystr) (log_type log_entry : pyval) : pystr :=
  lit "[" ++ timestamp ++ lit "] [" ++ py_str P log_type ++ lit "] "
  ++ Encoder.dumps log_entry ++ [NL].

(** The suite of the [try] statement of [do_POST]. *)
Definition try_suite (post_data : bytes) : M unit :=
  text <- eval (utf8_decode post_data) ;;
  log_entry <- eval (Json.loads P text) ;;
  ts <- eval (py_get log_entry (lit "timestamp") (PInt 0)) ;;
  secs <- eval (py_truediv_1000 ts) ;;
  dt <- eval (Datetime.fromtimestamp P secs) ;;
  let timestamp :=
    drop_last 3 (Datetime.strftime P dt (lit "%Y-%m-%d %H:%M:%S.%f")) in
  log_type <- eval (py_get log_entry (lit "type") (PStr (lit "UNKNOWN"))) ;;
  f <- open_append LOG_FILE ;;
  file_write f (format_line timestamp log_type log_entry) ;;;
  do_send_response 200 ;;;
  emit (send_header (lit "Access-Control-Allow-Origin") (lit "*")) ;;;
  emit (send_header (lit "Content-Type") (lit "application/json")) ;;;
  emit end_headers ;;;
  emit (wfile_write (blit "{`status`:`ok`}")).

Definition do_POST (self : request) : M unit :=
  if str_eqb (path self) (lit "/log") then
    content_length <-
      eval (py_int P (headers_get (headers self) (lit "Content-Length"))) ;;
    post_data <- eval (rfile_read (rfile self) content_length) ;;
    try_except
      (try_suite post_data)
      (fun e =>
         print (PrintError e) ;;;
         do_send_response 500 ;;;
         emit end_headers)
  else
    do_send_response 404 ;;;
    emit end_headers.

Definition do_OPTIONS (self : request) : M unit :=
  do_send_response 200 ;;;
  emit (send_header (lit "Access-Control-Allow-Origin") (lit "*")) ;;;
  emit (send_header (lit "Access-Control-Allow-Methods") (lit "POST, OPTIONS")) ;;;
  emit (send_header (lit "Access-Control-Allow-Headers") (lit "Content-Type")) ;;;
  emit end_headers.

(** What the base class does with a parsed request: it calls the method
    [do_] + command if the handler has one, and otherwise answers 501 by
    itself. [LogHandler] has [do_POST] and [do_OPTIONS]. *)
Definition handle_one_request (self : request) : M unit :=
  if str_eqb (command self) (lit "POST") then do_POST self
  else if str_eqb (command self) (lit "OPTIONS") then do_OPTIONS self
  else emit (send_error 501).

(** What happens during the life of the process: time passes, requests
    arrive one after the other. *)
Inductive event :=
| Tick (seconds : Z)
| Request (r : request).

(** One request and what came of it: how the handler ended, and what it
    sent. *)
Record exchange := {
  ex_request : request;
  ex_outcome : result unit;
  ex_sent : list call
}.

(** [server.serve_forever()]: each request is handled on its own
    connection; an exception that leaves the handler is reported by the
    server, which goes on. *)
Fixpoint serve_forever (events : list event) (st : state)
  : list exchange * state :=
  match events with
  | [] => ([], st)
  | Tick s :: rest => serve_forever rest (set_clock (clock st + s) st)
  | Request r :: rest =>
      let '(outcome, st') := handle_one_request r (set_sent [] st) in
      let '(xs, st'') := serve_forever rest st' in
      ({| ex_request := r; ex_outcome := outcome; ex_sent := sent st' |} :: xs,
       st'')
  end.

End LogHandler.

(** [run_server(port)]: the banner, then the loop. [cwd] is the working
    directory of the process, against which [os.path.abspath] resolves the
    name of the log file. *)
Definition run_server (P : platform) (LOG_FILE cwd : pystr) (port : Z)
  (events : list event) : state -> list exchange * state :=
  fun st =>
    let banner :=
      [PrintLine (128221 :: lit " Logging server started on http://localhost:"
                  ++ int_str port);
       PrintLine (128193 :: lit " Writing logs to: " ++ os_path_join cwd LOG_FILE);
       PrintLine (128260 :: lit " Server running in background...")] in
    serve_forever P LOG_FILE events (set_stdout (stdout st ++ banner) st).

(** The response a client reads from what the handler sent. *)
Record response := {
  status : Z;
  response_headers : list (pystr * pystr);
  body : bytes
}.

Fixpoint headers_of (cs : list call) : list (pystr * pystr) :=
  match cs with
  | send_header k v :: cs' => (k, v) :: headers_of cs'
  | _ :: cs' => headers_of cs'
  | [] => []
  end.

Fixpoint body_of (cs : list call) : bytes :=
  match cs with
  | wfile_write b :: cs' => b ++ body_of cs'
  | _ :: cs' => body_of cs'
  | [] => []
  end.

Definition response_of (cs : list call) : option response :=
  match cs with
  | send_response code :: cs' =>
      Some {| status := code; response_headers := headers_of cs';
              body := body_of cs' |}
  | _ => None
  end.

(** ** Notions the properties are stated with *)

(** Printable ASCII. *)
Definition plain (c : Z) : Prop := 32 <= c <= 126.

(** The line breaks of a text, and of a file. *)
Definition newlines (s : pystr) : nat := count_occ Z.eq_dec s NL.

Definition newline_bytes (b : bytes) : nat :=
  count_occ Byte.byte_eq_dec b Byte.x0a.

(** What [do_POST] makes of a body before it touches the file: the line to
    write, or the exception raised on the way. *)
Definition entry_line (P : platform) (post_data : bytes) : result pystr :=
  let* text := utf8_decode post_data in
  let* log_entry := Json.loads P text in
  let* ts := py_get log_entry (lit "timestamp") (PInt 0) in
  let* secs := py_truediv_1000 ts in
  let* dt := Datetime.fromtimestamp P secs in
  let timestamp :=
    drop_last 3 (Datetime.strftime P dt (lit "%Y-%m-%d %H:%M:%S.%f")) in
  let* log_type := py_get log_entry (lit "type") (PStr (lit "UNKNOWN")) in
  inr (format_line P timestamp log_type log_entry).

(** The timestamp and the type of an entry, with their defaults. *)
Definition entry_timestamp (d : list (pystr * pyval)) : pyval :=
  default (PInt 0) (dict_get d (lit "timestamp")).

Definition entry_type (d : list (pystr * pyval)) : pyval :=
  default (PStr (lit "UNKNOWN")) (dict_get d (lit "type")).

(** The bytes a request adds to the log when it is accepted. *)
Definition record_of (P : platform) (post_data : bytes) : bytes :=
  match entry_line P post_data with
  | inr line =>
      match utf8_encode line with
      | inr data => data
      | inl _ => []
      end
  | inl _ => []
  end.

(** The display of an instant: the date and time of the wall clock reading
    [w] (seconds, local reckoning) and [ms] milliseconds. *)
Definition render (P : platform) (w ms : Z) : pystr :=
  let dt := Datetime.of_wall w 0 in
  Datetime.fmt_year P (Datetime.year dt) ++ lit "-"
  ++ zpad 2 (Datetime.month dt) ++ lit "-" ++ zpad 2 (Datetime.day dt) ++ lit " "
  ++ zpad 2 (Datetime.hour dt) ++ lit ":" ++ zpad 2 (Datetime.minute dt) ++ lit ":"
  ++ zpad 2 (Datetime.second dt) ++ lit "." ++ zpad 3 ms.

(** The display of a timestamp as the specification words it: the number
    read as milliseconds since the epoch, shown in local time with its
    milliseconds. *)
Definition display_as_stated (P : platform) (ms : Z) : pystr :=
  let t := ms / 1000 in
  render P (t + utcoffset P t) (ms mod 1000).

(** What the handler sends in each of its four outcomes. *)
Definition ok_calls : list call :=
  [send_response 200;
   send_header (lit "Access-Control-Allow-Origin") (lit "*");
   send_header (lit "Content-Type") (lit "application/json");
   end_headers;
   wfile_write (blit "{`status`:`ok`}")].

Definition error_calls : list call := [send_response 500; end_headers].

Definition not_found_calls : list call := [send_response 404; end_headers].

Definition options_calls : list call :=
  [send_response 200;
   send_header (lit "Access-Control-Allow-Origin") (lit "*");
   send_header (lit "Access-Control-Allow-Methods") (lit "POST, OPTIONS");
   send_header (lit "Access-Control-Allow-Headers") (lit "Content-Type");
   end_headers].

(** A POST to the ingestion path whose [Content-Length] is the size of the
    body the client sends. *)
Definition posts_log (P : platform) (r : request) (post_data : bytes) : Prop :=
  command r = lit "POST" /\ path r = lit "/log"
  /\ py_int P (headers_get (headers r) (lit "Content-Length"))
     = inr (Z.of_nat (length post_data))
  /\ rfile r = Stream post_data.

(** The log directory is there (or the log file is named without one). *)
Definition log_dir_exists (LOG_FILE : pystr) (st : state) : Prop :=
  dirname LOG_FILE = [] \/ dirname LOG_FILE ∈ dirs st.

(** The state once the log file has been opened. *)
Definition opened (LOG_FILE : pystr) (st : state) : state :=
  set_files (<[ LOG_FILE := content st LOG_FILE ]> (files st)) st.

(** The state once the record [data] has been added and the answer sent. *)
Definition logged (LOG_FILE : pystr) (data : bytes) (st : state) : state :=
  set_sent (sent st ++ ok_calls)
    (set_files (<[ LOG_FILE := content st LOG_FILE ++ data ]> (files st)) st).

(** The state once the error has been printed and answered. *)
Definition failed (e : exn) (st : state) : state :=
  set_sent (sent st ++ error_calls) (set_stdout (stdout st ++ [PrintError e]) st).

Definition plainb (c : Z) : bool := (32 <=? c) && (c <=? 126).

(** *** A sample installation and sample requests *)

(** UTC, glibc, the default conversion limit; of the non-ASCII characters
    only the Latin-1 letters and signs count as printable. *)
Definition utc : platform := {|
  utcoffset := fun _ => 0;
  year_padded := false;
  isprintable := fun c => between 161 c 255 && negb (c =? 173);
  max_str_digits := 4300
|}.

(** The process started on 2023-11-14 (UTC), in an empty directory. *)
Definition boot : state :=
  {| clock := 1700000000; dirs := ∅; files := ∅; stdout := []; sent := [] |}.

Definition sample_LOG_FILE : pystr := lit "logs/lorafactory_20231114.log".

(** The state once the module is loaded. *)
Definition started : state := set_dirs {[ LOG_DIR ]} boot.

Definition post_to (target : string) (hs : list (pystr * pystr)) (data : bytes)
  : request :=
  {| command := lit "POST"; path := lit target; headers := hs;
     rfile := Stream data |}.

(** A POST to [/log] with the right [Content-Length]. *)
Definition post_log (data : string) : request :=
  post_to "/log"
    [(lit "Content-Type", lit "application/json");
     (lit "Content-Length", int_str (Z.of_nat (length (blit data))))]
    (blit data).

(** The body of the example of the specification. *)
Definition hello_body : string :=
  "{`timestamp`:1700000000000,`type`:`INFO`,`msg`:`hello`}".

(** The answer to a request that was refused. *)
Definition error_response : response :=
  {| status := 500; response_headers := []; body := [] |}.

(** *** Requests as the handler reads them *)

Definition digit (c : Z) : Prop := 48 <= c <= 57.

(** A POST to the ingestion path whose [Content-Length] reads as a number
    and whose body can be read: [post_data] is what [rfile.read] returns. *)
Definition reads_body (P : platform) (r : request) (post_data : bytes) : Prop :=
  command r = lit "POST" /\ path r = lit "/log"
  /\ exists n, py_int P (headers_get (headers r) (lit "Content-Length")) = inr n
               /\ rfile_read (rfile r) n = inr post_data.

(** The event carried by [r] is accepted: the suite of the [try] statement
    runs to its end, and leaves [st']. *)
Definition accepted (P : platform) (LOG_FILE : pystr) (r : request)
  (post_data : bytes) (st st' : state) : Prop :=
  reads_body P r post_data /\ try_suite P LOG_FILE post_data st = (inr tt, st').

(** What [do_POST] gets as the body of a request (nothing when it cannot
    read one). *)
Definition post_data_of (P : platform) (r : request) : bytes :=
  match py_int P (headers_get (headers r) (lit "Content-Length")) with
  | inr n =>
      match rfile_read (rfile r) n with
      | inr data => data
      | inl _ => []
      end
  | inl _ => []
  end.

(** An exchange in which an event was accepted: a POST answered 200. *)
Definition accepted_exchange (x : exchange) : bool :=
  str_eqb (command (ex_request x)) (lit "POST")
  && match ex_sent x with
     | send_response c :: _ => c =? 200
     | _ => false
     end.

(** The records of the accepted events of a run, in the order of arrival. *)
Definition records_of (P : platform) (xs : list exchange) : bytes :=
  flat_map
    (fun x =>
       if accepted_exchange x then record_of P (post_data_of P (ex_request x))
       else [])
    xs.

(** The line of an entry, as it is laid out. *)
Definition layout_line (P : platform) (stamp : pystr) (d : list (pystr * pyval))
  : pystr :=
  lit "[" ++ stamp ++ lit "] [" ++ py_str P (entry_type d) ++ lit "] "
  ++ Encoder.dumps (PDict d) ++ [NL].

(** *** More sample requests *)

Definition request_of (method target : string) : request :=
  {| command := lit method; path := lit target; headers := [];
     rfile := Stream [] |}.

(** A POST to [/log] that has no [Content-Length]. *)
Definition post_no_length : request := post_to "/log" [] (blit hello_body).

(** An instant of the year 2242, one millisecond after a whole second. *)
Definition far_body : string := "{`timestamp`:8589934592001}".

(** An instant less than half a microsecond before the first millisecond. *)
Definition fraction_body : string := "{`timestamp`:0.9996}".

Definition true_body : string := "{`timestamp`:true}".

(** A type label of two lines. *)
Definition two_line_body : string := "{`type`:`a\nb`}".

Definition not_found_response : response :=
  {| status := 404; response_headers := []; body := [] |}.

Definition options_response : response :=
  {| status := 200;
     response_headers :=
       [(lit "Access-Control-Allow-Origin", lit "*");
        (lit "Access-Control-Allow-Methods", lit "POST, OPTIONS");
        (lit "Access-Control-Allow-Headers", lit "Content-Type")];
     body := [] |}.

Definition ok_response : response :=
  {| status := 200;
     response_headers :=
       [(lit "Access-Control-Allow-Origin", lit "*");
        (lit "Content-Type", lit "application/json")];
     body := blit "{`status`:`ok`}" |}.

(** JSON values Python does not divide: a bool is an int for Python, so
    [true] and [false] are not among them. *)
Definition not_a_number (v : pyval) : bool :=
  match v with
  | PNone | PStr _ | PList _ | PDict _ => true
  | PBool _ | PInt _ | PFloat _ => false
  end.

(** The entries the handler cannot use, with the exception they raise:
    values without a [get] method, and objects whose timestamp cannot be
    divided. *)
Definition refused_entry (v : pyval) : option exn :=
  match v with
  | PDict d => if not_a_number (entry_timestamp d) then Some TypeError else None
  | _ => Some AttributeError
  end.

(** The state once the handler has sent [calls] and done nothing else. *)
Definition answered (calls : list call) (st : state) : state :=
  set_sent (sent st ++ calls) st.

(** The type label of the entry a body holds (empty when it holds none). *)
Definition type_label (P : platform) (post_data : bytes) : pystr :=
  match utf8_decode post_data with
  | inr text =>
      match Json.loads P text with
      | inr (PDict d) => py_str P (entry_type d)
      | _ => []
      end
  | inl _ => []
  end.

(** The record the handler writes for [two_line_body]. *)
Definition two_line_record : bytes :=
  blit "[1970-01-01 00:00:00.000] [a" ++ [Byte.x0a]
  ++ blit "b] {`type`: `a\nb`}" ++ [Byte.x0a].

(** A day of the server: a request, midnight, another request. *)
Definition two_days : list event :=
  [Request (post_log hello_body); Tick 86400; Request (post_log hello_body)].

(** The four ways the handling of a request can end: an exception leaves
    the handler; the handler answers and does nothing else; it prints an
    error and answers 500, the log file at most opened; it adds a record to
    the log file and answers 200. *)
Inductive outcome (P : platform) (LOG_FILE : pystr) (r : request) (st : state)
  : result unit * state -> Prop :=
| Escaped (e : exn) :
    outcome P LOG_FILE r st (inl e, st)
| Answered (calls : list call) :
    command r <> lit "POST" \/ calls = not_found_calls ->
    outcome P LOG_FILE r st (inr tt, answered calls st)
| Refused (e : exn) (st1 : state) :
    st1 = st \/ st1 = opened LOG_FILE st ->
    outcome P LOG_FILE r st (inr tt, failed e st1)
| Accepted (post_data : bytes) :
    command r = lit "POST" ->
    post_data_of P r = post_data ->
    outcome P LOG_FILE r st (inr tt, logged LOG_FILE (record_of P post_data) st).

(** Two scanners that agree on the texts of at most [n] characters. *)
Definition agree (scan scan' : pystr -> result (pyval * pystr)) (n : nat) : Prop :=
  forall t, (length t <= n)%nat -> scan t = scan' t.




Definition post_bad_length : request :=
  post_to "/log" [(lit "Content-Length", lit "abc")] (blit hello_body).

Definition post_broken : request :=
  {| command := lit "POST"; path := lit "/log";
     headers := [(lit "Content-Length", lit "55")]; rfile := Broken |}.

(** *** Notions for the properties of the whole server *)


(** The requests among the events of a run. *)
Definition requests_of (events : list event) : list request :=
  flat_map (fun ev => match ev with Request r => [r] | Tick _ => [] end) events.



Definition set_headers (hs : list (pystr * pystr)) (r : request) : request :=
  {| command := command r; path := path r; headers := hs; rfile := rfile r |}.

(** Two header lists that differ in the case of the letters of the names
    only. *)
Definition same_headers (hs hs' : list (pystr * pystr)) : Prop :=
  Forall2 (fun a b => map ascii_lower (fst a) = map ascii_lower (fst b)
                      /\ snd a = snd b) hs hs'.


(** *** Well-formed values *)

(** No object of the value, at any depth, has a key twice. *)
Fixpoint distinct_keys (v : pyval) : Prop :=
  match v with
  | PList items =>
      (fix all (l : list pyval) : Prop :=
         match l with
         | [] => True
         | x :: l' => distinct_keys x /\ all l'
         end) items
  | PDict pairs =>
      List.NoDup (map fst pairs)
      /\ (fix all (l : list (pystr * pyval)) : Prop :=
            match l with
            | [] => True
            | kv :: l' => distinct_keys (snd kv) /\ all l'
            end) pairs
  | _ => True
  end.

(** *** Values that can be read back *)

(** Whether a high surrogate is directly followed by a low one. *)
Fixpoint paired (s : pystr) : bool :=
  match s with
  | c :: r =>
      match r with
      | c' :: _ => (between 55296 c 56319 && between 56320 c' 57343) || paired r
      | [] => false
      end
  | [] => false
  end.

(** A string of code points in which no two surrogates make a pair. *)
Definition str_ok (s : pystr) : bool :=
  forallb (fun c => between 0 c 1114111) s && negb (paired s).

(** An int that has no more digits than the conversion limit allows. *)
Definition int_ok (P : platform) (n : Z) : bool :=
  let len := Z.of_nat (length (digits_of (Z.to_N (Z.abs n)))) in
  negb ((640 <? len) && (0 <? max_str_digits P) && (max_str_digits P <? len)).

(** A value without finite floats, its strings and keys as [str_ok], its
    ints as [int_ok], and no key twice in an object. *)
Fixpoint readable (P : platform) (v : pyval) : Prop :=
  match v with
  | PNone | PBool _ => True
  | PInt n => int_ok P n = true
  | PFloat x =>
      match x with
      | S754_nan | S754_infinity _ => True
      | _ => False
      end
  | PStr s => str_ok s = true
  | PList items =>
      (fix all (l : list pyval) : Prop :=
         match l with
         | [] => True
         | x :: l' => readable P x /\ all l'
         end) items
  | PDict pairs =>
      List.NoDup (map fst pairs)
      /\ (fix all (l : list (pystr * pyval)) : Prop :=
            match l with
            | [] => True
            | kv :: l' => str_ok (fst kv) = true /\ readable P (snd kv) /\ all l'
            end) pairs
  end.

(** What may follow a value in the text of [json.dumps]: nothing, a comma,
    or a closing bracket or brace. *)
Definition closes (rest : pystr) : Prop :=
  match rest with
  | c :: _ => c = 44 \/ c = 93 \/ c = 125
  | [] => True
  end.

(** The first character of the text of a value. *)
Definition opens (t : pystr) : Prop :=
  exists c r, t = c :: r /\ 33 <= c <= 126 /\ c <> 93.

(** The scanner [scan] reads the text of [v] back, whatever follows it, in
    a text of at most [bound] characters. *)
Definition reads (scan : pystr -> result (pyval * pystr)) (bound : nat) (v : pyval)
  : Prop :=
  forall rest,
    closes rest -> (length (Encoder.dumps v ++ rest) <= bound)%nat ->
    scan (Encoder.dumps v ++ rest) = inr (v, rest).

(** *** Values as [json.loads] builds them from a decoded body *)

(** A character of a decoded text: a code point that is no surrogate. *)
Definition scalar (c : Z) : Prop := 0 <= c <= 1114111 /\ is_surrogate c = false.

(** A text that starts with the escape of a low surrogate. *)
Definition low_esc (s : pystr) : Prop :=
  exists g1 g2 g3 g4 r u,
    s = 92 :: 117 :: g1 :: g2 :: g3 :: g4 :: r
    /\ Json.hex4 g1 g2 g3 g4 = Some u /\ between 56320 u 57343 = true.

(** No float of the value is a finite number. *)
Fixpoint no_finite_float (v : pyval) : Prop :=
  match v with
  | PFloat x =>
      match x with
      | S754_nan | S754_infinity _ => True
      | _ => False
      end
  | PList items =>
      (fix all (l : list pyval) : Prop :=
         match l with
         | [] => True
         | x :: l' => no_finite_float x /\ all l'
         end) items
  | PDict pairs =>
      (fix all (l : list (pystr * pyval)) : Prop :=
         match l with
         | [] => True
         | kv :: l' => no_finite_float (snd kv) /\ all l'
         end) pairs
  | _ => True
  end.

(** A value that can be read back as soon as it has no finite float. *)
Definition sound (P : platform) (v : pyval) : Prop :=
  no_finite_float v -> readable P v.


(** * Properties *)

(** ** Strings *)

Lemma str_eqb_eq (a b : pystr) : str_eqb a b = true <-> a = b.
Proof.
  revert b; induction a as [|x a IH]; intros [|y b]; simpl; try easy.
  rewrite andb_true_iff, Z.eqb_eq, IH. split.
  - intros [-> ->]; reflexivity.
  - intros [= -> ->]; auto.
Qed.

Lemma str_eqb_refl (a : pystr) : str_eqb a a = true.
Proof. apply str_eqb_eq; reflexivity. Qed.

Lemma str_eqb_neq (a b : pystr) : a <> b -> str_eqb a b = false.
Proof.
  intros H. destruct (str_eqb a b) eqn:E; [|reflexivity].
  apply str_eqb_eq in E. contradiction.
Qed.

(** ** The suite of the try statement *)

Section Suite.

Variable P : platform.
Variable LOG_FILE : pystr.

Lemma try_suite_unfold (post_data : bytes) (st : state) :
  try_suite P LOG_FILE post_data st =
  match entry_line P post_data with
  | inl e => (inl e, st)
  | inr line =>
      if bool_decide (log_dir_exists LOG_FILE st) then
        match utf8_encode line with
        | inl e => (inl e, opened LOG_FILE st)
        | inr data => (inr tt, logged LOG_FILE data st)
        end
      else (inl OSError, st)
  end.
Proof.
  unfold try_suite, entry_line, bind, eval, rbind.
  destruct (utf8_decode post_data) as [e|text]; [reflexivity|].
  destruct (Json.loads P text) as [e|entry]; [reflexivity|].
  destruct (py_get entry (lit "timestamp") (PInt 0)) as [e|ts]; [reflexivity|].
  destruct (py_truediv_1000 ts) as [e|secs]; [reflexivity|].
  destruct (Datetime.fromtimestamp P secs) as [e|dt]; [reflexivity|].
  destruct (py_get entry (lit "type") (PStr (lit "UNKNOWN"))) as [e|ty]; [reflexivity|].
  unfold open_append, log_dir_exists.
  destruct (bool_decide _); [|reflexivity].
  unfold file_write.
  cbv beta iota.
  destruct (utf8_encode _) as [e|data]; [reflexivity|].
  unfold do_send_response, log_message, bind, ret, emit, logged, opened.
  unfold set_sent, set_files, content; cbn [files sent clock dirs stdout].
  rewrite lookup_insert_eq; cbn [default]. rewrite insert_insert_eq.
  repeat rewrite <- app_assoc. reflexivity.
Qed.

End Suite.

(** ** Printable ASCII: what the encoder and the formats produce *)

Lemma plainb_plain (c : Z) : plainb c = true <-> plain c.
Proof. unfold plainb, plain. rewrite andb_true_iff, !Z.leb_le. tauto. Qed.

Lemma forallb_plain (s : pystr) : forallb plainb s = true -> Forall plain s.
Proof.
  intros H. apply List.Forall_forall. intros c Hc. apply plainb_plain.
  rewrite forallb_forall in H. auto.
Qed.

Ltac plain_lit := apply forallb_plain; vm_compute; reflexivity.

Lemma digit_plain (s : pystr) : Forall digit s -> Forall plain s.
Proof. intros H. eapply List.Forall_impl; [|exact H]. unfold digit, plain. lia. Qed.

Lemma uint_chars_digit (d : Decimal.uint) : Forall digit (uint_chars d).
Proof. induction d; simpl; constructor; auto; unfold digit; lia. Qed.

Lemma digits_of_digit (n : N) : Forall digit (digits_of n).
Proof. apply uint_chars_digit. Qed.

Lemma int_str_plain (n : Z) : Forall plain (int_str n).
Proof.
  destruct n; simpl; [ | apply digit_plain, digits_of_digit | ].
  - apply digit_plain, digits_of_digit.
  - constructor; [unfold plain; lia | apply digit_plain, digits_of_digit].
Qed.

Lemma fixed_digit (w : nat) (n : Z) : Forall digit (fixed w n).
Proof.
  revert n; induction w as [|w IH]; intros n; simpl; [constructor|].
  apply Forall_app; split; [apply IH|].
  constructor; [|constructor].
  pose proof (Z.mod_pos_bound n 10). unfold digit. lia.
Qed.

Lemma zpad_digit (w : nat) (n : Z) : Forall digit (zpad w n).
Proof.
  unfold zpad. destruct (n <? 10 ^ Z.of_nat w);
    [apply fixed_digit | apply digits_of_digit].
Qed.

Lemma pyval_ind' (Q : pyval -> Prop) :
  Q PNone -> (forall b, Q (PBool b)) -> (forall n, Q (PInt n)) ->
  (forall x, Q (PFloat x)) -> (forall s, Q (PStr s)) ->
  (forall items, Forall Q items -> Q (PList items)) ->
  (forall pairs, Forall (fun kv => Q (snd kv)) pairs -> Q (PDict pairs)) ->
  forall v, Q v.
Proof.
  intros HN HB HI HF HS HL HD. fix IH 1.
  intros [ | b | n | x | s | items | pairs].
  - exact HN.
  - apply HB.
  - apply HI.
  - apply HF.
  - apply HS.
  - apply HL. induction items as [|v items IHl]; constructor.
    + apply IH.
    + exact IHl.
  - apply HD. induction pairs as [|[k v] pairs IHl]; constructor.
    + simpl. apply IH.
    + exact IHl.
Qed.

Lemma plain_cons (c : Z) (s : pystr) : plain c -> Forall plain s -> Forall plain (c :: s).
Proof. intros; constructor; assumption. Qed.

Lemma plain_app (a b : pystr) : Forall plain a -> Forall plain b -> Forall plain (a ++ b).
Proof. intros; apply Forall_app; split; assumption. Qed.

Lemma sign_str_plain (s : bool) : Forall plain (Float.sign_str s).
Proof. destruct s; plain_lit. Qed.

Lemma strip_zeros_rev_digit (ds : pystr) :
  Forall digit ds -> Forall digit (Float.strip_zeros_rev ds).
Proof.
  induction 1 as [|c ds Hc Hds IH]; simpl; [constructor|].
  destruct c as [|p|p]; try (constructor; assumption).
  repeat (destruct p as [p|p|]; try (constructor; assumption)); exact IH.
Qed.

Lemma zeros_digit (n : Z) : Forall digit (Float.zeros n).
Proof.
  unfold Float.zeros. induction (Z.to_nat n); simpl; constructor; auto.
  unfold digit; lia.
Qed.

Lemma exponent_str_plain (x : Z) : Forall plain (Float.exponent_str x).
Proof.
  unfold Float.exponent_str. apply plain_cons.
  - destruct (x <? 0); unfold plain; lia.
  - apply digit_plain, zpad_digit.
Qed.

Lemma layout_plain (ds : pystr) (decpt : Z) :
  Forall digit ds -> Forall plain (Float.layout ds decpt).
Proof.
  intros H. unfold Float.layout.
  destruct ((decpt <=? -4) || (16 <? decpt)).
  - destruct H as [|d rest Hd Hrest]; [constructor|].
    assert (plain d) by (unfold digit, plain in *; lia).
    destruct Hrest as [|d' rest' Hd' Hrest'].
    + apply plain_cons; [assumption|]. apply plain_cons; [unfold plain; lia|].
      apply exponent_str_plain.
    + apply plain_cons; [assumption|]. apply plain_cons; [unfold plain; lia|].
      apply plain_app; [apply digit_plain; constructor; assumption|].
      apply plain_cons; [unfold plain; lia | apply exponent_str_plain].
  - destruct (decpt <=? 0).
    + apply plain_cons; [unfold plain; lia|]. apply plain_cons; [unfold plain; lia|].
      apply plain_app; apply digit_plain; [apply zeros_digit | assumption].
    + destruct (Z.of_nat (length ds) <=? decpt).
      * apply plain_app; [apply digit_plain; assumption|].
        apply plain_app; [apply digit_plain, zeros_digit | plain_lit].
      * apply plain_app; [apply digit_plain, Forall_take; assumption|].
        apply plain_cons; [unfold plain; lia|].
        apply digit_plain, Forall_drop; assumption.
Qed.

Lemma repr_plain (x : spec_float) : Forall plain (Float.repr x).
Proof.
  destruct x as [s|s| |s m e]; unfold Float.repr.
  - apply plain_app; [apply sign_str_plain | plain_lit].
  - apply plain_app; [apply sign_str_plain | plain_lit].
  - plain_lit.
  - unfold Float.repr_finite, Float.shortest_digits.
    destruct (Float.fraction m e) as [num den].
    destruct (Float.shortest _ _ _ _ _ _) as [d k].
    apply plain_app; [apply sign_str_plain|].
    apply layout_plain.
    apply Forall_rev, strip_zeros_rev_digit, Forall_rev, digits_of_digit.
Qed.

(** ** [json.dumps] writes printable ASCII only *)

Lemma hex_digit_plain (n : Z) : 0 <= n < 16 -> plain (hex_digit n).
Proof. unfold hex_digit, plain. destruct (n <? 10) eqn:E; lia. Qed.

Lemma hex2_plain (c : Z) : Forall plain (hex2 c).
Proof.
  unfold hex2. repeat constructor; apply hex_digit_plain; apply Z.mod_pos_bound; lia.
Qed.

Lemma hex4_plain (c : Z) : Forall plain (hex4 c).
Proof. unfold hex4. apply plain_app; apply hex2_plain. Qed.

Lemma escape_char_plain (c : Z) : Forall plain (Encoder.escape_char c).
Proof.
  unfold Encoder.escape_char.
  repeat (match goal with
          | |- Forall plain (if ?b then _ else _) => destruct b eqn:?
          end; [plain_lit|]).
  destruct (between 32 c 126) eqn:E.
  - constructor; [|constructor]. unfold between in E.
    apply andb_true_iff in E. unfold plain. lia.
  - destruct (c <? 65536).
    + apply plain_cons; [unfold plain; lia|]. apply plain_cons; [unfold plain; lia|].
      apply hex4_plain.
    + apply plain_cons; [unfold plain; lia|]. apply plain_cons; [unfold plain; lia|].
      apply plain_app; [apply hex4_plain|].
      apply plain_cons; [unfold plain; lia|]. apply plain_cons; [unfold plain; lia|].
      apply hex4_plain.
Qed.

Lemma flat_map_plain {A : Type} (f : A -> pystr) (l : list A) :
  (forall x, Forall plain (f x)) -> Forall plain (flat_map f l).
Proof.
  intros H. induction l as [|x l IH]; simpl; [constructor|].
  apply plain_app; auto.
Qed.

Lemma encode_str_plain (s : pystr) : Forall plain (Encoder.encode_str s).
Proof.
  unfold Encoder.encode_str. apply plain_cons; [unfold plain; lia|].
  apply plain_app; [apply flat_map_plain, escape_char_plain | plain_lit].
Qed.

Lemma join_plain (sep : pystr) (parts : list pystr) :
  Forall plain sep -> Forall (Forall plain) parts -> Forall plain (join sep parts).
Proof.
  intros Hsep H. destruct H as [|p ps Hp Hps]; simpl; [constructor|].
  apply plain_app; [assumption|].
  induction Hps as [|q qs Hq Hqs IH]; simpl; [constructor|].
  apply plain_app; [apply plain_app; assumption | exact IH].
Qed.

Lemma encode_float_plain (x : spec_float) : Forall plain (Encoder.encode_float x).
Proof.
  destruct x as [s|[|]| |s m e]; unfold Encoder.encode_float.
  - apply repr_plain.
  - plain_lit.
  - plain_lit.
  - plain_lit.
  - apply repr_plain.
Qed.

Lemma dumps_plain (v : pyval) : Forall plain (Encoder.dumps v).
Proof.
  induction v as [ | b | n | x | s | items IH | pairs IH] using pyval_ind';
    cbn [Encoder.dumps].
  - plain_lit.
  - destruct b; plain_lit.
  - apply int_str_plain.
  - apply encode_float_plain.
  - apply encode_str_plain.
  - apply plain_cons; [unfold plain; lia|].
    apply plain_app; [|plain_lit].
    apply join_plain; [plain_lit|].
    induction IH; cbn [map]; constructor; auto.
  - apply plain_cons; [unfold plain; lia|].
    apply plain_app; [|plain_lit].
    apply join_plain; [plain_lit|].
    induction IH as [|[k w] pairs Hw Hps IHl]; cbn [map]; constructor; auto.
    apply plain_app; [apply encode_str_plain|].
    apply plain_app; [plain_lit | exact Hw].
Qed.

(** ** UTF-8 encoding *)

Lemma utf8_encode_app (a b : pystr) :
  utf8_encode (a ++ b) =
  (let* x := utf8_encode a in let* y := utf8_encode b in inr (x ++ y)).
Proof.
  induction a as [|c a IH]; cbn [app utf8_encode rbind].
  - destruct (utf8_encode b); reflexivity.
  - destruct (is_surrogate c); [reflexivity|].
    rewrite IH. destruct (utf8_encode a) as [e|x]; cbn [rbind]; [reflexivity|].
    destruct (utf8_encode b) as [e|y]; cbn [rbind]; [reflexivity|].
    rewrite app_assoc. reflexivity.
Qed.



Lemma byte_of_newline (z : Z) : byte_of z = Byte.x0a -> z = 10.
Proof.
  unfold byte_of. destruct (Byte.of_N (Z.to_N z)) as [b|] eqn:E; [|discriminate].
  intros ->. apply Byte.to_of_N in E. simpl in E. lia.
Qed.

Lemma count_byte (z : Z) :
  z <> 10 -> newline_bytes [byte_of z] = 0%nat.
Proof.
  intros H. unfold newline_bytes. cbn [count_occ].
  destruct (Byte.byte_eq_dec (byte_of z) Byte.x0a) as [E|E]; [|reflexivity].
  apply byte_of_newline in E. contradiction.
Qed.

Lemma newline_bytes_app (a b : bytes) :
  newline_bytes (a ++ b) = (newline_bytes a + newline_bytes b)%nat.
Proof. apply count_occ_app. Qed.

Lemma newlines_app (a b : pystr) : newlines (a ++ b) = (newlines a + newlines b)%nat.
Proof. apply count_occ_app. Qed.

Lemma newline_bytes_cons (b : Byte.byte) (r : bytes) :
  newline_bytes (b :: r) = (newline_bytes [b] + newline_bytes r)%nat.
Proof. apply (newline_bytes_app [b] r). Qed.

Lemma utf8_char_newlines (c : Z) : newline_bytes (utf8_char c) = newlines [c].
Proof.
  unfold utf8_char, newlines. cbn [count_occ].
  destruct (c <? 128) eqn:E1.
  - unfold newline_bytes. cbn [count_occ].
    destruct (Byte.byte_eq_dec (byte_of c) Byte.x0a) as [E|E];
      destruct (Z.eq_dec c NL) as [F|F]; try reflexivity.
    + apply byte_of_newline in E. unfold NL in F. contradiction.
    + subst c. exfalso. apply E. reflexivity.
  - apply Z.ltb_ge in E1.
    destruct (Z.eq_dec c NL) as [F|F]; [unfold NL in F; lia|].
    assert (H64 : 0 <= c mod 64 < 64) by (apply Z.mod_pos_bound; lia).
    assert (H64' : 0 <= (c / 64) mod 64 < 64) by (apply Z.mod_pos_bound; lia).
    assert (H64'' : 0 <= (c / 4096) mod 64 < 64) by (apply Z.mod_pos_bound; lia).
    assert (0 <= c / 64) by (apply Z.div_pos; lia).
    assert (0 <= c / 4096) by (apply Z.div_pos; lia).
    assert (0 <= c / 262144) by (apply Z.div_pos; lia).
    destruct (c <? 2048); [|destruct (c <? 65536)];
      rewrite !(newline_bytes_cons _ (_ :: _));
      rewrite !count_byte by lia; reflexivity.
Qed.

(** A line break in the file is a line break of the text. *)
Lemma utf8_encode_newlines (s : pystr) (data : bytes) :
  utf8_encode s = inr data -> newline_bytes data = newlines s.
Proof.
  revert data; induction s as [|c s IH]; intros data; cbn [utf8_encode].
  - intros [= <-]. reflexivity.
  - destruct (is_surrogate c); [discriminate|].
    destruct (utf8_encode s) as [e|bs]; cbn [rbind]; [discriminate|].
    intros [= <-]. rewrite newline_bytes_app, utf8_char_newlines, (IH bs eq_refl).
    change (c :: s) with ([c] ++ s). rewrite newlines_app. reflexivity.
Qed.

Lemma plain_newlines (s : pystr) : Forall plain s -> newlines s = 0%nat.
Proof.
  induction 1 as [|c s Hc Hs IH]; [reflexivity|].
  unfold newlines in *. cbn [count_occ].
  destruct (Z.eq_dec c NL) as [E|E]; [unfold plain, NL in *; lia | exact IH].
Qed.

(** ** The rendering of timestamps *)

Lemma fixed_length (w : nat) (n : Z) : length (fixed w n) = w.
Proof.
  revert n; induction w as [|w IH]; intros n; cbn [fixed]; [reflexivity|].
  rewrite length_app, IH. cbn [length]. lia.
Qed.

Lemma fixed_split (a b : nat) (n : Z) :
  fixed (a + b) n = fixed a (n / 10 ^ Z.of_nat b) ++ fixed b n.
Proof.
  revert n; induction b as [|b IH]; intros n.
  - rewrite Nat.add_0_r. cbn [fixed Z.of_nat]. rewrite Z.pow_0_r, Z.div_1_r, app_nil_r.
    reflexivity.
  - rewrite Nat.add_succ_r. cbn [fixed]. rewrite IH, <- app_assoc.
    rewrite Z.div_div by (try apply Z.pow_pos_nonneg; lia).
    rewrite Nat2Z.inj_succ, Z.pow_succ_r by lia. reflexivity.
Qed.

(** Cutting the last three of six microsecond digits leaves the whole
    milliseconds: the microseconds are truncated, not rounded. *)
Lemma drop_last_microseconds (pre : pystr) (us : Z) :
  0 <= us <= 999999 ->
  drop_last 3 (pre ++ zpad 6 us) = pre ++ zpad 3 (us / 1000).
Proof.
  intros H. unfold zpad, drop_last.
  assert (H1 : (us <? 10 ^ Z.of_nat 6) = true) by (apply Z.ltb_lt; simpl; lia).
  assert (H2 : (us / 1000 <? 10 ^ Z.of_nat 3) = true).
  { apply Z.ltb_lt. apply Z.div_lt_upper_bound; simpl; lia. }
  rewrite H1, H2.
  change 6%nat with (3 + 3)%nat. rewrite fixed_split.
  change (10 ^ Z.of_nat 3) with 1000.
  rewrite !length_app, !fixed_length.
  replace (length pre + (3 + 3) - 3)%nat with (length pre + 3)%nat by lia.
  rewrite firstn_app.
  replace (length pre + 3 - length pre)%nat with 3%nat by lia.
  rewrite firstn_all2 by lia.
  rewrite firstn_app, fixed_length, Nat.sub_diag.
  rewrite firstn_all2 by (rewrite fixed_length; lia).
  cbn [firstn]. rewrite app_nil_r. reflexivity.
Qed.

Lemma strftime_timestamp (P : platform) (dt : Datetime.datetime) :
  Datetime.strftime P dt (lit "%Y-%m-%d %H:%M:%S.%f") =
  (Datetime.fmt_year P (Datetime.year dt) ++ lit "-"
   ++ zpad 2 (Datetime.month dt) ++ lit "-" ++ zpad 2 (Datetime.day dt) ++ lit " "
   ++ zpad 2 (Datetime.hour dt) ++ lit ":" ++ zpad 2 (Datetime.minute dt) ++ lit ":"
   ++ zpad 2 (Datetime.second dt) ++ lit ".") ++ zpad 6 (Datetime.microsecond dt).
Proof.
  change (lit "%Y-%m-%d %H:%M:%S.%f")
    with [37; 89; 45; 37; 109; 45; 37; 100; 32; 37; 72; 58; 37; 77; 58; 37; 83; 46; 37; 102].
  cbn [Datetime.strftime].
  change (lit "-") with [45]. change (lit " ") with [32].
  change (lit ":") with [58]. change (lit ".") with [46].
  unfold Datetime.directive. cbn [Z.eqb Pos.eqb].
  repeat rewrite <- app_assoc. cbn [app]. rewrite app_nil_r. reflexivity.
Qed.

Lemma from_timet_inv (P : platform) (timet us : Z) (dt : Datetime.datetime) :
  Datetime.from_timet P timet us = inr dt ->
  dt = Datetime.of_wall (timet + utcoffset P timet) us /\ 0 <= us <= 999999.
Proof.
  unfold Datetime.from_timet, Datetime.local, rbind.
  destruct (between _ (Datetime.year_of_wall (timet + utcoffset P timet)) _);
    [|discriminate].
  destruct (between _ (Datetime.year_of_wall _) _); [|discriminate].
  match goal with
  | |- context [if ?c then _ else inr 0] => destruct c
  end.
  - destruct (between _ (Datetime.year_of_wall _) _); [|discriminate].
    unfold Datetime.new_datetime.
    destruct (between _ _ _ && between 0 _ 999999) eqn:E; [|discriminate].
    intros [= <-]. split; [reflexivity|].
    apply andb_true_iff in E. destruct E as [_ E].
    unfold Datetime.of_wall in E. destruct (Datetime.civil_from_days _) as [[y m] d].
    cbn [Datetime.microsecond] in E. unfold between in E.
    apply andb_true_iff in E. lia.
  - unfold Datetime.new_datetime.
    destruct (between _ _ _ && between 0 _ 999999) eqn:E; [|discriminate].
    intros [= <-]. split; [reflexivity|].
    apply andb_true_iff in E. destruct E as [_ E].
    unfold Datetime.of_wall in E. destruct (Datetime.civil_from_days _) as [[y m] d].
    cbn [Datetime.microsecond] in E. unfold between in E.
    apply andb_true_iff in E. lia.
Qed.

(** The display of an accepted timestamp: the wall clock of the instant
    rounded to microseconds, with the microseconds cut to milliseconds. *)
Lemma display_render (P : platform) (secs : spec_float) (dt : Datetime.datetime) :
  Datetime.fromtimestamp P secs = inr dt ->
  exists timet us,
    Datetime.timeval secs = inr (timet, us) /\ 0 <= us <= 999999 /\
    drop_last 3 (Datetime.strftime P dt (lit "%Y-%m-%d %H:%M:%S.%f"))
    = render P (timet + utcoffset P timet) (us / 1000).
Proof.
  unfold Datetime.fromtimestamp, rbind.
  destruct (Datetime.timeval secs) as [e|[timet us]]; [discriminate|].
  intros H. apply from_timet_inv in H. destruct H as [-> Hus].
  exists timet, us. split; [reflexivity|]. split; [exact Hus|].
  rewrite strftime_timestamp.
  assert (Hm : Datetime.microsecond (Datetime.of_wall (timet + utcoffset P timet) us) = us).
  { unfold Datetime.of_wall. destruct (Datetime.civil_from_days _) as [[y m] d].
    reflexivity. }
  rewrite Hm, drop_last_microseconds by exact Hus.
  unfold render, Datetime.of_wall.
  destruct (Datetime.civil_from_days _) as [[y m] d].
  cbn [Datetime.year Datetime.month Datetime.day Datetime.hour Datetime.minute
       Datetime.second].
  repeat rewrite <- app_assoc. reflexivity.
Qed.

Lemma fmt_year_plain (P : platform) (y : Z) : Forall plain (Datetime.fmt_year P y).
Proof.
  unfold Datetime.fmt_year. destruct (year_padded P).
  - apply digit_plain, zpad_digit.
  - apply int_str_plain.
Qed.

Lemma render_plain (P : platform) (w ms : Z) : Forall plain (render P w ms).
Proof.
  unfold render. generalize (Datetime.of_wall w 0). intros dt.
  change (lit "-") with [45]. change (lit " ") with [32].
  change (lit ":") with [58]. change (lit ".") with [46].
  assert (Hsep : forall c, plain c -> Forall plain [c])
    by (intros c Hc; constructor; [exact Hc | constructor]).
  apply plain_app; [apply fmt_year_plain|].
  apply plain_app; [apply Hsep; unfold plain; lia|].
  apply plain_app; [apply digit_plain, zpad_digit|].
  apply plain_app; [apply Hsep; unfold plain; lia|].
  apply plain_app; [apply digit_plain, zpad_digit|].
  apply plain_app; [apply Hsep; unfold plain; lia|].
  apply plain_app; [apply digit_plain, zpad_digit|].
  apply plain_app; [apply Hsep; unfold plain; lia|].
  apply plain_app; [apply digit_plain, zpad_digit|].
  apply plain_app; [apply Hsep; unfold plain; lia|].
  apply plain_app; [apply digit_plain, zpad_digit|].
  apply plain_app; [apply Hsep; unfold plain; lia|].
  apply digit_plain, zpad_digit.
Qed.

(** ** The handler *)

Section Handler.

Variable P : platform.
Variable LOG_FILE : pystr.

Lemma entry_line_inv (post_data : bytes) (line : pystr) :
  entry_line P post_data = inr line ->
  exists text d secs dt,
    utf8_decode post_data = inr text /\ Json.loads P text = inr (PDict d) /\
    py_truediv_1000 (entry_timestamp d) = inr secs /\
    Datetime.fromtimestamp P secs = inr dt /\
    line = format_line P
             (drop_last 3 (Datetime.strftime P dt (lit "%Y-%m-%d %H:%M:%S.%f")))
             (entry_type d) (PDict d).
Proof.
  unfold entry_line, rbind.
  destruct (utf8_decode post_data) as [e|text] eqn:E1; [discriminate|].
  destruct (Json.loads P text) as [e|entry] eqn:E2; [discriminate|].
  destruct entry as [ | b | n | x | s | items | d]; try discriminate.
  unfold py_get. cbv beta iota.
  intros H. exists text, d. unfold entry_timestamp, entry_type.
  destruct (dict_get d (lit "timestamp")) as [ts|];
    destruct (dict_get d (lit "type")) as [ty|]; cbn [default from_option id];
    match type of H with
    | context [py_truediv_1000 ?v] =>
        destruct (py_truediv_1000 v) as [e|secs] eqn:E3; [discriminate|]
    end;
    destruct (Datetime.fromtimestamp P secs) as [e|dt] eqn:E4; try discriminate;
    injection H as <-; exists secs, dt; repeat split; assumption || reflexivity.
Qed.


Lemma try_suite_accepted (post_data : bytes) (st st' : state) :
  try_suite P LOG_FILE post_data st = (inr tt, st') ->
  exists line record,
    entry_line P post_data = inr line /\ utf8_encode line = inr record /\
    log_dir_exists LOG_FILE st /\ st' = logged LOG_FILE record st.
Proof.
  rewrite try_suite_unfold.
  destruct (entry_line P post_data) as [e|line]; [discriminate|].
  destruct (bool_decide (log_dir_exists LOG_FILE st)) eqn:D; [|discriminate].
  apply bool_decide_eq_true in D.
  destruct (utf8_encode line) as [e|record] eqn:E; [discriminate|].
  intros [= <-]. exists line, record. repeat split; auto.
Qed.

Lemma try_suite_raises (post_data : bytes) (e : exn) (st st1 : state) :
  try_suite P LOG_FILE post_data st = (inl e, st1) ->
  st1 = st \/ st1 = opened LOG_FILE st.
Proof.
  rewrite try_suite_unfold.
  destruct (entry_line P post_data) as [e'|line]; [intros [= _ <-]; auto|].
  destruct (bool_decide (log_dir_exists LOG_FILE st)); [|intros [= _ <-]; auto].
  destruct (utf8_encode line) as [e'|record]; [|discriminate].
  intros [= _ <-]; auto.
Qed.

Lemma posts_log_reads (r : request) (post_data : bytes) :
  posts_log P r post_data -> reads_body P r post_data.
Proof.
  intros (Hc & Hp & Hl & Hf). split; [exact Hc|]. split; [exact Hp|].
  exists (Z.of_nat (length post_data)). split; [exact Hl|].
  rewrite Hf. unfold rfile_read.
  assert (H1 : (Z.of_nat (length post_data) <? -1) = false) by (apply Z.ltb_ge; lia).
  assert (H2 : (Z.of_nat (length post_data) =? -1) = false) by (apply Z.eqb_neq; lia).
  rewrite H1, H2, Nat2Z.id, firstn_all. reflexivity.
Qed.

Lemma handle_post (r : request) (post_data : bytes) (st : state) :
  reads_body P r post_data ->
  handle_one_request P LOG_FILE r st =
  try_except (try_suite P LOG_FILE post_data)
    (fun e => print (PrintError e) ;;; do_send_response 500 ;;; emit end_headers) st.
Proof.
  intros (Hc & Hp & n & Hl & Hf).
  unfold handle_one_request, do_POST. rewrite Hc, Hp, !str_eqb_refl.
  unfold bind at 1, eval at 1. rewrite Hl.
  unfold bind at 1, eval at 1. rewrite Hf. reflexivity.
Qed.

Lemma failed_unfold (e : exn) (st : state) :
  (print (PrintError e) ;;; do_send_response 500 ;;; emit end_headers) st
  = (inr tt, failed e st).
Proof.
  unfold bind, print, do_send_response, log_message, ret, emit, bind, failed,
    set_sent, set_stdout, error_calls; cbn [sent stdout clock dirs files].
  rewrite <- app_assoc. reflexivity.
Qed.

End Handler.

(** ** The record of an accepted entry *)

Lemma layout_line_newlines (P : platform) (stamp : pystr)
  (d : list (pystr * pyval)) (record : bytes) :
  Forall plain stamp ->
  utf8_encode (layout_line P stamp d) = inr record ->
  newline_bytes record = S (newlines (py_str P (entry_type d))).
Proof.
  intros Hs Hr.
  rewrite (utf8_encode_newlines _ _ Hr). unfold layout_line.
  rewrite !newlines_app.
  rewrite (plain_newlines stamp Hs), (plain_newlines _ (dumps_plain (PDict d))).
  change (newlines (lit "[")) with 0%nat. change (newlines (lit "] [")) with 0%nat.
  change (newlines (lit "] ")) with 0%nat. change (newlines [NL]) with 1%nat.
  lia.
Qed.


Lemma entry_line_display (P : platform) (post_data : bytes) (line : pystr) :
  entry_line P post_data = inr line ->
  exists text d secs timet us,
    utf8_decode post_data = inr text /\ Json.loads P text = inr (PDict d) /\
    py_truediv_1000 (entry_timestamp d) = inr secs /\
    Datetime.timeval secs = inr (timet, us) /\ 0 <= us <= 999999 /\
    line = layout_line P (render P (timet + utcoffset P timet) (us / 1000)) d.
Proof.
  intros H. apply entry_line_inv in H.
  destruct H as (text & d & secs & dt & H1 & H2 & H3 & H4 & ->).
  destruct (display_render P secs dt H4) as (timet & us & Htv & Hus & Hrender).
  exists text, d, secs, timet, us. rewrite Hrender.
  repeat split; try assumption; lia.
Qed.

Lemma record_of_line (P : platform) (post_data : bytes) (line : pystr) (record : bytes) :
  entry_line P post_data = inr line -> utf8_encode line = inr record ->
  record_of P post_data = record.
Proof. intros H1 H2. unfold record_of. rewrite H1, H2. reflexivity. Qed.

(** What it means for an event to be accepted. *)
Lemma accepted_inv (P : platform) (LOG_FILE : pystr) (r : request)
  (post_data : bytes) (st st' : state) :
  accepted P LOG_FILE r post_data st st' ->
  exists text d secs timet us record,
    utf8_decode post_data = inr text /\ Json.loads P text = inr (PDict d) /\
    py_truediv_1000 (entry_timestamp d) = inr secs /\
    Datetime.timeval secs = inr (timet, us) /\ 0 <= us <= 999999 /\
    utf8_encode (layout_line P (render P (timet + utcoffset P timet) (us / 1000)) d)
    = inr record /\
    record_of P post_data = record /\
    st' = logged LOG_FILE record st /\
    handle_one_request P LOG_FILE r st = (inr tt, st').
Proof.
  intros [Hr Hs].
  assert (Hh := handle_post P LOG_FILE r post_data st Hr).
  unfold try_except in Hh. rewrite Hs in Hh.
  apply try_suite_accepted in Hs.
  destruct Hs as (line & record & Hline & Henc & Hdir & ->).
  destruct (entry_line_display P post_data line Hline)
    as (text & d & secs & timet & us & H1 & H2 & H3 & H4 & H5 & Hl).
  exists text, d, secs, timet, us, record.
  rewrite <- Hl. rewrite (record_of_line P post_data line record Hline Henc).
  repeat split; try assumption; lia.
Qed.

Lemma logged_content (LOG_FILE : pystr) (record : bytes) (st : state) :
  content (logged LOG_FILE record st) LOG_FILE = content st LOG_FILE ++ record.
Proof.
  unfold logged, content, set_sent, set_files; cbn [files].
  rewrite lookup_insert_eq. reflexivity.
Qed.

Lemma logged_other (LOG_FILE name : pystr) (record : bytes) (st : state) :
  name <> LOG_FILE -> files (logged LOG_FILE record st) !! name = files st !! name.
Proof.
  intros H. unfold logged, set_sent, set_files; cbn [files].
  apply lookup_insert_ne. congruence.
Qed.



(** ** The fuel of the JSON scanner *)

(** Case analysis on the scrutinee of a match of the goal, or of [H]. *)
Ltac case_goal :=
  match goal with
  | |- context [match ?x with _ => _ end] =>
      first [is_var x; destruct x | destruct x eqn:?]
  end.

Ltac case_hyp H :=
  match type of H with
  | context [match ?x with _ => _ end] =>
      first [is_var x; destruct x | destruct x eqn:?]
  end.

Lemma skip_ws_length (s : pystr) : (length (Json.skip_ws s) <= length s)%nat.
Proof.
  induction s as [|c s IH]; cbn [Json.skip_ws]; [lia|].
  destruct (Json.is_ws c); cbn [length]; lia.
Qed.

Lemma strip_prefix_length (p s r : pystr) :
  strip_prefix p s = Some r -> (length r <= length s)%nat.
Proof.
  revert s; induction p as [|x p IH]; intros [|y s]; cbn [strip_prefix];
    try discriminate.
  - intros [= <-]. lia.
  - intros [= <-]. lia.
  - destruct (x =? y); [|discriminate]. intros H. apply IH in H. cbn [length]. lia.
Qed.

Lemma span_digits_length (s d r : pystr) :
  Json.span_digits s = (d, r) -> (length r <= length s)%nat.
Proof.
  revert d r; induction s as [|c s IH]; intros d r; cbn [Json.span_digits].
  - intros [= <- <-]. lia.
  - destruct (is_digit c).
    + destruct (Json.span_digits s) as [d' r']. intros [= <- <-].
      specialize (IH d' r' eq_refl). cbn [length]. lia.
    + intros [= <- <-]. lia.
Qed.

Lemma scan_int_length (s ip r : pystr) :
  Json.scan_int s = Some (ip, r) -> (length r < length s)%nat.
Proof.
  unfold Json.scan_int. destruct s as [|c s]; [discriminate|].
  destruct (c =? 48); [intros [= <- <-]; cbn [length]; lia|].
  destruct (between 49 c 57); [|discriminate].
  destruct (Json.span_digits s) as [d r'] eqn:E. intros [= <- <-].
  apply span_digits_length in E. cbn [length]. lia.
Qed.

Lemma scan_frac_length (s fp r : pystr) :
  Json.scan_frac s = (fp, r) -> (length r <= length s)%nat.
Proof.
  unfold Json.scan_frac. intros H.
  repeat (case_hyp H; try (injection H as <- <-; lia)).
  all: match goal with
       | E : Json.span_digits _ = _ |- _ => apply span_digits_length in E
       end; injection H as <- <-; cbn [length]; lia.
Qed.

Lemma scan_exp_length (s r : pystr) (ex : option (bool * pystr)) :
  Json.scan_exp s = (ex, r) -> (length r <= length s)%nat.
Proof.
  unfold Json.scan_exp. intros H.
  destruct s as [|c s]; [injection H as <- <-; lia|].
  destruct ((c =? 101) || (c =? 69)); [|injection H as <- <-; lia].
  match type of H with
  | context [match ?m with (_, _) => _ end] => destruct m as [neg r1] eqn:Es
  end.
  assert (Hs : (length r1 <= length s)%nat).
  { clear H. repeat (case_hyp Es; try (injection Es as <- <-; cbn [length]; lia)). }
  destruct (Json.span_digits r1) as [d r'] eqn:Ed. apply span_digits_length in Ed.
  destruct d; injection H as <- <-; cbn [length]; lia.
Qed.

Lemma scan_number_length (P : platform) (neg : bool) (s r : pystr) (v : pyval) :
  Json.scan_number P neg s = inr (v, r) -> (length r < length s)%nat.
Proof.
  unfold Json.scan_number.
  destruct (Json.scan_int s) as [[ip r0]|] eqn:E0; [|discriminate].
  destruct (Json.scan_frac r0) as [fp r1] eqn:E1.
  destruct (Json.scan_exp r1) as [ex r2] eqn:E2.
  apply scan_int_length in E0. apply scan_frac_length in E1.
  apply scan_exp_length in E2.
  assert (forall w, w = r2 -> (length w < length s)%nat) as Hr by (intros w ->; lia).
  destruct fp as [|c fp]; [destruct ex as [[eneg ed]|]|].
  - intros [= _ <-]. apply Hr. reflexivity.
  - destruct (Json.int_of_digits P neg ip); cbn [rbind]; [discriminate|].
    intros [= _ <-]. apply Hr. reflexivity.
  - intros [= _ <-]. apply Hr. reflexivity.
Qed.

Lemma constant_length (word : string) (v v' : pyval) (s r : pystr) :
  Json.constant word v s = inr (v', r) -> (length r <= length s)%nat.
Proof.
  unfold Json.constant. destruct (strip_prefix (lit word) s) as [r'|] eqn:E;
    [|discriminate].
  intros [= _ <-]. exact (strip_prefix_length _ _ _ E).
Qed.

(** A string literal ends strictly after its start. *)
Lemma scanstring_length (n : nat) :
  forall (s t rest : pystr),
    (length s <= n)%nat -> Json.scanstring s = inr (t, rest) ->
    (length rest < length s)%nat.
Proof.
  induction n as [|n IH]; intros s t rest Hn H.
  - destruct s; [discriminate H | cbn [length] in Hn; lia].
  - destruct s as [|c r]; [discriminate H|].
    cbn [Json.scanstring] in H. cbn [length] in Hn.
    destruct (c =? 34); [injection H as <- <-; cbn [length]; lia|].
    destruct (c =? 92).
    + repeat (case_hyp H; try discriminate H).
      all: match type of H with
           | context [Json.scanstring ?x] =>
               destruct (Json.scanstring x) as [e|[t' rest']] eqn:E;
               cbn [rbind] in H; [discriminate H|];
               injection H as <- <-;
               apply IH in E; cbn [length] in *; lia
           end.
    + destruct (c <=? 31); [discriminate H|].
      destruct (Json.scanstring r) as [e|[t' rest']] eqn:E; cbn [rbind] in H;
        [discriminate H|].
      injection H as <- <-. apply IH in E; cbn [length]; lia.
Qed.

Section Containers.

Variables scan scan' : pystr -> result (pyval * pystr).

(** The scanner of a value does not give back more than it was given. *)
Hypothesis scan_length :
  forall t v r, scan t = inr (v, r) -> (length r <= length t)%nat.

Lemma array_items_length (fuel : nat) :
  forall (s : pystr) (acc : list pyval) (v : pyval) (r : pystr),
    Json.array_items scan fuel s acc = inr (v, r) -> (length r <= length s)%nat.
Proof.
  induction fuel as [|fuel IH]; intros s acc v r H; [discriminate H|].
  cbn [Json.array_items] in H.
  destruct (scan s) as [e|[v1 r1]] eqn:E; cbn [rbind] in H; [discriminate H|].
  apply scan_length in E. pose proof (skip_ws_length r1) as Hw.
  destruct (Json.skip_ws r1) as [|c r2] eqn:Ew; [discriminate H|].
  cbn [length] in Hw.
  repeat (case_hyp H; try discriminate H).
  all: first [ apply IH in H; pose proof (skip_ws_length r2); lia
             | injection H as <- <-; lia ].
Qed.

Lemma object_pairs_length (fuel : nat) :
  forall (s : pystr) (acc : list (pystr * pyval)) (v : pyval) (r : pystr),
    Json.object_pairs scan fuel s acc = inr (v, r) -> (length r <= length s)%nat.
Proof.
  induction fuel as [|fuel IH]; intros s acc v r H; [discriminate H|].
  cbn [Json.object_pairs] in H.
  destruct s as [|c s]; [discriminate H|].
  repeat (case_hyp H; try discriminate H).
  destruct (Json.scanstring s) as [e|[key r1]] eqn:Ek; cbn [rbind] in H;
    [discriminate H|].
  apply (scanstring_length (length s)) in Ek; [|lia].
  pose proof (skip_ws_length r1) as Hw1.
  destruct (Json.skip_ws r1) as [|c1 r2] eqn:Ew1; [discriminate H|].
  cbn [length] in Hw1.
  repeat (case_hyp H; try discriminate H).
  destruct (scan (Json.skip_ws r2)) as [e|[v1 r3]] eqn:Ev; cbn [rbind] in H;
    [discriminate H|].
  apply scan_length in Ev. pose proof (skip_ws_length r2) as Hw2.
  pose proof (skip_ws_length r3) as Hw3.
  destruct (Json.skip_ws r3) as [|c3 r4] eqn:Ew3; [discriminate H|].
  cbn [length] in Hw3 |- *.
  repeat (case_hyp H; try discriminate H).
  all: first [ apply IH in H; pose proof (skip_ws_length r4); lia
             | injection H as <- <-; lia ].
Qed.

Hypothesis scan_empty : scan [] = inl JSONDecodeError.

Lemma array_items_fuel (fuel : nat) :
  forall (s : pystr) (acc : list pyval) (fuel' : nat),
    (length s <= fuel)%nat -> (fuel <= fuel')%nat -> agree scan scan' (length s) ->
    Json.array_items scan fuel s acc = Json.array_items scan' fuel' s acc.
Proof.
  induction fuel as [|fuel IH]; intros s acc fuel' Hs Hf Ha.
  - destruct s; [|cbn [length] in Hs; lia].
    destruct fuel' as [|fuel']; [reflexivity|].
    cbn [Json.array_items]. rewrite <- (Ha [] (Nat.le_refl _)), scan_empty.
    reflexivity.
  - destruct fuel' as [|fuel']; [lia|].
    cbn [Json.array_items]. rewrite <- (Ha s (Nat.le_refl _)).
    destruct (scan s) as [e|[v1 r1]] eqn:E; cbn [rbind]; [reflexivity|].
    apply scan_length in E. pose proof (skip_ws_length r1) as Hw.
    destruct (Json.skip_ws r1) as [|c r2] eqn:Ew; [reflexivity|].
    cbn [length] in Hw.
    repeat (case_goal; try reflexivity).
    pose proof (skip_ws_length r2).
    apply IH; [lia | lia |].
    intros t Ht. apply Ha. lia.
Qed.

Lemma object_pairs_fuel (fuel : nat) :
  forall (s : pystr) (acc : list (pystr * pyval)) (fuel' : nat),
    (length s <= fuel)%nat -> (fuel <= fuel')%nat -> agree scan scan' (length s) ->
    Json.object_pairs scan fuel s acc = Json.object_pairs scan' fuel' s acc.
Proof.
  induction fuel as [|fuel IH]; intros s acc fuel' Hs Hf Ha.
  - destruct s; [|cbn [length] in Hs; lia].
    destruct fuel' as [|fuel']; reflexivity.
  - destruct fuel' as [|fuel']; [lia|].
    cbn [Json.object_pairs].
    destruct s as [|c s]; [reflexivity|].
    repeat (case_goal; try reflexivity).
    cbn [length] in Hs, Ha.
    destruct (Json.scanstring s) as [e|[key r1]] eqn:Ek; cbn [rbind]; [reflexivity|].
    apply (scanstring_length (length s)) in Ek; [|lia].
    pose proof (skip_ws_length r1) as Hw1.
    destruct (Json.skip_ws r1) as [|c1 r2] eqn:Ew1; [reflexivity|].
    cbn [length] in Hw1.
    repeat (case_goal; try reflexivity).
    pose proof (skip_ws_length r2) as Hw2.
    rewrite <- (Ha (Json.skip_ws r2)) by lia.
    destruct (scan (Json.skip_ws r2)) as [e|[v1 r3]] eqn:Ev; cbn [rbind];
      [reflexivity|].
    apply scan_length in Ev.
    pose proof (skip_ws_length r3) as Hw3.
    destruct (Json.skip_ws r3) as [|c3 r4] eqn:Ew3; [reflexivity|].
    cbn [length] in Hw3.
    repeat (case_goal; try reflexivity).
    pose proof (skip_ws_length r4).
    apply IH; [lia | lia |].
    intros t Ht. apply Ha. lia.
Qed.

End Containers.

Lemma scan_once_empty (P : platform) (fuel : nat) :
  Json.scan_once P fuel [] = inl JSONDecodeError.
Proof. destruct fuel; reflexivity. Qed.

Lemma scan_once_length (P : platform) (fuel : nat) :
  forall (s : pystr) (v : pyval) (r : pystr),
    Json.scan_once P fuel s = inr (v, r) -> (length r <= length s)%nat.
Proof.
  induction fuel as [|fuel IH]; intros s v r H; [discriminate H|].
  cbn [Json.scan_once] in H.
  destruct s as [|c s]; [discriminate H|].
  destruct (c =? 34).
  { destruct (Json.scanstring s) as [e|[t rest]] eqn:E; cbn [rbind] in H;
      [discriminate H|].
    injection H as <- <-. apply (scanstring_length (length s)) in E; [|lia].
    cbn [length]. lia. }
  pose proof (skip_ws_length s) as Hw.
  destruct (c =? 123).
  { destruct (Json.skip_ws s) as [|c1 s1] eqn:Ew;
      [apply (object_pairs_length _ IH) in H; cbn [length] in *; lia|].
    repeat (case_hyp H; try discriminate H).
    all: first [ apply (object_pairs_length _ IH) in H; cbn [length] in *; lia
               | injection H as <- <-; cbn [length] in *; lia ]. }
  destruct (c =? 91).
  { destruct (Json.skip_ws s) as [|c1 s1] eqn:Ew;
      [apply (array_items_length _ IH) in H; cbn [length] in *; lia|].
    repeat (case_hyp H; try discriminate H).
    all: first [ apply (array_items_length _ IH) in H; cbn [length] in *; lia
               | injection H as <- <-; cbn [length] in *; lia ]. }
  repeat match type of H with
         | (if ?b then Json.constant _ _ _ else _) = _ =>
             destruct b; [exact (constant_length _ _ _ _ _ H)|]
         end.
  destruct (c =? 45).
  - destruct (strip_prefix (lit "Infinity") s) as [r'|] eqn:E.
    + injection H as <- <-. apply strip_prefix_length in E. cbn [length]. lia.
    + apply scan_number_length in H. cbn [length]. lia.
  - apply scan_number_length in H. lia.
Qed.

Lemma scan_once_step (P : platform) (fuel fuel' : nat) (c : Z) (s : pystr) :
  (length s <= fuel)%nat -> (fuel <= fuel')%nat ->
  agree (Json.scan_once P fuel) (Json.scan_once P fuel') (length s) ->
  Json.scan_once P (S fuel) (c :: s) = Json.scan_once P (S fuel') (c :: s).
Proof.
  intros Hs Hf Ha. cbn [Json.scan_once].
  destruct (c =? 34); [reflexivity|].
  pose proof (skip_ws_length s) as Hw.
  assert (Ha' : agree (Json.scan_once P fuel) (Json.scan_once P fuel')
                  (length (Json.skip_ws s))).
  { intros t Ht. apply Ha. lia. }
  destruct (c =? 123).
  { destruct (Json.skip_ws s) as [|c1 s1] eqn:Ew.
    - apply object_pairs_fuel;
        [apply scan_once_length | cbn [length]; lia | exact Hf | exact Ha'].
    - repeat (case_goal; try reflexivity).
      all: apply object_pairs_fuel;
        [apply scan_once_length | lia | exact Hf | exact Ha']. }
  destruct (c =? 91).
  { destruct (Json.skip_ws s) as [|c1 s1] eqn:Ew.
    - apply array_items_fuel;
        [apply scan_once_length | apply scan_once_empty | cbn [length]; lia
        | exact Hf | exact Ha'].
    - repeat (case_goal; try reflexivity).
      all: apply array_items_fuel;
        [apply scan_once_length | apply scan_once_empty | lia | exact Hf
        | exact Ha']. }
  reflexivity.
Qed.

(** More fuel than the length of the text changes nothing. *)
Lemma scan_once_fuel (P : platform) (n : nat) :
  forall (s : pystr) (m : nat),
    (length s <= n)%nat -> (n <= m)%nat ->
    Json.scan_once P (S n) s = Json.scan_once P (S m) s.
Proof.
  induction n as [|n IH]; intros s m Hs Hm.
  - destruct s; [reflexivity | cbn [length] in Hs; lia].
  - destruct m as [|m]; [lia|].
    destruct s as [|c s]; [reflexivity|].
    cbn [length] in Hs.
    apply scan_once_step; [lia | lia |].
    intros t Ht. apply IH; lia.
Qed.

(** [json.loads] does not depend on the fuel it gives the scanner, as soon
    as that is the length of the text. *)
Lemma loads_fuel (P : platform) (s : pystr) (m : nat) :
  (length s <= m)%nat ->
  Json.scan_once P (S (length s)) (Json.skip_ws s)
  = Json.scan_once P (S m) (Json.skip_ws s).
Proof.
  intros Hm. apply scan_once_fuel; [apply skip_ws_length | exact Hm].
Qed.




(** ** Requests that are refused *)

Lemma failed_content (e : exn) (LOG_FILE : pystr) (st st1 : state) :
  st1 = st \/ st1 = opened LOG_FILE st ->
  (forall name, content (failed e st1) name = content st name) /\
  dirs (failed e st1) = dirs st /\
  stdout (failed e st1) = stdout st ++ [PrintError e] /\
  sent (failed e st1) = sent st ++ error_calls /\
  clock (failed e st1) = clock st.
Proof.
  intros [-> | ->]; (split; [|repeat split]).
  - intros name. reflexivity.
  - intros name. unfold failed, opened, content, set_sent, set_stdout, set_files;
      cbn [files].
    destruct (decide (LOG_FILE = name)) as [->|Hne].
    + rewrite lookup_insert_eq. reflexivity.
    + rewrite lookup_insert_ne by exact Hne. reflexivity.
Qed.

Lemma error_response_of : response_of error_calls = Some error_response.
Proof. reflexivity. Qed.

(** C2 (as amended). When a POST to /log has a Content-Length that reads as
    a number and a body that can be read, and the handling of that body
    raises an exception (the body is not UTF-8 or not JSON, the entry
    cannot be used, the file cannot be opened or written), the handler
    prints the error on the console, answers 500 with no header of its own
    and no body, and ends normally; no file has gained a byte and no
    directory has been made. *)
Theorem post_failure_answered (P : platform) (LOG_FILE : pystr) (r : request)
  (post_data : bytes) (e : exn) (st st1 : state) :
  reads_body P r post_data ->
  try_suite P LOG_FILE post_data st = (inl e, st1) ->
  handle_one_request P LOG_FILE r st = (inr tt, failed e st1) /\
  stdout (failed e st1) = stdout st ++ [PrintError e] /\
  sent (failed e st1) = sent st ++ error_calls /\
  response_of error_calls = Some error_response /\
  (forall name, content (failed e st1) name = content st name) /\
  dirs (failed e st1) = dirs st.
Proof.
  intros Hr Hs.
  assert (Hh := handle_post P LOG_FILE r post_data st Hr).
  unfold try_except in Hh. rewrite Hs, failed_unfold in Hh.
  destruct (failed_content e LOG_FILE st st1 (try_suite_raises P LOG_FILE _ _ _ _ Hs))
    as (Hc & Hd & Ho & Hsent & _).
  split; [exact Hh|]. split; [exact Ho|]. split; [exact Hsent|].
  split; [exact error_response_of|]. split; [exact Hc | exact Hd].
Qed.

Lemma post_failure_answered_witness :
  handle_one_request utc sample_LOG_FILE (post_log "not json") started
  = (inr tt, failed JSONDecodeError started) /\
  content (failed JSONDecodeError started) sample_LOG_FILE = content started sample_LOG_FILE.
Proof.
  destruct (post_failure_answered utc sample_LOG_FILE (post_log "not json")
              (blit "not json") JSONDecodeError started started)
    as (H1 & _ & _ & _ & H5 & _).
  - split; [reflexivity|]. split; [reflexivity|].
    exists 8. split; vm_compute; reflexivity.
  - vm_compute; reflexivity.
  - split; [exact H1 | apply H5].
Defined.

(** C2, as stated, fails: a POST to /log without Content-Length makes
    [int] raise TypeError before the try statement is entered; the
    exception leaves the handler, which prints nothing and sends nothing.
    The same happens with a Content-Length that is not a number
    (ValueError) and with a body that cannot be read (OSError). *)
Lemma post_no_length_escapes :
  command post_no_length = lit "POST" /\ path post_no_length = lit "/log" /\
  headers_get (headers post_no_length) (lit "Content-Length") = None /\
  handle_one_request utc sample_LOG_FILE post_no_length started
  = (inl TypeError, started) /\
  handle_one_request utc sample_LOG_FILE post_bad_length started
  = (inl ValueError, started) /\
  handle_one_request utc sample_LOG_FILE post_broken started
  = (inl OSError, started) /\
  stdout started = [] /\ sent started = [].
Proof.
  repeat split; vm_compute; reflexivity.
Qed.

(** ** Other paths and other methods *)

Section Dispatch.

Variable P : platform.
Variable LOG_FILE : pystr.

Lemma send_calls_404 (st : state) :
  (do_send_response 404 ;;; emit end_headers) st
  = (inr tt, answered not_found_calls st).
Proof.
  unfold bind, do_send_response, log_message, ret, emit, bind, answered, set_sent,
    not_found_calls; cbn [sent stdout clock dirs files].
  rewrite <- app_assoc. reflexivity.
Qed.

Lemma do_OPTIONS_calls (r : request) (st : state) :
  do_OPTIONS r st = (inr tt, answered options_calls st).
Proof.
  unfold do_OPTIONS, bind, do_send_response, log_message, ret, emit, bind,
    answered, set_sent, options_calls; cbn [sent stdout clock dirs files].
  repeat rewrite <- app_assoc. reflexivity.
Qed.

Lemma handle_post_elsewhere (r : request) (st : state) :
  command r = lit "POST" -> path r <> lit "/log" ->
  handle_one_request P LOG_FILE r st = (inr tt, answered not_found_calls st).
Proof.
  intros Hc Hp. unfold handle_one_request, do_POST.
  rewrite Hc, str_eqb_refl, (str_eqb_neq _ _ Hp). apply send_calls_404.
Qed.

Lemma handle_options (r : request) (st : state) :
  command r = lit "OPTIONS" ->
  handle_one_request P LOG_FILE r st = (inr tt, answered options_calls st).
Proof.
  intros Hc. unfold handle_one_request. rewrite Hc.
  change (str_eqb (lit "OPTIONS") (lit "POST")) with false.
  rewrite str_eqb_refl. apply do_OPTIONS_calls.
Qed.

Lemma handle_unknown (r : request) (st : state) :
  command r <> lit "POST" -> command r <> lit "OPTIONS" ->
  handle_one_request P LOG_FILE r st = (inr tt, answered [send_error 501] st).
Proof.
  intros H1 H2. unfold handle_one_request.
  rewrite (str_eqb_neq _ _ H1), (str_eqb_neq _ _ H2). reflexivity.
Qed.

End Dispatch.

Lemma not_found_response_of : response_of not_found_calls = Some not_found_response.
Proof. reflexivity. Qed.

Lemma options_response_of : response_of options_calls = Some options_response.
Proof. reflexivity. Qed.

(** C3 (as amended). A request to a path other than /log is answered
    according to its method: a POST gets 404 with no header of the handler
    and no body; an OPTIONS request gets 200 with the CORS headers, as on
    every path; for any other method the handler has no method of its own,
    and the base class answers 501. In each case nothing but the answer
    changes. *)
Theorem other_path_answer (P : platform) (LOG_FILE : pystr) (r : request)
  (st : state) :
  path r <> lit "/log" ->
  (command r = lit "POST" ->
   handle_one_request P LOG_FILE r st = (inr tt, answered not_found_calls st)) /\
  (command r = lit "OPTIONS" ->
   handle_one_request P LOG_FILE r st = (inr tt, answered options_calls st)) /\
  (command r <> lit "POST" -> command r <> lit "OPTIONS" ->
   handle_one_request P LOG_FILE r st = (inr tt, answered [send_error 501] st)) /\
  response_of not_found_calls = Some not_found_response /\
  response_of options_calls = Some options_response.
Proof.
  intros Hp. split; [|split; [|split; [|split]]].
  - intros Hc. apply handle_post_elsewhere; assumption.
  - apply handle_options.
  - apply handle_unknown.
  - exact not_found_response_of.
  - exact options_response_of.
Qed.

Lemma other_path_answer_witness :
  handle_one_request utc sample_LOG_FILE (request_of "POST" "/other") started
  = (inr tt, answered not_found_calls started).
Proof.
  destruct (other_path_answer utc sample_LOG_FILE (request_of "POST" "/other") started)
    as (H & _).
  - vm_compute. discriminate.
  - apply H. reflexivity.
Defined.

(** C3, as stated, fails: a GET of /other is not answered 404; the
    handler has no [do_GET], and the base class answers 501. *)
Lemma get_other_not_implemented :
  path (request_of "GET" "/other") <> lit "/log" /\
  command (request_of "GET" "/other") <> lit "OPTIONS" /\
  handle_one_request utc sample_LOG_FILE (request_of "GET" "/other") started
  = (inr tt, answered [send_error 501] started) /\
  sent (answered [send_error 501] started) <> not_found_calls.
Proof.
  repeat split; vm_compute; try reflexivity; discriminate.
Qed.

(** C8. Every OPTIONS request, whatever its path, is answered 200 with
    the three headers Access-Control-Allow-Origin: *,
    Access-Control-Allow-Methods: POST, OPTIONS and
    Access-Control-Allow-Headers: Content-Type, these and no other header
    of the handler, and no body; nothing but the answer changes. *)
Theorem options_answer (P : platform) (LOG_FILE : pystr) (r : request)
  (st : state) :
  command r = lit "OPTIONS" ->
  handle_one_request P LOG_FILE r st = (inr tt, answered options_calls st) /\
  response_of options_calls = Some options_response /\
  status options_response = 200 /\
  response_headers options_response =
    [(lit "Access-Control-Allow-Origin", lit "*");
     (lit "Access-Control-Allow-Methods", lit "POST, OPTIONS");
     (lit "Access-Control-Allow-Headers", lit "Content-Type")] /\
  body options_response = [] /\
  files (answered options_calls st) = files st /\
  stdout (answered options_calls st) = stdout st.
Proof.
  intros Hc. split; [apply handle_options; exact Hc|].
  split; [exact options_response_of|]. repeat split.
Qed.

Lemma options_answer_witness :
  handle_one_request utc sample_LOG_FILE (request_of "OPTIONS" "/log") started
  = (inr tt, answered options_calls started) /\
  handle_one_request utc sample_LOG_FILE (request_of "OPTIONS" "/other") started
  = (inr tt, answered options_calls started).
Proof.
  split.
  - apply (options_answer utc sample_LOG_FILE (request_of "OPTIONS" "/log") started).
    reflexivity.
  - apply (options_answer utc sample_LOG_FILE (request_of "OPTIONS" "/other") started).
    reflexivity.
Defined.

(** ** Entries the handler cannot use *)

Lemma refused_entry_line (P : platform) (post_data : bytes) (text : pystr)
  (v : pyval) (e : exn) :
  utf8_decode post_data = inr text -> Json.loads P text = inr v ->
  refused_entry v = Some e ->
  entry_line P post_data = inl e.
Proof.
  intros H1 H2 H3. unfold entry_line, rbind. rewrite H1, H2.
  destruct v as [ | b | n | x | s | items | d]; cbn [refused_entry] in H3;
    try (injection H3 as <-; reflexivity).
  unfold py_get. unfold entry_timestamp in H3.
  destruct (dict_get d (lit "timestamp")) as [ts|]; cbn [default from_option id] in H3.
  - destruct ts; cbn [not_a_number] in H3; try discriminate;
      injection H3 as <-; reflexivity.
  - discriminate.
Qed.

(** C9 (as amended). A POST to /log whose body is valid JSON but not an
    object (AttributeError), or an object whose timestamp is a string,
    null, an array or an object (TypeError), is answered 500 after the
    error has been printed, and no file changes. A timestamp [true] or
    [false] is a number for Python and is not refused on that ground. *)
Theorem post_unusable_entry (P : platform) (LOG_FILE : pystr) (r : request)
  (post_data : bytes) (text : pystr) (v : pyval) (e : exn) (st : state) :
  reads_body P r post_data ->
  utf8_decode post_data = inr text ->
  Json.loads P text = inr v ->
  refused_entry v = Some e ->
  handle_one_request P LOG_FILE r st = (inr tt, failed e st) /\
  sent (failed e st) = sent st ++ error_calls /\
  response_of error_calls = Some error_response /\
  files (failed e st) = files st /\
  (e = AttributeError \/ e = TypeError).
Proof.
  intros Hr H1 H2 H3.
  assert (Hl := refused_entry_line P post_data text v e H1 H2 H3).
  rewrite (handle_post P LOG_FILE r post_data st Hr).
  unfold try_except. rewrite try_suite_unfold, Hl, failed_unfold.
  split; [reflexivity|]. split; [reflexivity|].
  split; [exact error_response_of|]. split; [reflexivity|].
  destruct v as [ | b | n | x | s | items | d]; cbn [refused_entry] in H3;
    try (injection H3 as <-; left; reflexivity).
  destruct (not_a_number _); [injection H3 as <-; right; reflexivity | discriminate].
Qed.

Lemma post_unusable_entry_witness :
  handle_one_request utc sample_LOG_FILE (post_log "{`timestamp`:`soon`}") started
  = (inr tt, failed TypeError started) /\
  handle_one_request utc sample_LOG_FILE (post_log "`INFO`") started
  = (inr tt, failed AttributeError started).
Proof.
  split.
  - apply (post_unusable_entry utc sample_LOG_FILE (post_log "{`timestamp`:`soon`}")
             (blit "{`timestamp`:`soon`}") (lit "{`timestamp`:`soon`}")
             (PDict [(lit "timestamp", PStr (lit "soon"))]) TypeError started).
    + split; [reflexivity|]. split; [reflexivity|].
      exists 20. split; vm_compute; reflexivity.
    + vm_compute; reflexivity.
    + vm_compute; reflexivity.
    + reflexivity.
  - apply (post_unusable_entry utc sample_LOG_FILE (post_log "`INFO`")
             (blit "`INFO`") (lit "`INFO`") (PStr (lit "INFO")) AttributeError started).
    + split; [reflexivity|]. split; [reflexivity|].
      exists 6. split; vm_compute; reflexivity.
    + vm_compute; reflexivity.
    + vm_compute; reflexivity.
    + reflexivity.
Defined.

(** C9, as stated, fails: in [{"timestamp":true}] the timestamp is not a
    JSON number, yet the entry is accepted: Python divides [True] by 1000,
    the handler answers 200 and the log gains a record. *)
Lemma post_true_accepted :
  posts_log utc (post_log true_body) (blit true_body) /\
  Json.loads utc (lit true_body) = inr (PDict [(lit "timestamp", PBool true)]) /\
  handle_one_request utc sample_LOG_FILE (post_log true_body) started
  = (inr tt,
     logged sample_LOG_FILE
       (blit "[1970-01-01 00:00:00.001] [UNKNOWN] {`timestamp`: true}" ++ [Byte.x0a])
       started) /\
  response_of ok_calls = Some ok_response.
Proof.
  repeat split; vm_compute; reflexivity.
Qed.

(** ** What an accepted entry looks like in the log *)

Lemma zero_timestamp (secs : spec_float) (timet us : Z) :
  py_truediv_1000 (PInt 0) = inr secs ->
  Datetime.timeval secs = inr (timet, us) ->
  timet = 0 /\ us = 0.
Proof.
  intros H1. vm_compute in H1. injection H1 as <-.
  intros H2. vm_compute in H2. injection H2 as <- <-. split; reflexivity.
Qed.

Lemma unknown_label (P : platform) (stamp : pystr) (d : list (pystr * pyval)) :
  dict_get d (lit "type") = None ->
  layout_line P stamp d
  = lit "[" ++ stamp ++ lit "] [UNKNOWN] " ++ Encoder.dumps (PDict d) ++ [NL].
Proof.
  intros H. unfold layout_line, entry_type. rewrite H. cbn [default from_option id py_str].
  change (lit "] [UNKNOWN] ") with (lit "] [" ++ lit "UNKNOWN" ++ lit "] ").
  repeat rewrite <- app_assoc. reflexivity.
Qed.

Lemma type_label_entry (P : platform) (post_data : bytes) (text : pystr)
  (d : list (pystr * pyval)) :
  utf8_decode post_data = inr text -> Json.loads P text = inr (PDict d) ->
  type_label P post_data = py_str P (entry_type d).
Proof. intros H1 H2. unfold type_label. rewrite H1, H2. reflexivity. Qed.

Lemma layout_line_ends (P : platform) (stamp : pystr) (d : list (pystr * pyval))
  (record : bytes) :
  utf8_encode (layout_line P stamp d) = inr record ->
  exists b, record = b ++ [Byte.x0a].
Proof.
  unfold layout_line. rewrite !app_assoc. rewrite utf8_encode_app.
  destruct (utf8_encode _) as [e|b]; cbn [rbind]; [discriminate|].
  change (utf8_encode [NL]) with (@inr exn bytes [Byte.x0a]). cbn [rbind].
  intros [= <-]. exists b. reflexivity.
Qed.

(** C4 (as amended). For every accepted event the timestamp (0 when
    absent) is divided by 1000 in floating point, the quotient is read as
    seconds since the epoch, rounded to the nearest microsecond (halves to
    even), and the local wall clock of that instant is shown as
    YYYY-MM-DD HH:MM:SS.mmm, where mmm are the whole milliseconds of the
    microseconds (the last three of six digits are cut, not rounded). A
    timestamp of 0 shows the local time of the epoch, ending in .000. *)
Theorem display_of_accepted (P : platform) (LOG_FILE : pystr) (r : request)
  (post_data : bytes) (st st' : state) :
  accepted P LOG_FILE r post_data st st' ->
  exists text d secs timet us record,
    utf8_decode post_data = inr text /\ Json.loads P text = inr (PDict d) /\
    py_truediv_1000 (entry_timestamp d) = inr secs /\
    Datetime.timeval secs = inr (timet, us) /\ 0 <= us <= 999999 /\
    utf8_encode (layout_line P (render P (timet + utcoffset P timet) (us / 1000)) d)
    = inr record /\
    st' = logged LOG_FILE record st /\
    (entry_timestamp d = PInt 0 ->
     render P (timet + utcoffset P timet) (us / 1000) = render P (utcoffset P 0) 0).
Proof.
  intros H. apply accepted_inv in H.
  destruct H as (text & d & secs & timet & us & record
                 & H1 & H2 & H3 & H4 & H5 & H6 & _ & H8 & _).
  exists text, d, secs, timet, us, record.
  split; [exact H1|]. split; [exact H2|]. split; [exact H3|]. split; [exact H4|].
  split; [exact H5|]. split; [exact H6|]. split; [exact H8|].
  intros H0. rewrite H0 in H3.
  destruct (zero_timestamp secs timet us H3 H4) as [-> ->]. reflexivity.
Qed.

Lemma accepted_hello :
  accepted utc sample_LOG_FILE (post_log hello_body) (blit hello_body) started
    (logged sample_LOG_FILE
       (blit "[2023-11-14 22:13:20.000] [INFO] {`timestamp`: 1700000000000, `type`: `INFO`, `msg`: `hello`}"
        ++ [Byte.x0a])
       started).
Proof.
  split.
  - split; [reflexivity|]. split; [reflexivity|].
    exists 55. split; vm_compute; reflexivity.
  - vm_compute. reflexivity.
Qed.

Lemma display_of_accepted_witness :
  exists timet us record,
    Datetime.timeval (Float.of_ratio false 1700000000000 1000) = inr (timet, us) /\
    utf8_encode (layout_line utc (render utc (timet + 0) (us / 1000))
                   [(lit "timestamp", PInt 1700000000000); (lit "type", PStr (lit "INFO"));
                    (lit "msg", PStr (lit "hello"))])
    = inr record.
Proof.
  destruct (display_of_accepted utc sample_LOG_FILE (post_log hello_body)
              (blit hello_body) started _ accepted_hello)
    as (text & d & secs & timet & us & record & H1 & H2 & H3 & H4 & H5 & H6 & _).
  vm_compute in H1. injection H1 as <-.
  vm_compute in H2. injection H2 as <-.
  vm_compute in H3. injection H3 as <-.
  exists timet, us, record. split; [exact H4 | exact H6].
Defined.

(** C4, as stated, fails. The timestamp 8589934592001 is one millisecond
    after a whole second, but the quotient by 1000 is a double just below
    it: the handler shows .000 where the milliseconds of the timestamp are
    001. And the timestamp 0.9996, less than one millisecond, is shown as
    .001: the instant is rounded to microseconds before the digits are
    cut. *)
Lemma far_timestamp_display :
  Json.loads utc (lit far_body) = inr (PDict [(lit "timestamp", PInt 8589934592001)]) /\
  handle_one_request utc sample_LOG_FILE (post_log far_body) started
  = (inr tt,
     logged sample_LOG_FILE
       (blit "[2242-03-16 12:56:32.000] [UNKNOWN] {`timestamp`: 8589934592001}"
        ++ [Byte.x0a])
       started) /\
  display_as_stated utc 8589934592001 = lit "2242-03-16 12:56:32.001" /\
  handle_one_request utc sample_LOG_FILE (post_log fraction_body) started
  = (inr tt,
     logged sample_LOG_FILE
       (blit "[1970-01-01 00:00:00.001] [UNKNOWN] {`timestamp`: 0.9996}" ++ [Byte.x0a])
       started).
Proof.
  repeat split; vm_compute; reflexivity.
Qed.

(** C5. For every accepted event whose object has no [type] key the line
    carries the label UNKNOWN; for every accepted event whose object has no
    [timestamp] key the timestamp is 0, and the line shows the local time
    of the epoch. *)
Theorem defaults_applied (P : platform) (LOG_FILE : pystr) (r : request)
  (post_data : bytes) (st st' : state) :
  accepted P LOG_FILE r post_data st st' ->
  exists text d stamp record,
    utf8_decode post_data = inr text /\ Json.loads P text = inr (PDict d) /\
    utf8_encode (layout_line P stamp d) = inr record /\
    st' = logged LOG_FILE record st /\
    (dict_get d (lit "type") = None ->
     layout_line P stamp d
     = lit "[" ++ stamp ++ lit "] [UNKNOWN] " ++ Encoder.dumps (PDict d) ++ [NL]) /\
    (dict_get d (lit "timestamp") = None ->
     entry_timestamp d = PInt 0 /\ stamp = render P (utcoffset P 0) 0).
Proof.
  intros H. apply accepted_inv in H.
  destruct H as (text & d & secs & timet & us & record
                 & H1 & H2 & H3 & H4 & H5 & H6 & _ & H8 & _).
  exists text, d, (render P (timet + utcoffset P timet) (us / 1000)), record.
  split; [exact H1|]. split; [exact H2|]. split; [exact H6|]. split; [exact H8|].
  split; [apply unknown_label|].
  intros H0. unfold entry_timestamp in *. rewrite H0 in *.
  cbn [default from_option id] in *. split; [reflexivity|].
  destruct (zero_timestamp secs timet us H3 H4) as [-> ->]. reflexivity.
Qed.

Lemma accepted_empty_object :
  accepted utc sample_LOG_FILE (post_log "{}") (blit "{}") started
    (logged sample_LOG_FILE
       (blit "[1970-01-01 00:00:00.000] [UNKNOWN] {}" ++ [Byte.x0a]) started).
Proof.
  split.
  - split; [reflexivity|]. split; [reflexivity|].
    exists 2. split; vm_compute; reflexivity.
  - vm_compute. reflexivity.
Qed.

Lemma defaults_applied_witness :
  exists stamp record,
    utf8_encode (lit "[" ++ stamp ++ lit "] [UNKNOWN] " ++ lit "{}" ++ [NL]) = inr record /\
    stamp = lit "1970-01-01 00:00:00.000".
Proof.
  destruct (defaults_applied utc sample_LOG_FILE (post_log "{}") (blit "{}") started _
              accepted_empty_object)
    as (text & d & stamp & record & H1 & H2 & H3 & H4 & H5 & H6).
  vm_compute in H1. injection H1 as <-.
  vm_compute in H2. injection H2 as <-.
  exists stamp, record. split.
  - rewrite (H5 eq_refl) in H3. exact H3.
  - destruct (H6 eq_refl) as [_ ->]. vm_compute. reflexivity.
Defined.

Lemma accepted_two_line :
  accepted utc sample_LOG_FILE (post_log two_line_body) (blit two_line_body) started
    (logged sample_LOG_FILE two_line_record started).
Proof.
  split.
  - split; [reflexivity|]. split; [reflexivity|].
    exists 15. split; vm_compute; reflexivity.
  - vm_compute. reflexivity.
Qed.



(** ** One request after the other *)

Lemma accepted_record (P : platform) (LOG_FILE : pystr) (r : request)
  (post_data : bytes) (st st' : state) :
  accepted P LOG_FILE r post_data st st' ->
  st' = logged LOG_FILE (record_of P post_data) st /\
  (exists b, record_of P post_data = b ++ [Byte.x0a]) /\
  newline_bytes (record_of P post_data) = S (newlines (type_label P post_data)).
Proof.
  intros H. apply accepted_inv in H.
  destruct H as (text & d & secs & timet & us & record
                 & H1 & H2 & H3 & H4 & H5 & H6 & H7 & H8 & _).
  rewrite H7, (type_label_entry P post_data text d H1 H2).
  split; [exact H8|]. split.
  - exact (layout_line_ends P _ d record H6).
  - exact (layout_line_newlines P _ d record (render_plain P _ _) H6).
Qed.

(** C7 (as amended). Two accepted POSTs handled one after the other add
    two records to the log file, that of the first body before that of the
    second, and touch no other file. Each record ends with a line feed and
    has one more line feed for each line feed of its type label: the file
    gains two lines exactly when neither label has a line feed. *)
Theorem sequential_posts_ordered (P : platform) (LOG_FILE : pystr)
  (r1 r2 : request) (data1 data2 : bytes) (st st1 st2 : state) :
  accepted P LOG_FILE r1 data1 st st1 ->
  accepted P LOG_FILE r2 data2 st1 st2 ->
  content st2 LOG_FILE
  = content st LOG_FILE ++ record_of P data1 ++ record_of P data2 /\
  (forall name, name <> LOG_FILE -> files st2 !! name = files st !! name) /\
  (exists b1 b2, record_of P data1 = b1 ++ [Byte.x0a]
                 /\ record_of P data2 = b2 ++ [Byte.x0a]) /\
  newline_bytes (record_of P data1 ++ record_of P data2)
  = (2 + newlines (type_label P data1) + newlines (type_label P data2))%nat.
Proof.
  intros Ha1 Ha2.
  destruct (accepted_record P LOG_FILE r1 data1 st st1 Ha1) as (-> & [b1 Hb1] & Hn1).
  destruct (accepted_record P LOG_FILE r2 data2 _ st2 Ha2) as (-> & [b2 Hb2] & Hn2).
  split; [rewrite !logged_content, app_assoc; reflexivity|].
  split; [intros name Hne; rewrite !logged_other by exact Hne; reflexivity|].
  split; [exists b1, b2; split; assumption|].
  rewrite newline_bytes_app, Hn1, Hn2. lia.
Qed.

Lemma accepted_hello_next :
  accepted utc sample_LOG_FILE (post_log hello_body) (blit hello_body)
    (logged sample_LOG_FILE two_line_record started)
    (logged sample_LOG_FILE
       (blit "[2023-11-14 22:13:20.000] [INFO] {`timestamp`: 1700000000000, `type`: `INFO`, `msg`: `hello`}"
        ++ [Byte.x0a])
       (logged sample_LOG_FILE two_line_record started)).
Proof.
  split.
  - split; [reflexivity|]. split; [reflexivity|].
    exists 55. split; vm_compute; reflexivity.
  - vm_compute. reflexivity.
Qed.

Lemma sequential_posts_ordered_witness :
  exists st2,
    content st2 sample_LOG_FILE
    = content started sample_LOG_FILE
      ++ record_of utc (blit two_line_body) ++ record_of utc (blit hello_body).
Proof.
  eexists.
  apply (sequential_posts_ordered utc sample_LOG_FILE
           (post_log two_line_body) (post_log hello_body)
           (blit two_line_body) (blit hello_body) started _ _
           accepted_two_line accepted_hello_next).
Defined.

(** C7, as stated, fails: the two bodies below are accepted one after the
    other on an empty log, and the file gains three lines, two of them for
    the first body. *)
Lemma two_posts_three_lines :
  exists st1 st2,
    accepted utc sample_LOG_FILE (post_log two_line_body) (blit two_line_body)
      started st1 /\
    accepted utc sample_LOG_FILE (post_log hello_body) (blit hello_body) st1 st2 /\
    content started sample_LOG_FILE = [] /\
    newline_bytes (content st2 sample_LOG_FILE) = 3%nat.
Proof.
  eexists. eexists.
  split; [exact accepted_two_line|]. split; [exact accepted_hello_next|].
  split; [reflexivity|]. vm_compute. reflexivity.
Qed.

(** ** The life of the process *)

Section Lifetime.

Variable P : platform.
Variable LOG_FILE : pystr.

Lemma post_data_of_reads (r : request) (post_data : bytes) :
  reads_body P r post_data -> post_data_of P r = post_data.
Proof.
  intros (_ & _ & n & Hl & Hf). unfold post_data_of. rewrite Hl, Hf. reflexivity.
Qed.

Lemma handle_outcome (r : request) (st : state) :
  outcome P LOG_FILE r st (handle_one_request P LOG_FILE r st).
Proof.
  destruct (str_eqb (command r) (lit "POST")) eqn:Hc.
  - apply str_eqb_eq in Hc.
    destruct (str_eqb (path r) (lit "/log")) eqn:Hp.
    + apply str_eqb_eq in Hp.
      destruct (py_int P (headers_get (headers r) (lit "Content-Length")))
        as [e|n] eqn:Hl.
      { unfold handle_one_request, do_POST. rewrite Hc, Hp, !str_eqb_refl.
        unfold bind at 1, eval at 1. rewrite Hl. apply Escaped. }
      destruct (rfile_read (rfile r) n) as [e|post_data] eqn:Hf.
      { unfold handle_one_request, do_POST. rewrite Hc, Hp, !str_eqb_refl.
        unfold bind at 1, eval at 1. rewrite Hl.
        unfold bind at 1, eval at 1. rewrite Hf. apply Escaped. }
      assert (Hr : reads_body P r post_data).
      { split; [exact Hc|]. split; [exact Hp|]. exists n. split; assumption. }
      rewrite (handle_post P LOG_FILE r post_data st Hr). unfold try_except.
      destruct (try_suite P LOG_FILE post_data st) as [[e|[]] st1] eqn:Hs.
      * rewrite failed_unfold. apply Refused.
        exact (try_suite_raises P LOG_FILE _ _ _ _ Hs).
      * apply try_suite_accepted in Hs.
        destruct Hs as (line & record & Hline & Henc & _ & ->).
        rewrite <- (record_of_line P post_data line record Hline Henc).
        apply Accepted; [exact Hc | apply post_data_of_reads; exact Hr].
    + assert (Hp' : path r <> lit "/log").
      { intros E. apply str_eqb_eq in E. congruence. }
      rewrite (handle_post_elsewhere P LOG_FILE r st Hc Hp').
      apply Answered. right. reflexivity.
  - assert (Hc' : command r <> lit "POST").
    { intros E. apply str_eqb_eq in E. congruence. }
    destruct (str_eqb (command r) (lit "OPTIONS")) eqn:Ho.
    + apply str_eqb_eq in Ho. rewrite (handle_options P LOG_FILE r st Ho).
      apply Answered. left. exact Hc'.
    + assert (Ho' : command r <> lit "OPTIONS").
      { intros E. apply str_eqb_eq in E. congruence. }
      rewrite (handle_unknown P LOG_FILE r st Hc' Ho').
      apply Answered. left. exact Hc'.
Qed.

(** What one request does to the files: nothing, or one record more in
    the log file. *)
Lemma handle_effect (r : request) (st : state) (o : result unit) (st' : state) :
  sent st = [] ->
  handle_one_request P LOG_FILE r st = (o, st') ->
  (forall name, name <> LOG_FILE -> files st' !! name = files st !! name) /\
  content st' LOG_FILE
  = content st LOG_FILE
    ++ (if accepted_exchange {| ex_request := r; ex_outcome := o; ex_sent := sent st' |}
        then record_of P (post_data_of P r) else []).
Proof.
  intros Hsent H. assert (Ho := handle_outcome r st). rewrite H in Ho.
  unfold accepted_exchange; cbn [ex_request ex_sent].
  inversion Ho as [e | calls Hcalls | e st1 Hst1 | post_data Hc Hd]; subst.
  - rewrite Hsent, andb_false_r, app_nil_r. split; reflexivity.
  - unfold answered, set_sent; cbn [files sent]. rewrite Hsent. cbn [app].
    split; [reflexivity|].
    destruct Hcalls as [Hc | ->].
    + rewrite (str_eqb_neq _ _ Hc). cbn [andb]. rewrite app_nil_r. reflexivity.
    + unfold not_found_calls. change (404 =? 200) with false.
      rewrite andb_false_r, app_nil_r. reflexivity.
  - destruct (failed_content e LOG_FILE st st1 Hst1) as (Hc & _ & _ & Hs & _).
    rewrite Hs, Hsent. unfold error_calls. cbn [app]. change (500 =? 200) with false.
    rewrite andb_false_r, app_nil_r. split; [|apply Hc].
    intros name Hne. destruct Hst1 as [-> | ->]; [reflexivity|].
    unfold failed, opened, set_sent, set_stdout, set_files; cbn [files].
    apply lookup_insert_ne. congruence.
  - split; [intros name Hne; apply logged_other; exact Hne|].
    rewrite logged_content. unfold logged, set_sent; cbn [sent].
    rewrite Hsent. unfold ok_calls. cbn [app]. rewrite Hc, str_eqb_refl.
    change (200 =? 200) with true. cbn [andb]. reflexivity.
Qed.

Lemma serve_forever_log (events : list event) (st : state)
  (xs : list exchange) (st' : state) :
  serve_forever P LOG_FILE events st = (xs, st') ->
  (forall name, name <> LOG_FILE -> files st' !! name = files st !! name) /\
  content st' LOG_FILE = content st LOG_FILE ++ records_of P xs.
Proof.
  revert st xs st'. induction events as [|[s|r] events IH]; intros st xs st';
    cbn [serve_forever].
  - intros [= <- <-]. rewrite app_nil_r. split; reflexivity.
  - intros H. apply IH in H. exact H.
  - destruct (handle_one_request P LOG_FILE r (set_sent [] st)) as [o st1] eqn:Hh.
    destruct (serve_forever P LOG_FILE events st1) as [xs' st2] eqn:Hs.
    intros [= <- <-].
    apply handle_effect in Hh; [|reflexivity]. destruct Hh as [Hf1 Hc1].
    apply IH in Hs. destruct Hs as [Hf2 Hc2].
    split.
    + intros name Hne. rewrite (Hf2 name Hne). exact (Hf1 name Hne).
    + rewrite Hc2, Hc1. unfold records_of; cbn [flat_map].
      rewrite <- app_assoc. reflexivity.
Qed.

End Lifetime.

Lemma strftime_date (P : platform) (dt : Datetime.datetime) :
  Datetime.strftime P dt (lit "%Y%m%d")
  = Datetime.fmt_year P (Datetime.year dt) ++ zpad 2 (Datetime.month dt)
    ++ zpad 2 (Datetime.day dt).
Proof.
  change (lit "%Y%m%d") with [37; 89; 37; 109; 37; 100].
  cbn [Datetime.strftime]. unfold Datetime.directive. cbn [Z.eqb Pos.eqb].
  rewrite app_nil_r. reflexivity.
Qed.

Lemma module_init_inv (P : platform) (st0 : state) (LOG_FILE : pystr) (st1 : state) :
  module_init P st0 = (inr LOG_FILE, st1) ->
  exists today,
    Datetime.now P (clock st0) = inr today /\
    LOG_FILE = lit "logs/lorafactory_" ++ Datetime.strftime P today (lit "%Y%m%d")
               ++ lit ".log" /\
    st1 = set_dirs ({[ LOG_DIR ]} ∪ dirs st0) st0.
Proof.
  unfold module_init, bind, datetime_now, os_makedirs, ret.
  destruct (Datetime.now P (clock st0)) as [e|today]; [discriminate|].
  intros [= <- <-]. exists today. split; [reflexivity|]. split; reflexivity.
Qed.

(** C6. The name of the log file is computed when the module is loaded,
    from the date of that moment: logs/lorafactory_YYYYMMDD.log. Whatever
    then happens while the server runs, requests of any kind and any amount
    of time passing between them, the records of the accepted events are
    added to that file in the order of arrival, and no other file is
    created or changed. *)
Theorem single_log_file (P : platform) (st0 : state) (LOG_FILE : pystr)
  (st1 : state) (cwd : pystr) (port : Z) (events : list event)
  (xs : list exchange) (st2 : state) :
  module_init P st0 = (inr LOG_FILE, st1) ->
  run_server P LOG_FILE cwd port events st1 = (xs, st2) ->
  (exists today,
     Datetime.now P (clock st0) = inr today /\
     LOG_FILE = lit "logs/lorafactory_"
                ++ (Datetime.fmt_year P (Datetime.year today)
                    ++ zpad 2 (Datetime.month today) ++ zpad 2 (Datetime.day today))
                ++ lit ".log") /\
  content st2 LOG_FILE = content st0 LOG_FILE ++ records_of P xs /\
  (forall name, name <> LOG_FILE -> files st2 !! name = files st0 !! name).
Proof.
  intros Hinit Hrun.
  apply module_init_inv in Hinit. destruct Hinit as (today & Hnow & Hname & ->).
  unfold run_server in Hrun. apply serve_forever_log in Hrun.
  destruct Hrun as [Hf Hc].
  split; [|split].
  - exists today. split; [exact Hnow|]. rewrite <- strftime_date. exact Hname.
  - exact Hc.
  - exact Hf.
Qed.

Lemma single_log_file_witness :
  exists xs st2,
    content st2 sample_LOG_FILE = content boot sample_LOG_FILE ++ records_of utc xs /\
    files st2 !! lit "logs/lorafactory_20231115.log" = None.
Proof.
  exists (fst (run_server utc sample_LOG_FILE (lit "/srv") 3101 two_days started)),
         (snd (run_server utc sample_LOG_FILE (lit "/srv") 3101 two_days started)).
  destruct (single_log_file utc boot sample_LOG_FILE started (lit "/srv") 3101 two_days
              (fst (run_server utc sample_LOG_FILE (lit "/srv") 3101 two_days started))
              (snd (run_server utc sample_LOG_FILE (lit "/srv") 3101 two_days started)))
    as (_ & Hc & Hf).
  - vm_compute. reflexivity.
  - apply surjective_pairing.
  - split; [exact Hc|]. rewrite Hf; [reflexivity|]. vm_compute. discriminate.
Defined.

(** * Further properties of the server *)

(** ** The answers of the handler *)

Section Answers.

Variable P : platform.
Variable LOG_FILE : pystr.

Lemma failed_sent (e : exn) (st st1 : state) :
  st1 = st \/ st1 = opened LOG_FILE st ->
  sent (failed e st1) = sent st ++ error_calls
  /\ stdout (failed e st1) = stdout st ++ [PrintError e].
Proof. intros [-> | ->]; split; reflexivity. Qed.

(** How a request ends, by method and path. *)
Lemma handle_by_method (r : request) (st : state) :
  (command r = lit "POST" /\ path r = lit "/log"
   /\ outcome P LOG_FILE r st (handle_one_request P LOG_FILE r st))
  \/ (command r = lit "POST" /\ path r <> lit "/log"
      /\ handle_one_request P LOG_FILE r st = (inr tt, answered not_found_calls st))
  \/ (command r = lit "OPTIONS"
      /\ handle_one_request P LOG_FILE r st = (inr tt, answered options_calls st))
  \/ (command r <> lit "POST" /\ command r <> lit "OPTIONS"
      /\ handle_one_request P LOG_FILE r st = (inr tt, answered [send_error 501] st)).
Proof.
  destruct (str_eqb (command r) (lit "POST")) eqn:Hc.
  - apply str_eqb_eq in Hc.
    destruct (str_eqb (path r) (lit "/log")) eqn:Hp.
    + apply str_eqb_eq in Hp. left. split; [exact Hc|]. split; [exact Hp|].
      apply handle_outcome.
    + right; left. split; [exact Hc|].
      assert (Hp' : path r <> lit "/log").
      { intros E. apply str_eqb_eq in E. congruence. }
      split; [exact Hp' | apply handle_post_elsewhere; assumption].
  - assert (Hc' : command r <> lit "POST").
    { intros E. apply str_eqb_eq in E. congruence. }
    destruct (str_eqb (command r) (lit "OPTIONS")) eqn:Ho.
    + apply str_eqb_eq in Ho. right; right; left.
      split; [exact Ho | apply handle_options; exact Ho].
    + assert (Ho' : command r <> lit "OPTIONS").
      { intros E. apply str_eqb_eq in E. congruence. }
      right; right; right.
      split; [exact Hc'|]. split; [exact Ho' | apply handle_unknown; assumption].
Qed.

(** What one request does to the connection and to the console. *)
Lemma handle_trace (r : request) (st : state) (o : result unit) (st' : state) :
  handle_one_request P LOG_FILE r st = (o, st') ->
  (exists e, o = inl e /\ st' = st /\ command r = lit "POST" /\ path r = lit "/log")
  \/ (o = inr tt /\ sent st' = sent st ++ error_calls
      /\ (exists e, stdout st' = stdout st ++ [PrintError e])
      /\ command r = lit "POST" /\ path r = lit "/log")
  \/ (o = inr tt /\ stdout st' = stdout st
      /\ exists calls, sent st' = sent st ++ calls
         /\ In calls [ok_calls; not_found_calls; options_calls; [send_error 501]]
         /\ (calls = ok_calls -> command r = lit "POST" /\ path r = lit "/log")).
Proof.
  intros H.
  destruct (handle_by_method r st)
    as [(Hc & Hp & Ho) | [(Hc & Hp & E) | [(Hc & E) | (Hc & Hc' & E)]]].
  - rewrite H in Ho.
    inversion Ho as [e | calls Hcalls | e st1 Hst1 | post_data _ _]; subst.
    + left. exists e. repeat split; assumption.
    + right; right. split; [reflexivity|]. split; [reflexivity|].
      exists calls. split; [reflexivity|].
      destruct Hcalls as [Hn | ->]; [contradiction|].
      split; [right; left; reflexivity|]. intros _. split; assumption.
    + right; left. destruct (failed_sent e st st1 Hst1) as [Hs Hout].
      split; [reflexivity|]. split; [exact Hs|].
      split; [exists e; exact Hout|]. split; assumption.
    + right; right. split; [reflexivity|]. split; [reflexivity|].
      exists ok_calls. split; [reflexivity|].
      split; [left; reflexivity|]. intros _. split; assumption.
  - rewrite H in E. injection E as -> ->. right; right.
    split; [reflexivity|]. split; [reflexivity|].
    exists not_found_calls. split; [reflexivity|].
    split; [right; left; reflexivity|]. intros E. discriminate E.
  - rewrite H in E. injection E as -> ->. right; right.
    split; [reflexivity|]. split; [reflexivity|].
    exists options_calls. split; [reflexivity|].
    split; [right; right; left; reflexivity|]. intros E. discriminate E.
  - rewrite H in E. injection E as -> ->. right; right.
    split; [reflexivity|]. split; [reflexivity|].
    exists [send_error 501]. split; [reflexivity|].
    split; [right; right; right; left; reflexivity|]. intros E. discriminate E.
Qed.

End Answers.



(** X2. The handler writes on the console only when it answers 500, and
    then one line, the error: requests as such are not reported
    ([log_message] does nothing), whether accepted, not found, OPTIONS or
    of an unknown method. *)
Theorem console_only_errors (P : platform) (LOG_FILE : pystr) (r : request)
  (st : state) (o : result unit) (st' : state) :
  handle_one_request P LOG_FILE r st = (o, st') ->
  (stdout st' = stdout st
   /\ forall calls, sent st' = sent st ++ calls -> calls <> error_calls)
  \/ (sent st' = sent st ++ error_calls
      /\ exists e, stdout st' = stdout st ++ [PrintError e]).
Proof.
  intros H. apply handle_trace in H.
  destruct H as [(e & _ & -> & _)
                | [(_ & Hs & He & _) | (_ & Hout & calls & Hs & Hin & _)]].
  - left. split; [reflexivity|]. intros calls Hc.
    rewrite <- (app_nil_r (sent st)) in Hc at 1. apply app_inv_head in Hc.
    subst calls. discriminate.
  - right. split; assumption.
  - left. split; [exact Hout|]. intros calls' Hc. rewrite Hs in Hc.
    apply app_inv_head in Hc. subst calls'.
    destruct Hin as [<- | [<- | [<- | [<- | []]]]]; discriminate.
Qed.

Lemma console_only_errors_witness :
  stdout (snd (handle_one_request utc sample_LOG_FILE (post_log hello_body) started))
  = stdout started.
Proof.
  destruct (console_only_errors utc sample_LOG_FILE (post_log hello_body) started
              (fst (handle_one_request utc sample_LOG_FILE (post_log hello_body) started))
              (snd (handle_one_request utc sample_LOG_FILE (post_log hello_body) started)))
    as [(H & _) | (H & _)].
  - apply surjective_pairing.
  - exact H.
  - vm_compute in H. discriminate H.
Defined.


(** ** A whole run of the server *)

Section Run.

Variable P : platform.
Variable LOG_FILE : pystr.

Lemma handle_dirs (r : request) (st : state) (o : result unit) (st' : state) :
  handle_one_request P LOG_FILE r st = (o, st') -> dirs st' = dirs st.
Proof.
  intros H.
  destruct (handle_by_method P LOG_FILE r st)
    as [(_ & _ & Ho) | [(_ & _ & E) | [(_ & E) | (_ & _ & E)]]].
  - rewrite H in Ho.
    inversion Ho as [e | calls _ | e st1 Hst1 | post_data _ _]; subst;
      try reflexivity.
    apply (failed_content e LOG_FILE st st1 Hst1).
  - rewrite H in E. injection E as _ ->. reflexivity.
  - rewrite H in E. injection E as _ ->. reflexivity.
  - rewrite H in E. injection E as _ ->. reflexivity.
Qed.

(** Every exchange of a run is the handling of its request on a fresh
    connection, in a state with the directories of the start. *)
Lemma serve_forever_each (events : list event) (st : state)
  (xs : list exchange) (st' : state) :
  serve_forever P LOG_FILE events st = (xs, st') ->
  dirs st' = dirs st /\
  map ex_request xs = requests_of events /\
  Forall (fun x => exists sa sb,
            dirs sa = dirs st /\ sent sa = [] /\
            handle_one_request P LOG_FILE (ex_request x) sa = (ex_outcome x, sb) /\
            ex_sent x = sent sb) xs.
Proof.
  revert st xs st'. induction events as [|[s|r] events IH]; intros st xs st';
    cbn [serve_forever].
  - intros [= <- <-]. repeat split. constructor.
  - intros H. apply IH in H. exact H.
  - destruct (handle_one_request P LOG_FILE r (set_sent [] st)) as [o st1] eqn:Hh.
    destruct (serve_forever P LOG_FILE events st1) as [xs' st2] eqn:Hs.
    intros [= <- <-].
    pose proof (handle_dirs _ _ _ _ Hh) as Hd. cbn [set_sent dirs] in Hd.
    apply IH in Hs. destruct Hs as (Hd2 & Hreq & Hall).
    split; [congruence|]. split.
    + unfold requests_of in *. cbn [map flat_map app ex_request]. rewrite Hreq.
      reflexivity.
    + constructor.
      * exists (set_sent [] st), st1. cbn [ex_request ex_outcome ex_sent].
        repeat split. exact Hh.
      * eapply List.Forall_impl; [|exact Hall].
        intros x (sa & sb & H1 & H2 & H3 & H4). exists sa, sb.
        repeat split; try assumption. congruence.
Qed.


End Run.



(** ** The log directory *)

Lemma mem_app (c : Z) (a b : pystr) : mem c (a ++ b) = mem c a || mem c b.
Proof. apply existsb_app. Qed.

Lemma mem_digits (s : pystr) : Forall digit s -> mem SLASH s = false.
Proof.
  induction 1 as [|c s Hc Hs IH]; [reflexivity|].
  cbn [mem existsb]. fold (mem SLASH s). rewrite IH, orb_false_r.
  apply Z.eqb_neq. unfold SLASH, digit in *. lia.
Qed.

Lemma mem_int_str (n : Z) : mem SLASH (int_str n) = false.
Proof.
  destruct n; cbn [int_str]; try apply mem_digits, digits_of_digit.
  cbn [mem existsb]. fold (mem SLASH (digits_of (N.pos p))).
  rewrite (mem_digits _ (digits_of_digit _)). reflexivity.
Qed.

Lemma mem_fmt_year (P : platform) (y : Z) : mem SLASH (Datetime.fmt_year P y) = false.
Proof.
  unfold Datetime.fmt_year. destruct (year_padded P).
  - apply mem_digits, zpad_digit.
  - apply mem_int_str.
Qed.

(** The directory of a log file named after a date. *)
Lemma dirname_log_file (P : platform) (today : Datetime.datetime) :
  dirname (lit "logs/lorafactory_" ++ Datetime.strftime P today (lit "%Y%m%d")
           ++ lit ".log") = LOG_DIR.
Proof.
  rewrite strftime_date.
  assert (Hm : mem SLASH (Datetime.fmt_year P (Datetime.year today)
                          ++ zpad 2 (Datetime.month today)
                          ++ zpad 2 (Datetime.day today)) = false).
  { rewrite !mem_app, mem_fmt_year, !(mem_digits _ (zpad_digit _ _)). reflexivity. }
  set (date := Datetime.fmt_year P (Datetime.year today) ++ _) in *.
  assert (Hrest : mem SLASH (lit "lorafactory_" ++ date ++ lit ".log") = false).
  { rewrite !mem_app, Hm. reflexivity. }
  assert (Hall : forall pre, mem SLASH (pre ++ SLASH :: lit "lorafactory_" ++ date ++ lit ".log") = true).
  { intros pre. rewrite mem_app. cbn [mem existsb]. unfold SLASH at 2 4.
    change (47 =? 47) with true. cbn [orb]. apply orb_true_r. }
  change (lit "logs/lorafactory_" ++ date ++ lit ".log")
    with (108 :: 111 :: 103 :: 115 :: SLASH :: lit "lorafactory_" ++ date ++ lit ".log").
  pose proof (Hall [111; 103; 115]) as H1. pose proof (Hall [103; 115]) as H2.
  pose proof (Hall [115]) as H3. pose proof (Hall []) as H4.
  cbn [app] in H1, H2, H3, H4.
  cbn [dirname]. rewrite H1, H2, H3, H4, Hrest. reflexivity.
Qed.

(** X4. Loading the module makes the directory of the log file, which is
    [logs]; no request removes it. So during a run every POST to /log whose
    body gives a line that can be encoded is accepted: none is refused for
    want of the directory. *)
Theorem log_dir_kept (P : platform) (st0 : state) (LOG_FILE : pystr)
  (st1 : state) (events : list event) (xs : list exchange) (st2 : state) :
  module_init P st0 = (inr LOG_FILE, st1) ->
  serve_forever P LOG_FILE events st1 = (xs, st2) ->
  dirname LOG_FILE = LOG_DIR /\
  dirs st2 = {[ LOG_DIR ]} ∪ dirs st0 /\
  log_dir_exists LOG_FILE st2 /\
  Forall (fun x =>
            forall post_data line record,
              reads_body P (ex_request x) post_data ->
              entry_line P post_data = inr line ->
              utf8_encode line = inr record ->
              ex_outcome x = inr tt /\ ex_sent x = ok_calls) xs.
Proof.
  intros Hinit Hrun.
  apply module_init_inv in Hinit. destruct Hinit as (today & _ & -> & ->).
  pose proof (dirname_log_file P today) as Hdir.
  apply serve_forever_each in Hrun. destruct Hrun as (Hd & _ & Hall).
  cbn [set_dirs dirs] in Hd, Hall.
  assert (Hin : LOG_DIR ∈ ({[ LOG_DIR ]} ∪ dirs st0 : gset (list Z))).
  { apply elem_of_union_l, elem_of_singleton. reflexivity. }
  split; [exact Hdir|]. split; [exact Hd|]. split.
  - right. rewrite Hdir, Hd. exact Hin.
  - eapply List.Forall_impl; [|exact Hall].
    intros x (sa & sb & Hda & Hsa & Hh & Hsent) post_data line record Hr Hl He.
    rewrite (handle_post P _ _ post_data sa Hr) in Hh.
    unfold try_except in Hh. rewrite try_suite_unfold, Hl in Hh.
    rewrite bool_decide_eq_true_2 in Hh.
    + rewrite He in Hh. injection Hh as <- <-. split; [reflexivity|].
      rewrite Hsent. unfold logged, set_sent; cbn [sent]. rewrite Hsa. reflexivity.
    + right. rewrite Hdir, Hda. exact Hin.
Qed.

Lemma log_dir_kept_witness :
  dirname sample_LOG_FILE = LOG_DIR /\
  log_dir_exists sample_LOG_FILE
    (snd (serve_forever utc sample_LOG_FILE two_days started)).
Proof.
  destruct (log_dir_kept utc boot sample_LOG_FILE started two_days
              (fst (serve_forever utc sample_LOG_FILE two_days started))
              (snd (serve_forever utc sample_LOG_FILE two_days started)))
    as (H1 & _ & H3 & _).
  - vm_compute. reflexivity.
  - apply surjective_pairing.
  - split; assumption.
Defined.


(** ** What the handler reads of a request *)

Lemma headers_get_same (hs hs' : list (pystr * pystr)) (name : pystr) :
  same_headers hs hs' -> headers_get hs name = headers_get hs' name.
Proof.
  induction 1 as [|[k v] [k' v'] hs hs' [Hk Hv] _ IH]; [reflexivity|].
  cbn [fst snd] in Hk, Hv. subst v'.
  cbn [headers_get]. rewrite Hk, IH. reflexivity.
Qed.

(** X5. The handler looks at the headers of a request through
    [Content-Length] only, and finds it whatever the case of its letters:
    two requests that differ in the case of letters of header names are
    handled alike, and so are a request and the same request without its
    other headers. *)
Theorem header_names_case (P : platform) (LOG_FILE : pystr) (r : request)
  (hs hs' : list (pystr * pystr)) (st : state) :
  same_headers hs hs' ->
  handle_one_request P LOG_FILE (set_headers hs r) st
  = handle_one_request P LOG_FILE (set_headers hs' r) st
  /\ (forall v, headers_get hs (lit "Content-Length") = Some v ->
      handle_one_request P LOG_FILE (set_headers hs r) st
      = handle_one_request P LOG_FILE
          (set_headers [(lit "content-length", v)] r) st).
Proof.
  intros H. split.
  - unfold handle_one_request, do_POST. cbn [set_headers command path headers rfile].
    rewrite (headers_get_same hs hs' _ H). reflexivity.
  - intros v Hv. unfold handle_one_request, do_POST.
    cbn [set_headers command path headers rfile]. rewrite Hv. reflexivity.
Qed.

Lemma header_names_case_witness :
  handle_one_request utc sample_LOG_FILE
    (set_headers [(lit "Content-Length", lit "55")] (post_log hello_body)) started
  = handle_one_request utc sample_LOG_FILE
      (set_headers [(lit "CONTENT-LENGTH", lit "55")] (post_log hello_body)) started.
Proof.
  destruct (header_names_case utc sample_LOG_FILE (post_log hello_body)
              [(lit "Content-Length", lit "55")] [(lit "CONTENT-LENGTH", lit "55")]
              started) as [H _].
  - constructor; [split; reflexivity | constructor].
  - exact H.
Defined.



(** ** The JSON text of a line *)

Lemma utf8_encode_plain (s : pystr) :
  Forall plain s -> utf8_encode s = inr (map byte_of s).
Proof.
  induction 1 as [|c s Hc Hs IH]; [reflexivity|].
  cbn [utf8_encode map]. unfold plain in Hc.
  assert (H1 : is_surrogate c = false).
  { unfold is_surrogate, between. apply andb_false_iff. left. apply Z.leb_gt. lia. }
  rewrite H1, IH. cbn [rbind]. unfold utf8_char.
  assert (H2 : (c <? 128) = true) by (apply Z.ltb_lt; lia).
  rewrite H2. reflexivity.
Qed.

(** X7. The text [json.dumps] makes of any value, with its defaults, is
    printable ASCII: it has no line feed and no other control character,
    whatever the strings of the value hold, and it goes into the file one
    byte for each character. *)
Theorem dumps_one_line (v : pyval) :
  Forall plain (Encoder.dumps v) /\
  newlines (Encoder.dumps v) = 0%nat /\
  utf8_encode (Encoder.dumps v) = inr (map byte_of (Encoder.dumps v)) /\
  newline_bytes (map byte_of (Encoder.dumps v)) = 0%nat.
Proof.
  pose proof (dumps_plain v) as H.
  pose proof (utf8_encode_plain _ H) as He.
  split; [exact H|]. split; [exact (plain_newlines _ H)|]. split; [exact He|].
  rewrite (utf8_encode_newlines _ _ He). exact (plain_newlines _ H).
Qed.


(** ** [int] on a decimal numeral *)

Lemma digits_value_acc (d : Decimal.uint) (acc : positive) :
  fold_left (fun a c => 10 * a + (c - 48)) (uint_chars d) (Zpos acc)
  = Zpos (Pos.of_uint_acc d acc).
Proof.
  revert acc; induction d; intros acc; cbn [uint_chars fold_left Pos.of_uint_acc];
    [reflexivity | ..];
    match goal with
    | |- fold_left _ _ ?x = Zpos (Pos.of_uint_acc _ ?p) =>
        replace x with (Zpos p) by lia
    end; apply IHd.
Qed.

Lemma digits_value_uint (d : Decimal.uint) :
  digits_value (uint_chars d) = Z.of_N (N.of_uint d).
Proof.
  unfold digits_value, N.of_uint.
  induction d; cbn [uint_chars fold_left Pos.of_uint]; [reflexivity | exact IHd | ..];
    match goal with
    | |- fold_left _ _ ?x = _ => change x with (Zpos (Pos.of_succ_nat (Z.to_nat (x - 1))))
    end; cbn [Z.to_nat Z.sub Z.add Z.mul Z.opp Z.pos_sub Pos.pred_double Pos.to_nat
              Pos.iter_op Init.Nat.add Pos.of_succ_nat Pos.succ];
    rewrite digits_value_acc; reflexivity.
Qed.

Lemma digits_value_of (n : N) : digits_value (digits_of n) = Z.of_N n.
Proof.
  unfold digits_of. rewrite digits_value_uint, DecimalN.Unsigned.of_to. reflexivity.
Qed.

Lemma digit_not_space (c : Z) : digit c -> IntOfStr.is_space c = false.
Proof.
  unfold digit, IntOfStr.is_space, between. intros H.
  assert (H1 : (9 <=? c) && (c <=? 13) = false).
  { apply andb_false_iff. right. apply Z.leb_gt. lia. }
  assert (H2 : (c =? 32) = false) by (apply Z.eqb_neq; lia).
  assert (H3 : (c =? 133) = false) by (apply Z.eqb_neq; lia).
  assert (H4 : (c =? 160) = false) by (apply Z.eqb_neq; lia).
  rewrite H1, H2, H3, H4. reflexivity.
Qed.

Lemma lstrip_id (s : pystr) :
  Forall (fun c => IntOfStr.is_space c = false) s -> IntOfStr.lstrip s = s.
Proof.
  intros [|c r Hc _]; [reflexivity|]. cbn [IntOfStr.lstrip]. rewrite Hc. reflexivity.
Qed.

Lemma strip_id (s : pystr) :
  Forall (fun c => IntOfStr.is_space c = false) s -> IntOfStr.strip s = s.
Proof.
  intros H. unfold IntOfStr.strip.
  rewrite (lstrip_id s H), (lstrip_id (rev s)) by (apply Forall_rev; exact H).
  apply rev_involutive.
Qed.

Lemma digit_groups_digits (ds : pystr) :
  Forall digit ds -> IntOfStr.digit_groups ds true = Some ds.
Proof.
  induction 1 as [|c ds Hc _ IH]; [reflexivity|].
  cbn [IntOfStr.digit_groups].
  assert (Hd : is_digit c = true).
  { unfold is_digit, digit in *. apply andb_true_iff. split; apply Z.leb_le; lia. }
  rewrite Hd, IH. reflexivity.
Qed.

Lemma digit_groups_start (c : Z) (ds : pystr) :
  digit c -> Forall digit ds -> IntOfStr.digit_groups (c :: ds) false = Some (c :: ds).
Proof.
  intros Hc Hds. cbn [IntOfStr.digit_groups].
  assert (Hd : is_digit c = true).
  { unfold is_digit, digit in *. apply andb_true_iff. split; apply Z.leb_le; lia. }
  rewrite Hd, (digit_groups_digits ds Hds). reflexivity.
Qed.

Lemma digits_of_cons (n : N) :
  exists c r, digits_of n = c :: r /\ digit c /\ Forall digit r.
Proof.
  pose proof (digits_of_digit n) as H. unfold digits_of in *.
  assert (Hn : N.to_uint n <> Decimal.Nil).
  { destruct n; [discriminate | apply DecimalPos.Unsigned.to_uint_nonnil]. }
  destruct (N.to_uint n); [contradiction | ..]; cbn [uint_chars] in *;
    inversion H; subst; eexists _, _; (split; [reflexivity | split; assumption]).
Qed.

(** The sign of a numeral that starts with a digit. *)
Lemma parse_unsigned (P : platform) (c : Z) (r : pystr) :
  digit c -> Forall digit r -> (length (c :: r) <= 640)%nat ->
  IntOfStr.parse P (c :: r) = inr (digits_value (c :: r)).
Proof.
  intros Hc Hr Hlen. unfold IntOfStr.parse.
  rewrite strip_id.
  2:{ constructor; [apply digit_not_space; exact Hc|].
      eapply List.Forall_impl; [|exact Hr]. apply digit_not_space. }
  assert (Hsign : match c :: r with
                  | 45 :: r0 => (true, r0)
                  | 43 :: r0 => (false, r0)
                  | _ => (false, c :: r)
                  end = (false, c :: r)).
  { unfold digit in Hc.
    assert (E : c = 48 \/ c = 49 \/ c = 50 \/ c = 51 \/ c = 52 \/ c = 53 \/ c = 54
                \/ c = 55 \/ c = 56 \/ c = 57) by lia.
    repeat (destruct E as [-> | E]; [reflexivity|]). subst c. reflexivity. }
  rewrite Hsign, (digit_groups_start c r Hc Hr).
  assert (Hl : (640 <? Z.of_nat (length (c :: r))) = false) by (apply Z.ltb_ge; lia).
  rewrite Hl. reflexivity.
Qed.

Lemma parse_negative (P : platform) (c : Z) (r : pystr) :
  digit c -> Forall digit r -> (length (c :: r) <= 640)%nat ->
  IntOfStr.parse P (45 :: c :: r) = inr (- digits_value (c :: r)).
Proof.
  intros Hc Hr Hlen. unfold IntOfStr.parse.
  rewrite strip_id.
  2:{ constructor; [reflexivity|].
      constructor; [apply digit_not_space; exact Hc|].
      eapply List.Forall_impl; [|exact Hr]. apply digit_not_space. }
  cbv beta iota. rewrite (digit_groups_start c r Hc Hr).
  assert (Hl : (640 <? Z.of_nat (length (c :: r))) = false) by (apply Z.ltb_ge; lia).
  rewrite Hl. reflexivity.
Qed.

Lemma py_int_str (P : platform) (n : Z) :
  (length (digits_of (Z.abs_N n)) <= 640)%nat ->
  py_int P (Some (int_str n)) = inr n.
Proof.
  intros Hlen. cbn [py_int].
  destruct n as [|p|p]; cbn [int_str Z.abs_N Z.abs Z.to_N] in *.
  - reflexivity.
  - destruct (digits_of_cons (N.pos p)) as (c & r & E & Hc & Hr).
    rewrite E in *. rewrite (parse_unsigned P c r Hc Hr Hlen), <- E, digits_value_of.
    reflexivity.
  - destruct (digits_of_cons (N.pos p)) as (c & r & E & Hc & Hr).
    rewrite E in *. rewrite (parse_negative P c r Hc Hr Hlen), <- E, digits_value_of.
    reflexivity.
Qed.

(** X8. [int] reads back the decimal numeral of any integer of at most
    640 digits, negative ones included. So a POST to /log whose
    Content-Length is the decimal numeral of the size of its body is a
    request with the right Content-Length, and the handler works on the
    whole body. *)
Theorem content_length_numeral (P : platform) (n : Z) :
  (length (digits_of (Z.abs_N n)) <= 640)%nat ->
  py_int P (Some (int_str n)) = inr n /\
  forall (r : request) (post_data : bytes),
    n = Z.of_nat (length post_data) ->
    command r = lit "POST" -> path r = lit "/log" ->
    headers_get (headers r) (lit "Content-Length") = Some (int_str n) ->
    rfile r = Stream post_data ->
    posts_log P r post_data /\ reads_body P r post_data.
Proof.
  intros Hlen. pose proof (py_int_str P n Hlen) as Hint.
  split; [exact Hint|].
  intros r post_data -> Hc Hp Hh Hf.
  assert (Hpost : posts_log P r post_data).
  { split; [exact Hc|]. split; [exact Hp|]. split; [|exact Hf].
    rewrite Hh. exact Hint. }
  split; [exact Hpost | apply posts_log_reads; exact Hpost].
Qed.

Lemma content_length_numeral_witness :
  py_int utc (Some (int_str 55)) = inr 55.
Proof.
  destruct (content_length_numeral utc 55) as [H _].
  - vm_compute. lia.
  - exact H.
Defined.


(** ** UTF-8: what is decoded can be encoded, and back *)

(** Boolean tests on integers, as propositions. *)
Ltac zbool :=
  unfold is_surrogate, is_cont, between in *;
  repeat match goal with
         | H : (_ && _) = true |- _ => apply andb_true_iff in H; destruct H
         | H : (_ || _) = false |- _ => apply orb_false_iff in H; destruct H
         | H : (_ <=? _) = true |- _ => apply Z.leb_le in H
         | H : (_ <=? _) = false |- _ => apply Z.leb_gt in H
         | H : (_ <? _) = true |- _ => apply Z.ltb_lt in H
         | H : (_ <? _) = false |- _ => apply Z.ltb_ge in H
         | H : (_ =? _) = true |- _ => apply Z.eqb_eq in H
         | H : (_ =? _) = false |- _ => apply Z.eqb_neq in H
         | H : (_ && _) = false |- _ => apply andb_false_iff in H; destruct H
         | H : (_ || _) = true |- _ => apply orb_true_iff in H; destruct H
         end.

Lemma code_range (b : Byte.byte) : 0 <= code b <= 255.
Proof.
  unfold code. pose proof (Byte.to_N_bounded b). lia.
Qed.

Lemma byte_of_code (b : Byte.byte) : byte_of (code b) = b.
Proof. unfold byte_of, code. rewrite N2Z.id, Byte.of_to_N. reflexivity. Qed.

Lemma code_byte_of (z : Z) : 0 <= z <= 255 -> code (byte_of z) = z.
Proof.
  intros H. unfold byte_of, code.
  destruct (Byte.of_N (Z.to_N z)) as [b|] eqn:E.
  - apply Byte.to_of_N in E. rewrite E. lia.
  - apply Byte.of_N_None_iff in E. lia.
Qed.

Lemma not_surrogate (c : Z) : c < 55296 \/ 57343 < c -> is_surrogate c = false.
Proof.
  intros H. unfold is_surrogate, between. apply andb_false_iff.
  destruct H; [left | right]; apply Z.leb_gt; lia.
Qed.

Lemma ltb_false (a b : Z) : b <= a -> (a <? b) = false.
Proof. intros. apply Z.ltb_ge. assumption. Qed.

Lemma ltb_true (a b : Z) : a < b -> (a <? b) = true.
Proof. intros. apply Z.ltb_lt. assumption. Qed.

(** The code point of a sequence of two, three or four bytes, and the
    bytes of that code point. *)
Lemma utf8_char_2 (c0 c1 : Z) :
  194 <= c0 <= 223 -> 128 <= c1 <= 191 ->
  is_surrogate ((c0 - 192) * 64 + (c1 - 128)) = false /\
  utf8_char ((c0 - 192) * 64 + (c1 - 128)) = [byte_of c0; byte_of c1].
Proof.
  intros H0 H1. set (c := (c0 - 192) * 64 + (c1 - 128)).
  assert (Hc : 128 <= c < 2048) by (unfold c; lia).
  split; [apply not_surrogate; lia|].
  unfold utf8_char. rewrite (ltb_false c 128), (ltb_true c 2048) by lia.
  assert (E1 : c / 64 = c0 - 192) by (unfold c; symmetry; apply Z.div_unique with (c1 - 128); lia).
  assert (E2 : c mod 64 = c1 - 128) by (unfold c; symmetry; apply Z.mod_unique with (c0 - 192); lia).
  rewrite E1, E2. repeat f_equal; lia.
Qed.

Lemma utf8_char_3 (c0 c1 c2 : Z) :
  224 <= c0 <= 239 -> 128 <= c1 <= 191 -> 128 <= c2 <= 191 ->
  (c0 = 224 -> 160 <= c1) -> (c0 = 237 -> c1 <= 159) ->
  is_surrogate ((c0 - 224) * 4096 + (c1 - 128) * 64 + (c2 - 128)) = false /\
  utf8_char ((c0 - 224) * 4096 + (c1 - 128) * 64 + (c2 - 128))
  = [byte_of c0; byte_of c1; byte_of c2].
Proof.
  intros H0 H1 H2 Hlow Hsur.
  set (c := (c0 - 224) * 4096 + (c1 - 128) * 64 + (c2 - 128)).
  assert (Hc : 2048 <= c < 65536) by (unfold c; lia).
  split; [apply not_surrogate; unfold c; lia|].
  unfold utf8_char.
  rewrite (ltb_false c 128), (ltb_false c 2048), (ltb_true c 65536) by lia.
  assert (E1 : c / 4096 = c0 - 224).
  { unfold c; symmetry; apply Z.div_unique with ((c1 - 128) * 64 + (c2 - 128)); lia. }
  assert (E2 : c / 64 = (c0 - 224) * 64 + (c1 - 128)).
  { unfold c; symmetry; apply Z.div_unique with (c2 - 128); lia. }
  assert (E3 : ((c0 - 224) * 64 + (c1 - 128)) mod 64 = c1 - 128).
  { symmetry; apply Z.mod_unique with (c0 - 224); lia. }
  assert (E4 : c mod 64 = c2 - 128).
  { unfold c; symmetry; apply Z.mod_unique with ((c0 - 224) * 64 + (c1 - 128)); lia. }
  rewrite E1, E2, E3, E4. repeat f_equal; lia.
Qed.

Lemma utf8_char_4 (c0 c1 c2 c3 : Z) :
  240 <= c0 <= 244 -> 128 <= c1 <= 191 -> 128 <= c2 <= 191 -> 128 <= c3 <= 191 ->
  (c0 = 240 -> 144 <= c1) -> (c0 = 244 -> c1 <= 143) ->
  is_surrogate ((c0 - 240) * 262144 + (c1 - 128) * 4096 + (c2 - 128) * 64 + (c3 - 128))
  = false /\
  utf8_char ((c0 - 240) * 262144 + (c1 - 128) * 4096 + (c2 - 128) * 64 + (c3 - 128))
  = [byte_of c0; byte_of c1; byte_of c2; byte_of c3].
Proof.
  intros H0 H1 H2 H3 Hlow Hhigh.
  set (c := (c0 - 240) * 262144 + (c1 - 128) * 4096 + (c2 - 128) * 64 + (c3 - 128)).
  assert (Hc : 65536 <= c <= 1114111) by (unfold c; lia).
  split; [apply not_surrogate; lia|].
  unfold utf8_char.
  rewrite (ltb_false c 128), (ltb_false c 2048), (ltb_false c 65536) by lia.
  assert (E1 : c / 262144 = c0 - 240).
  { unfold c; symmetry;
      apply Z.div_unique with ((c1 - 128) * 4096 + (c2 - 128) * 64 + (c3 - 128)); lia. }
  assert (E2 : c / 4096 = (c0 - 240) * 64 + (c1 - 128)).
  { unfold c; symmetry; apply Z.div_unique with ((c2 - 128) * 64 + (c3 - 128)); lia. }
  assert (E3 : ((c0 - 240) * 64 + (c1 - 128)) mod 64 = c1 - 128).
  { symmetry; apply Z.mod_unique with (c0 - 240); lia. }
  assert (E4 : c / 64 = ((c0 - 240) * 64 + (c1 - 128)) * 64 + (c2 - 128)).
  { unfold c; symmetry; apply Z.div_unique with (c3 - 128); lia. }
  assert (E5 : (((c0 - 240) * 64 + (c1 - 128)) * 64 + (c2 - 128)) mod 64 = c2 - 128).
  { symmetry; apply Z.mod_unique with ((c0 - 240) * 64 + (c1 - 128)); lia. }
  assert (E6 : c mod 64 = c3 - 128).
  { unfold c; symmetry;
      apply Z.mod_unique with (((c0 - 240) * 64 + (c1 - 128)) * 64 + (c2 - 128)); lia. }
  rewrite E1, E2, E3, E4, E5, E6. repeat f_equal; lia.
Qed.

Lemma utf8_decode_encode (n : nat) :
  forall (bs : bytes) (s : pystr),
    (length bs <= n)%nat -> utf8_decode bs = inr s -> utf8_encode s = inr bs.
Proof.
  induction n as [|n IH]; intros bs s Hn H.
  - destruct bs; [injection H as <-; reflexivity | cbn [length] in Hn; lia].
  - destruct bs as [|b0 r0]; [injection H as <-; reflexivity|].
    cbn [utf8_decode] in H. cbn [length] in Hn.
    pose proof (code_range b0) as R0.
    destruct (code b0 <? 128) eqn:T0.
    { destruct (utf8_decode r0) as [e|s'] eqn:E; cbn [rbind] in H; [discriminate H|].
      injection H as <-. apply IH in E; [|lia]. zbool.
      cbn [utf8_encode]. rewrite not_surrogate, E by lia. cbn [rbind].
      unfold utf8_char. rewrite ltb_true by lia. rewrite byte_of_code. reflexivity. }
    destruct r0 as [|b1 r1]; [discriminate H|]. cbn [length] in Hn.
    pose proof (code_range b1) as R1.
    destruct (between 194 (code b0) 223) eqn:T1.
    { destruct (is_cont (code b1)) eqn:T2; [|discriminate H].
      destruct (utf8_decode r1) as [e|s'] eqn:E; cbn [rbind] in H; [discriminate H|].
      injection H as <-. apply IH in E; [|lia]. zbool.
      destruct (utf8_char_2 (code b0) (code b1)) as [Hs Hb]; [lia | lia |].
      cbn [utf8_encode]. rewrite Hs, E. cbn [rbind]. rewrite Hb, !byte_of_code.
      reflexivity. }
    destruct r1 as [|b2 r2]; [discriminate H|]. cbn [length] in Hn.
    pose proof (code_range b2) as R2.
    destruct (between 224 (code b0) 239) eqn:T2.
    { destruct (code b0 =? 224) eqn:Q1; [|destruct (code b0 =? 237) eqn:Q2];
        match type of H with
        | (if ?b then _ else _) = _ => destruct b eqn:T3; [|discriminate H]
        end;
        (destruct (utf8_decode r2) as [e|s'] eqn:E; cbn [rbind] in H; [discriminate H|]);
        injection H as <-; (apply IH in E; [|lia]); zbool;
        (destruct (utf8_char_3 (code b0) (code b1) (code b2)) as [Hs Hb]; [lia ..|]);
        cbn [utf8_encode]; rewrite Hs, E; cbn [rbind]; rewrite Hb, !byte_of_code;
        reflexivity. }
    destruct r2 as [|b3 r3]; [discriminate H|]. cbn [length] in Hn.
    pose proof (code_range b3) as R3.
    destruct (code b0 =? 240) eqn:Q1; [|destruct (code b0 =? 244) eqn:Q2];
      match type of H with
      | (if ?b then _ else _) = _ => destruct b eqn:T3; [|discriminate H]
      end;
      (destruct (utf8_decode r3) as [e|s'] eqn:E; cbn [rbind] in H; [discriminate H|]);
      injection H as <-; (apply IH in E; [|lia]); zbool;
      (destruct (utf8_char_4 (code b0) (code b1) (code b2) (code b3)) as [Hs Hb];
       [lia ..|]);
      cbn [utf8_encode]; rewrite Hs, E; cbn [rbind]; rewrite Hb, !byte_of_code;
      reflexivity.
Qed.

Lemma between_true (lo c hi : Z) : lo <= c <= hi -> between lo c hi = true.
Proof.
  intros H. unfold between. apply andb_true_iff. split; apply Z.leb_le; lia.
Qed.

Lemma between_false (lo c hi : Z) : c < lo \/ hi < c -> between lo c hi = false.
Proof.
  intros H. unfold between. apply andb_false_iff.
  destruct H; [left | right]; apply Z.leb_gt; lia.
Qed.

Lemma is_cont_true (c : Z) : 128 <= c <= 191 -> is_cont c = true.
Proof. apply (between_true 128 c 191). Qed.

(** The bytes of a code point decode to it. *)
Lemma utf8_decode_char (c : Z) (rest : bytes) :
  0 <= c <= 1114111 -> is_surrogate c = false ->
  utf8_decode (utf8_char c ++ rest)
  = (let* s := utf8_decode rest in inr (c :: s)).
Proof.
  intros Hc Hs.
  assert (Hsur : c < 55296 \/ 57343 < c).
  { unfold is_surrogate, between in Hs. apply andb_false_iff in Hs.
    destruct Hs as [Hs | Hs]; apply Z.leb_gt in Hs; lia. }
  clear Hs.
  pose proof (Z.div_mod c 64 ltac:(lia)) as D1.
  pose proof (Z.mod_pos_bound c 64 ltac:(lia)) as M1.
  pose proof (Z.div_mod (c / 64) 64 ltac:(lia)) as D2.
  pose proof (Z.mod_pos_bound (c / 64) 64 ltac:(lia)) as M2.
  pose proof (Z.div_mod (c / 4096) 64 ltac:(lia)) as D3.
  pose proof (Z.mod_pos_bound (c / 4096) 64 ltac:(lia)) as M3.
  assert (Q2 : c / 4096 = c / 64 / 64) by (rewrite Z.div_div by lia; reflexivity).
  assert (Q3 : c / 262144 = c / 4096 / 64) by (rewrite Z.div_div by lia; reflexivity).
  unfold utf8_char.
  destruct (c <? 128) eqn:T0; [|destruct (c <? 2048) eqn:T1;
                                 [|destruct (c <? 65536) eqn:T2]]; zbool.
  - cbn [app utf8_decode]. rewrite code_byte_of by lia.
    rewrite ltb_true by lia. reflexivity.
  - cbn [app utf8_decode]. rewrite !code_byte_of by lia.
    rewrite ltb_false by lia. rewrite between_true by lia.
    rewrite is_cont_true by lia.
    destruct (utf8_decode rest); cbn [rbind]; [reflexivity|].
    do 2 f_equal. lia.
  - cbn [app utf8_decode]. rewrite !code_byte_of by lia.
    rewrite ltb_false by lia. rewrite (between_false 194) by lia.
    rewrite (between_true 224) by lia.
    assert (Hmid : (if 224 + c / 4096 =? 224 then between 160 (128 + c / 64 mod 64) 191
                    else if 224 + c / 4096 =? 237
                         then between 128 (128 + c / 64 mod 64) 159
                         else is_cont (128 + c / 64 mod 64)) = true).
    { destruct (224 + c / 4096 =? 224) eqn:E1;
        [|destruct (224 + c / 4096 =? 237) eqn:E2]; zbool;
        first [apply between_true | apply is_cont_true]; lia. }
    rewrite Hmid, is_cont_true by lia. cbn [andb].
    destruct (utf8_decode rest); cbn [rbind]; [reflexivity|].
    do 2 f_equal. lia.
  - cbn [app utf8_decode]. rewrite !code_byte_of by lia.
    rewrite ltb_false by lia. rewrite (between_false 194) by lia.
    rewrite (between_false 224) by lia. rewrite (between_true 240) by lia.
    assert (Hmid : (if 240 + c / 262144 =? 240
                    then between 144 (128 + c / 4096 mod 64) 191
                    else if 240 + c / 262144 =? 244
                         then between 128 (128 + c / 4096 mod 64) 143
                         else is_cont (128 + c / 4096 mod 64)) = true).
    { destruct (240 + c / 262144 =? 240) eqn:E1;
        [|destruct (240 + c / 262144 =? 244) eqn:E2]; zbool;
        first [apply between_true | apply is_cont_true]; lia. }
    rewrite Hmid, !is_cont_true by lia. cbn [andb].
    destruct (utf8_decode rest); cbn [rbind]; [reflexivity|].
    do 2 f_equal. lia.
Qed.

Lemma utf8_encode_decode (s : pystr) (bs : bytes) :
  Forall (fun c => 0 <= c <= 1114111) s ->
  utf8_encode s = inr bs -> utf8_decode bs = inr s.
Proof.
  intros H. revert bs. induction H as [|c s Hc _ IH]; intros bs; cbn [utf8_encode].
  - intros [= <-]. reflexivity.
  - destruct (is_surrogate c) eqn:Hs; [discriminate|].
    destruct (utf8_encode s) as [e|bs'] eqn:E; cbn [rbind]; [discriminate|].
    intros [= <-]. rewrite (utf8_decode_char c bs' Hc Hs), (IH bs' eq_refl).
    reflexivity.
Qed.

(** The code points that come out of the decoder. *)
Lemma utf8_encode_scalar (s : pystr) (bs : bytes) :
  utf8_encode s = inr bs -> Forall (fun c => is_surrogate c = false) s.
Proof.
  revert bs; induction s as [|c s IH]; intros bs; cbn [utf8_encode]; [constructor|].
  destruct (is_surrogate c) eqn:Hs; [discriminate|].
  destruct (utf8_encode s) as [e|bs'] eqn:E; cbn [rbind]; [discriminate|].
  intros _. constructor; [exact Hs | exact (IH bs' eq_refl)].
Qed.

(** X9. The text decoded from a body encodes back to the bytes of the
    body: the decoder accepts one spelling of each character only (no
    overlong forms, no surrogates), so no two bodies have the same text,
    and the text of a body has no surrogate in it. *)
Theorem decoded_text_encodes (bs : bytes) (s : pystr) :
  utf8_decode bs = inr s ->
  utf8_encode s = inr bs /\
  Forall (fun c => is_surrogate c = false) s /\
  forall bs', utf8_decode bs' = inr s -> bs' = bs.
Proof.
  intros H. pose proof (utf8_decode_encode (length bs) bs s (Nat.le_refl _) H) as He.
  split; [exact He|]. split; [exact (utf8_encode_scalar s bs He)|].
  intros bs' H'.
  pose proof (utf8_decode_encode (length bs') bs' s (Nat.le_refl _) H') as He'.
  congruence.
Qed.

Lemma decoded_text_encodes_witness :
  utf8_encode (lit hello_body) = inr (blit hello_body).
Proof.
  destruct (decoded_text_encodes (blit hello_body) (lit hello_body)) as [H _].
  - vm_compute. reflexivity.
  - exact H.
Defined.

(** X10. What the handler writes can be read back: a text of Unicode
    code points that the encoder accepts (none of them a surrogate)
    decodes to itself, so a reader of the log file gets the very line that
    was written. *)
Theorem written_text_decodes (s : pystr) (bs : bytes) :
  Forall (fun c => 0 <= c <= 1114111) s ->
  utf8_encode s = inr bs ->
  utf8_decode bs = inr s /\
  forall s', utf8_encode s' = inr bs -> Forall (fun c => 0 <= c <= 1114111) s' ->
             s' = s.
Proof.
  intros Hr He. pose proof (utf8_encode_decode s bs Hr He) as Hd.
  split; [exact Hd|].
  intros s' He' Hr'. pose proof (utf8_encode_decode s' bs Hr' He') as Hd'.
  congruence.
Qed.

Lemma written_text_decodes_witness :
  utf8_decode (blit "[INFO] caf" ++ [Byte.xc3; Byte.xa9])
  = inr (lit "[INFO] caf" ++ [233]).
Proof.
  apply (fun H1 H2 => proj1 (written_text_decodes (lit "[INFO] caf" ++ [233])
                              (blit "[INFO] caf" ++ [Byte.xc3; Byte.xa9]) H1 H2)).
  - apply List.Forall_forall. intros c Hc.
    assert (Hb : forallb (fun c => (0 <=? c) && (c <=? 1114111))
                   (lit "[INFO] caf" ++ [233]) = true) by (vm_compute; reflexivity).
    rewrite forallb_forall in Hb. specialize (Hb c Hc).
    apply andb_true_iff in Hb. destruct Hb as [H1 H2].
    apply Z.leb_le in H1, H2. lia.
  - vm_compute. reflexivity.
Defined.


(** ** The keys of the objects that [json.loads] builds *)

Lemma distinct_keys_list (items : list pyval) :
  distinct_keys (PList items) <-> Forall distinct_keys items.
Proof.
  cbn [distinct_keys]. induction items as [|x items IH].
  - split; [constructor | trivial].
  - rewrite IH. split.
    + intros [H1 H2]. constructor; assumption.
    + intros H. inversion H; subst. split; assumption.
Qed.

Lemma distinct_keys_dict (pairs : list (pystr * pyval)) :
  distinct_keys (PDict pairs)
  <-> List.NoDup (map fst pairs) /\ Forall (fun kv => distinct_keys (snd kv)) pairs.
Proof.
  cbn [distinct_keys].
  assert (H : (fix all (l : list (pystr * pyval)) : Prop :=
                 match l with
                 | [] => True
                 | kv :: l' => distinct_keys (snd kv) /\ all l'
                 end) pairs
              <-> Forall (fun kv => distinct_keys (snd kv)) pairs).
  { induction pairs as [|kv pairs IH].
    - split; [constructor | trivial].
    - rewrite IH. split.
      + intros [H1 H2]. constructor; assumption.
      + intros H. inversion H; subst. split; assumption. }
  rewrite H. reflexivity.
Qed.

Lemma dict_set_keys (d : list (pystr * pyval)) (k : pystr) (v : pyval) (x : pystr) :
  In x (map fst (dict_set d k v)) -> x = k \/ In x (map fst d).
Proof.
  induction d as [|[k' v'] d IH]; cbn [dict_set map fst In].
  - intros [<- | []]. left. reflexivity.
  - destruct (str_eqb k' k) eqn:E; cbn [map fst In].
    + intros H. right. exact H.
    + intros [<- | H]; [right; left; reflexivity|].
      destruct (IH H) as [-> | H']; [left; reflexivity | right; right; exact H'].
Qed.

Lemma dict_set_nodup (d : list (pystr * pyval)) (k : pystr) (v : pyval) :
  List.NoDup (map fst d) -> List.NoDup (map fst (dict_set d k v)).
Proof.
  induction d as [|[k' v'] d IH]; cbn [dict_set map fst].
  - intros _. constructor; [intros [] | constructor].
  - intros H. apply List.NoDup_cons_iff in H. destruct H as [Hk Hd].
    destruct (str_eqb k' k) eqn:E; cbn [map fst].
    + apply List.NoDup_cons_iff. split; assumption.
    + apply List.NoDup_cons_iff. split; [|exact (IH Hd)].
      intros Hin. apply dict_set_keys in Hin. destruct Hin as [-> | Hin].
      * rewrite str_eqb_refl in E. discriminate E.
      * contradiction.
Qed.

Lemma dict_set_values (Q : pyval -> Prop) (d : list (pystr * pyval)) (k : pystr)
  (v : pyval) :
  Forall (fun kv => Q (snd kv)) d -> Q v ->
  Forall (fun kv => Q (snd kv)) (dict_set d k v).
Proof.
  intros Hd Hv. induction Hd as [|[k' v'] d Hk Hd IH]; cbn [dict_set].
  - constructor; [exact Hv | constructor].
  - destruct (str_eqb k' k); constructor; assumption.
Qed.

(** A key that is set can be looked up, and the other keys are as before. *)
Lemma dict_get_set (d : list (pystr * pyval)) (k k' : pystr) (v : pyval) :
  dict_get (dict_set d k v) k'
  = if str_eqb k k' then Some v else dict_get d k'.
Proof.
  induction d as [|[k0 v0] d IH]; cbn [dict_set dict_get].
  - destruct (str_eqb k k'); reflexivity.
  - destruct (str_eqb k0 k) eqn:E; cbn [dict_get].
    + apply str_eqb_eq in E. subst k0. destruct (str_eqb k k'); reflexivity.
    + rewrite IH. destruct (str_eqb k0 k') eqn:E'; [|reflexivity].
      apply str_eqb_eq in E'. subst k0. rewrite str_eqb_neq; [reflexivity|].
      intros ->. rewrite str_eqb_refl in E. discriminate E.
Qed.

Section Keys.

Variable scan : pystr -> result (pyval * pystr).

Hypothesis scan_distinct : forall t v r, scan t = inr (v, r) -> distinct_keys v.

Lemma array_items_distinct (fuel : nat) :
  forall (s : pystr) (acc : list pyval) (v : pyval) (r : pystr),
    Json.array_items scan fuel s acc = inr (v, r) ->
    Forall distinct_keys acc -> distinct_keys v.
Proof.
  induction fuel as [|fuel IH]; intros s acc v r H Hacc; [discriminate H|].
  cbn [Json.array_items] in H.
  destruct (scan s) as [e|[v1 r1]] eqn:E; cbn [rbind] in H; [discriminate H|].
  apply scan_distinct in E.
  destruct (Json.skip_ws r1) as [|c r2] eqn:Ew; [discriminate H|].
  repeat (case_hyp H; try discriminate H).
  all: first [ apply IH in H; [exact H | constructor; assumption]
             | injection H as <- <-; apply distinct_keys_list;
               apply (List.Forall_rev (l := v1 :: acc)); constructor; assumption ].
Qed.

Lemma object_pairs_distinct (fuel : nat) :
  forall (s : pystr) (acc : list (pystr * pyval)) (v : pyval) (r : pystr),
    Json.object_pairs scan fuel s acc = inr (v, r) ->
    List.NoDup (map fst acc) -> Forall (fun kv => distinct_keys (snd kv)) acc ->
    distinct_keys v.
Proof.
  induction fuel as [|fuel IH]; intros s acc v r H Hk Hv; [discriminate H|].
  cbn [Json.object_pairs] in H.
  destruct s as [|c s]; [discriminate H|].
  repeat (case_hyp H; try discriminate H).
  destruct (Json.scanstring s) as [e|[key r1]] eqn:Ek; cbn [rbind] in H;
    [discriminate H|].
  destruct (Json.skip_ws r1) as [|c1 r2] eqn:Ew1; [discriminate H|].
  repeat (case_hyp H; try discriminate H).
  destruct (scan (Json.skip_ws r2)) as [e|[v1 r3]] eqn:Ev; cbn [rbind] in H;
    [discriminate H|].
  apply scan_distinct in Ev.
  destruct (Json.skip_ws r3) as [|c3 r4] eqn:Ew3; [discriminate H|].
  repeat (case_hyp H; try discriminate H).
  all: first [ apply IH in H;
               [exact H | apply dict_set_nodup; exact Hk
               | apply dict_set_values; assumption]
             | injection H as <- <-; apply distinct_keys_dict; split;
               [apply dict_set_nodup; exact Hk | apply dict_set_values; assumption] ].
Qed.

End Keys.

Lemma constant_value (word : string) (v v' : pyval) (s r : pystr) :
  Json.constant word v s = inr (v', r) -> v' = v.
Proof.
  unfold Json.constant. destruct (strip_prefix (lit word) s); [|discriminate].
  intros [= <- _]. reflexivity.
Qed.

Lemma scan_number_value (P : platform) (neg : bool) (s r : pystr) (v : pyval) :
  Json.scan_number P neg s = inr (v, r) ->
  (exists n, v = PInt n) \/ (exists x, v = PFloat x).
Proof.
  unfold Json.scan_number, Json.int_of_digits.
  destruct (Json.scan_int s) as [[ip r0]|]; [|discriminate].
  destruct (Json.scan_frac r0) as [fp r1]. destruct (Json.scan_exp r1) as [ex r2].
  destruct fp as [|c fp]; [destruct ex as [[eneg ed]|]|].
  - intros [= <- _]. right. eexists. reflexivity.
  - destruct (_ && _); cbn [rbind]; [discriminate|].
    intros [= <- _]. left. eexists. reflexivity.
  - intros [= <- _]. right. eexists. reflexivity.
Qed.

Lemma scan_once_distinct (P : platform) (fuel : nat) :
  forall (s : pystr) (v : pyval) (r : pystr),
    Json.scan_once P fuel s = inr (v, r) -> distinct_keys v.
Proof.
  induction fuel as [|fuel IH]; intros s v r H; [discriminate H|].
  cbn [Json.scan_once] in H.
  destruct s as [|c s]; [discriminate H|].
  destruct (c =? 34).
  { destruct (Json.scanstring s) as [e|[t rest]]; cbn [rbind] in H; [discriminate H|].
    injection H as <- <-. exact I. }
  destruct (c =? 123).
  { destruct (Json.skip_ws s) as [|c1 s1] eqn:Ew;
      [apply (object_pairs_distinct _ IH) in H;
       [exact H | constructor | constructor]|].
    repeat (case_hyp H; try discriminate H).
    all: first [ apply (object_pairs_distinct _ IH) in H;
                 [exact H | constructor | constructor]
               | injection H as <- <-; apply distinct_keys_dict; split; constructor ]. }
  destruct (c =? 91).
  { destruct (Json.skip_ws s) as [|c1 s1] eqn:Ew;
      [apply (array_items_distinct _ IH) in H; [exact H | constructor]|].
    repeat (case_hyp H; try discriminate H).
    all: first [ apply (array_items_distinct _ IH) in H; [exact H | constructor]
               | injection H as <- <-; exact I ]. }
  repeat match type of H with
         | (if ?b then Json.constant _ _ _ else _) = _ =>
             destruct b; [apply constant_value in H; subst v; exact I|]
         end.
  destruct (c =? 45).
  - destruct (strip_prefix (lit "Infinity") s) as [r'|].
    + injection H as <- <-. exact I.
    + apply scan_number_value in H. destruct H as [[n ->] | [x ->]]; exact I.
  - apply scan_number_value in H. destruct H as [[n ->] | [x ->]]; exact I.
Qed.

(** X11. In a value built by [json.loads] no object has a key twice, at
    any depth: a key repeated in the text takes the value given last, at
    the place where it came first. So the object that the handler writes
    back into the log has each of its keys once, and [get] finds the value
    given last. *)
Theorem loads_distinct_keys (P : platform) (text : pystr) (v : pyval) :
  Json.loads P text = inr v ->
  distinct_keys v /\
  (forall d, v = PDict d -> List.NoDup (map fst d)) /\
  (forall d k w k',
     dict_get (dict_set d k w) k' = if str_eqb k k' then Some w else dict_get d k').
Proof.
  intros H. unfold Json.loads in H.
  assert (Hs : (let* (v', r) := Json.scan_once P (S (length text)) (Json.skip_ws text) in
                match Json.skip_ws r with
                | [] => inr v'
                | _ => inl JSONDecodeError
                end) = inr v).
  { destruct text as [|c text]; [exact H|].
    repeat (case_hyp H; try discriminate H); exact H. }
  assert (Hv : distinct_keys v).
  { destruct (Json.scan_once P (S (length text)) (Json.skip_ws text))
      as [e|[v' r]] eqn:E; cbn [rbind] in Hs; [discriminate Hs|].
    apply scan_once_distinct in E.
    destruct (Json.skip_ws r); [|discriminate Hs].
    injection Hs as <-. exact E. }
  split; [exact Hv|]. split.
  - intros d ->. apply distinct_keys_dict in Hv. apply Hv.
  - intros d k w k'. apply dict_get_set.
Qed.

Lemma loads_distinct_keys_witness :
  Json.loads utc (lit "{`type`:`a`,`n`:1,`type`:`b`}")
  = inr (PDict [(lit "type", PStr (lit "b")); (lit "n", PInt 1)])
  /\ List.NoDup [lit "type"; lit "n"].
Proof.
  assert (H : Json.loads utc (lit "{`type`:`a`,`n`:1,`type`:`b`}")
              = inr (PDict [(lit "type", PStr (lit "b")); (lit "n", PInt 1)]))
    by (vm_compute; reflexivity).
  split; [exact H|].
  destruct (loads_distinct_keys utc _ _ H) as (_ & Hd & _).
  exact (Hd _ eq_refl).
Defined.


(** ** The fields of a date *)

Lemma civil_from_days_range (z : Z) :
  1 <= snd (fst (Datetime.civil_from_days z)) <= 12 /\
  1 <= snd (Datetime.civil_from_days z) <= 31.
Proof.
  unfold Datetime.civil_from_days. cbv zeta. cbn [fst snd].
  match goal with
  | |- context [if ?b then _ else _] => destruct b eqn:E
  end; zbool; Z.to_euclidean_division_equations; lia.
Qed.

Lemma of_wall_fields (w us : Z) :
  Datetime.year (Datetime.of_wall w us) = Datetime.year_of_wall w /\
  1 <= Datetime.month (Datetime.of_wall w us) <= 12 /\
  1 <= Datetime.day (Datetime.of_wall w us) <= 31 /\
  0 <= Datetime.hour (Datetime.of_wall w us) <= 23 /\
  0 <= Datetime.minute (Datetime.of_wall w us) <= 59 /\
  0 <= Datetime.second (Datetime.of_wall w us) <= 59 /\
  Datetime.microsecond (Datetime.of_wall w us) = us.
Proof.
  pose proof (civil_from_days_range (w / 86400)) as H.
  unfold Datetime.of_wall, Datetime.year_of_wall.
  destruct (Datetime.civil_from_days (w / 86400)) as [[y m] d].
  cbn [fst snd Datetime.year Datetime.month Datetime.day Datetime.hour
       Datetime.minute Datetime.second Datetime.microsecond] in *.
  split; [reflexivity|]. split; [apply H|]. split; [apply H|].
  repeat split; Z.to_euclidean_division_equations; lia.
Qed.

Lemma zpad_fixed (w : nat) (n : Z) : n < 10 ^ Z.of_nat w -> zpad w n = fixed w n.
Proof. intros H. unfold zpad. rewrite ltb_true by exact H. reflexivity. Qed.

Lemma int_str_four (y : Z) : 1000 <= y <= 9999 -> length (int_str y) = 4%nat.
Proof.
  intros H.
  assert (Hall : forallb (fun k => Nat.eqb (length (int_str (1000 + Z.of_nat k))) 4)
                   (seq 0 (Z.to_nat 9000)) = true) by (vm_compute; reflexivity).
  rewrite forallb_forall in Hall.
  specialize (Hall (Z.to_nat (y - 1000))).
  rewrite Z2Nat.id in Hall by lia.
  replace (1000 + (y - 1000)) with y in Hall by lia.
  apply Nat.eqb_eq, Hall. apply in_seq. lia.
Qed.

Lemma fmt_year_four (P : platform) (y : Z) :
  1 <= y <= 9999 -> year_padded P = true \/ 1000 <= y ->
  length (Datetime.fmt_year P y) = 4%nat.
Proof.
  intros Hy Hp. unfold Datetime.fmt_year.
  destruct (year_padded P).
  - rewrite zpad_fixed by (cbn; lia). apply fixed_length.
  - destruct Hp as [Hp | Hp]; [discriminate Hp|]. apply int_str_four. lia.
Qed.

(** The display of a wall clock, field by field. *)
Lemma render_fields (P : platform) (w ms : Z) :
  0 <= ms <= 999 ->
  exists mo d h mi s,
    1 <= mo <= 12 /\ 1 <= d <= 31 /\ 0 <= h <= 23 /\ 0 <= mi <= 59 /\ 0 <= s <= 59 /\
    render P w ms
    = Datetime.fmt_year P (Datetime.year_of_wall w)
      ++ [45] ++ fixed 2 mo ++ [45] ++ fixed 2 d ++ [32] ++ fixed 2 h
      ++ [58] ++ fixed 2 mi ++ [58] ++ fixed 2 s ++ [46] ++ fixed 3 ms.
Proof.
  intros Hms. unfold render. cbv zeta.
  destruct (of_wall_fields w 0) as (Hy & Hmo & Hd & Hh & Hmi & Hs & _).
  generalize dependent (Datetime.of_wall w 0). intros dt Hy Hmo Hd Hh Hmi Hs.
  exists (Datetime.month dt), (Datetime.day dt), (Datetime.hour dt),
    (Datetime.minute dt), (Datetime.second dt).
  repeat (split; [assumption|]).
  assert (E2 : 10 ^ Z.of_nat 2 = 100) by reflexivity.
  assert (E3 : 10 ^ Z.of_nat 3 = 1000) by reflexivity.
  rewrite Hy, !(zpad_fixed 2), (zpad_fixed 3) by lia. reflexivity.
Qed.

Lemma from_timet_year (P : platform) (timet us : Z) (dt : Datetime.datetime) :
  Datetime.from_timet P timet us = inr dt ->
  1 <= Datetime.year_of_wall (timet + utcoffset P timet) <= 9999.
Proof.
  unfold Datetime.from_timet, Datetime.local. intros H.
  destruct (between Datetime.MINYEAR (Datetime.year_of_wall (timet + utcoffset P timet))
              Datetime.MAXYEAR) eqn:E; [|discriminate H].
  unfold Datetime.MINYEAR, Datetime.MAXYEAR in E. zbool. lia.
Qed.

Lemma fromtimestamp_year (P : platform) (secs : spec_float) (dt : Datetime.datetime)
  (timet us : Z) :
  Datetime.fromtimestamp P secs = inr dt ->
  Datetime.timeval secs = inr (timet, us) ->
  1 <= Datetime.year_of_wall (timet + utcoffset P timet) <= 9999.
Proof.
  unfold Datetime.fromtimestamp. intros H Htv. rewrite Htv in H. cbn [rbind] in H.
  exact (from_timet_year P timet us dt H).
Qed.

(** X12. The timestamp of every accepted entry has its fields in range
    (month 1 to 12, day 1 to 31, hour below 24, minute and second below
    60, milliseconds below 1000) and the year between 1 and 9999, each
    field after the year written with a fixed number of digits. So the
    timestamp takes exactly 23 characters whenever the year has four
    digits (or the C library pads it to four). *)
Theorem stamp_fixed_width (P : platform) (LOG_FILE : pystr) (r : request)
  (post_data : bytes) (st st' : state) :
  accepted P LOG_FILE r post_data st st' ->
  exists (text : pystr) (d : list (pystr * pyval)) (secs : spec_float)
         (timet us : Z) (stamp : pystr) (record : bytes) (mo dd h mi s : Z),
    utf8_decode post_data = inr text /\ Json.loads P text = inr (PDict d) /\
    py_truediv_1000 (entry_timestamp d) = inr secs /\
    Datetime.timeval secs = inr (timet, us) /\
    utf8_encode (layout_line P stamp d) = inr record /\
    st' = logged LOG_FILE record st /\
    1 <= Datetime.year_of_wall (timet + utcoffset P timet) <= 9999 /\
    1 <= mo <= 12 /\ 1 <= dd <= 31 /\ 0 <= h <= 23 /\
    0 <= mi <= 59 /\ 0 <= s <= 59 /\ 0 <= us / 1000 <= 999 /\
    stamp = Datetime.fmt_year P (Datetime.year_of_wall (timet + utcoffset P timet))
            ++ [45] ++ fixed 2 mo ++ [45] ++ fixed 2 dd ++ [32] ++ fixed 2 h
            ++ [58] ++ fixed 2 mi ++ [58] ++ fixed 2 s ++ [46] ++ fixed 3 (us / 1000) /\
    (year_padded P = true
     \/ 1000 <= Datetime.year_of_wall (timet + utcoffset P timet) ->
     length stamp = 23%nat).
Proof.
  intros [Hr Hs]. apply try_suite_accepted in Hs.
  destruct Hs as (line & record & Hline & Henc & _ & ->).
  apply entry_line_inv in Hline.
  destruct Hline as (text & d & secs & dt & H1 & H2 & H3 & Hdt & ->).
  destruct (display_render P secs dt Hdt) as (timet & us & Htv & Hus & Hrender).
  pose proof (fromtimestamp_year P secs dt timet us Hdt Htv) as Hy.
  assert (Hms : 0 <= us / 1000 <= 999) by (Z.to_euclidean_division_equations; lia).
  destruct (render_fields P (timet + utcoffset P timet) (us / 1000) Hms)
    as (mo & dd & h & mi & s & Hmo & Hdd & Hh & Hmi & Hsec & Hfields).
  change (format_line P ?s (entry_type d) (PDict d)) with (layout_line P s d) in Henc.
  rewrite Hrender in Henc.
  exists text, d, secs, timet, us,
    (render P (timet + utcoffset P timet) (us / 1000)), record, mo, dd, h, mi, s.
  split; [exact H1|]. split; [exact H2|]. split; [exact H3|]. split; [exact Htv|].
  split; [exact Henc|]. split; [reflexivity|].
  split; [exact Hy|]. split; [exact Hmo|]. split; [exact Hdd|].
  split; [exact Hh|]. split; [exact Hmi|]. split; [exact Hsec|].
  split; [exact Hms|]. split; [exact Hfields|].
  intros Hp. rewrite Hfields, !length_app, !fixed_length.
  rewrite (fmt_year_four P _ Hy Hp). reflexivity.
Qed.

Lemma stamp_fixed_width_witness :
  exists (stamp : pystr) (record : bytes),
    utf8_encode
      (layout_line utc stamp
         [(lit "timestamp", PInt 1700000000000); (lit "type", PStr (lit "INFO"));
          (lit "msg", PStr (lit "hello"))]) = inr record
    /\ length stamp = 23%nat.
Proof.
  destruct (stamp_fixed_width utc sample_LOG_FILE (post_log hello_body)
              (blit hello_body) started _ accepted_hello)
    as (text & d & secs & timet & us & stamp & record & mo & dd & h & mi & s
        & H1 & H2 & H3 & H4 & H5 & _ & _ & _ & _ & _ & _ & _ & _ & _ & H6).
  vm_compute in H1. injection H1 as <-.
  vm_compute in H2. injection H2 as <-.
  vm_compute in H3. injection H3 as <-.
  vm_compute in H4. injection H4 as <- <-.
  exists stamp, record. split; [exact H5|].
  apply H6. right. vm_compute. discriminate.
Defined.

(** X13. The name of the log file, computed when the module is loaded, is
    logs/lorafactory_ followed by the year of the local date (between 1 and
    9999), the month (01 to 12) and the day (01 to 31), two digits each,
    and .log: 29 characters whenever the year has four digits (or the C
    library pads it to four). *)
Theorem log_file_name_width (P : platform) (st0 : state) (LOG_FILE : pystr)
  (st1 : state) :
  module_init P st0 = (inr LOG_FILE, st1) ->
  exists mo dd : Z,
    1 <= Datetime.year_of_wall (clock st0 + utcoffset P (clock st0)) <= 9999 /\
    1 <= mo <= 12 /\ 1 <= dd <= 31 /\
    LOG_FILE = lit "logs/lorafactory_"
               ++ Datetime.fmt_year P
                    (Datetime.year_of_wall (clock st0 + utcoffset P (clock st0)))
               ++ fixed 2 mo ++ fixed 2 dd ++ lit ".log" /\
    (year_padded P = true
     \/ 1000 <= Datetime.year_of_wall (clock st0 + utcoffset P (clock st0)) ->
     length LOG_FILE = 29%nat).
Proof.
  intros H. apply module_init_inv in H. destruct H as (today & Hnow & -> & _).
  unfold Datetime.now in Hnow.
  pose proof (from_timet_year P _ _ _ Hnow) as Hy.
  apply from_timet_inv in Hnow. destruct Hnow as [-> _].
  destruct (of_wall_fields (clock st0 + utcoffset P (clock st0)) 0)
    as (Ey & Hmo & Hdd & _).
  rewrite strftime_date, Ey.
  assert (E2 : 10 ^ Z.of_nat 2 = 100) by reflexivity.
  rewrite !(zpad_fixed 2) by lia.
  eexists _, _. split; [exact Hy|]. split; [exact Hmo|]. split; [exact Hdd|].
  rewrite <- !app_assoc. split; [reflexivity|].
  intros Hp. rewrite !length_app, !fixed_length, (fmt_year_four P _ Hy Hp). reflexivity.
Qed.

Lemma log_file_name_width_witness : length sample_LOG_FILE = 29%nat.
Proof.
  destruct (log_file_name_width utc boot sample_LOG_FILE started) as (mo & dd & _ & _ & _ & _ & H).
  - vm_compute. reflexivity.
  - apply H. right. vm_compute. discriminate.
Defined.


(** ** Reading back what [json.dumps] wrote *)

(** *** Strings *)

Lemma hex_value_digit (n : Z) : 0 <= n < 16 -> Json.hex_value (hex_digit n) = Some n.
Proof.
  intros H. unfold Json.hex_value, hex_digit.
  destruct (n <? 10) eqn:E; [apply Z.ltb_lt in E | apply Z.ltb_ge in E].
  - rewrite between_true by lia. f_equal. lia.
  - rewrite between_false, between_true by lia. f_equal. lia.
Qed.

Lemma hex4_round (c : Z) :
  0 <= c < 65536 ->
  exists h1 h2 h3 h4, hex4 c = [h1; h2; h3; h4] /\ Json.hex4 h1 h2 h3 h4 = Some c.
Proof.
  intros H. unfold hex4, hex2. cbn [app]. eexists _, _, _, _. split; [reflexivity|].
  unfold Json.hex4.
  rewrite !hex_value_digit by (apply Z.mod_pos_bound; lia).
  f_equal. Z.to_euclidean_division_equations. lia.
Qed.

(** What follows a [\u] escape decides whether it stands alone. *)
Lemma scanstring_u (h1 h2 h3 h4 u1 : Z) (r' : pystr) :
  Json.hex4 h1 h2 h3 h4 = Some u1 ->
  Json.scanstring (92 :: 117 :: h1 :: h2 :: h3 :: h4 :: r')
  = if between 55296 u1 56319 then
      match r' with
      | 92 :: 117 :: g1 :: g2 :: g3 :: g4 :: r'' =>
          match Json.hex4 g1 g2 g3 g4 with
          | None => inl JSONDecodeError
          | Some u2 =>
              if between 56320 u2 57343 then
                let* (t, rest) := Json.scanstring r'' in
                inr ((65536 + (u1 - 55296) * 1024 + (u2 - 56320)) :: t, rest)
              else let* (t, rest) := Json.scanstring r' in inr (u1 :: t, rest)
          end
      | _ => let* (t, rest) := Json.scanstring r' in inr (u1 :: t, rest)
      end
    else let* (t, rest) := Json.scanstring r' in inr (u1 :: t, rest).
Proof.
  intros H. cbn [Json.scanstring Z.eqb Pos.eqb]. rewrite H. reflexivity.
Qed.


Lemma str_ok_cons (c : Z) (s : pystr) :
  str_ok (c :: s) = true ->
  0 <= c <= 1114111 /\ str_ok s = true
  /\ (between 55296 c 56319 = true ->
      match s with
      | c' :: _ => between 56320 c' 57343 = false
      | [] => True
      end).
Proof.
  unfold str_ok. cbn [forallb paired]. intros H.
  apply andb_true_iff in H. destruct H as [H1 H2].
  apply andb_true_iff in H1. destruct H1 as [Hc Hs].
  apply negb_true_iff in H2.
  split; [unfold between in Hc; zbool; lia|].
  destruct s as [|c' s'].
  - split; [reflexivity | trivial].
  - apply orb_false_iff in H2. destruct H2 as [Hp Hq].
    split; [rewrite Hs, Hq; reflexivity|].
    intros Hhi. rewrite Hhi in Hp. exact Hp.
Qed.

(** An escape that is not the low half of a pair leaves the escape before
    it alone. *)
Lemma alone_tail {A : Type} (X : Z -> pystr -> A) (E Y : A) (s rest : pystr) :
  match s with
  | c :: _ => 0 <= c <= 1114111 /\ between 56320 c 57343 = false
  | [] => True
  end ->
  match flat_map Encoder.escape_char s ++ 34 :: rest with
  | 92 :: 117 :: g1 :: g2 :: g3 :: g4 :: r'' =>
      match Json.hex4 g1 g2 g3 g4 with
      | None => E
      | Some u2 => if between 56320 u2 57343 then X u2 r'' else Y
      end
  | _ => Y
  end = Y.
Proof.
  destruct s as [|c s]; [reflexivity|]. intros [Hc Hlow].
  cbn [flat_map]. unfold Encoder.escape_char.
  destruct (c =? 34); [reflexivity|].
  destruct (c =? 92) eqn:E92; [reflexivity|].
  destruct (c =? 10); [reflexivity|].
  destruct (c =? 13); [reflexivity|].
  destruct (c =? 9); [reflexivity|].
  destruct (c =? 8); [reflexivity|].
  destruct (c =? 12); [reflexivity|].
  destruct (between 32 c 126).
  { cbn [app]. apply Z.eqb_neq in E92.
    destruct c as [|p|p]; try reflexivity.
    repeat (destruct p as [p|p|]; try reflexivity).
    exfalso. apply E92. reflexivity. }
  destruct (c <? 65536) eqn:Eb; [apply Z.ltb_lt in Eb | apply Z.ltb_ge in Eb].
  - destruct (hex4_round c) as (h1 & h2 & h3 & h4 & -> & Hh); [lia|].
    cbn [app]. rewrite Hh, Hlow. reflexivity.
  - destruct (hex4_round (55296 + (c - 65536) / 1024))
      as (h1 & h2 & h3 & h4 & -> & Hh);
      [Z.to_euclidean_division_equations; lia|].
    cbn [app]. rewrite Hh, between_false; [reflexivity|].
    left. Z.to_euclidean_division_equations; lia.
Qed.

(** The string scanner reads an escaped string back, up to its closing
    quote. *)
Lemma scanstring_escaped (s rest : pystr) :
  str_ok s = true ->
  Json.scanstring (flat_map Encoder.escape_char s ++ 34 :: rest) = inr (s, rest).
Proof.
  induction s as [|c s IH]; intros Hok; [reflexivity|].
  apply str_ok_cons in Hok. destruct Hok as (Hc & Hs & Hhead).
  specialize (IH Hs). cbn [flat_map]. rewrite <- app_assoc.
  set (tail := flat_map Encoder.escape_char s ++ 34 :: rest) in *.
  unfold Encoder.escape_char.
  destruct (c =? 34) eqn:E34;
    [apply Z.eqb_eq in E34; subst c;
     cbn [app Json.scanstring Json.simple_escape Z.eqb Pos.eqb];
     rewrite IH; reflexivity|].
  destruct (c =? 92) eqn:E92;
    [apply Z.eqb_eq in E92; subst c;
     cbn [app Json.scanstring Json.simple_escape Z.eqb Pos.eqb];
     rewrite IH; reflexivity|].
  destruct (c =? 10) eqn:E10;
    [apply Z.eqb_eq in E10; subst c;
     cbn [app Json.scanstring Json.simple_escape Z.eqb Pos.eqb];
     rewrite IH; reflexivity|].
  destruct (c =? 13) eqn:E13;
    [apply Z.eqb_eq in E13; subst c;
     cbn [app Json.scanstring Json.simple_escape Z.eqb Pos.eqb];
     rewrite IH; reflexivity|].
  destruct (c =? 9) eqn:E9;
    [apply Z.eqb_eq in E9; subst c;
     cbn [app Json.scanstring Json.simple_escape Z.eqb Pos.eqb];
     rewrite IH; reflexivity|].
  destruct (c =? 8) eqn:E8;
    [apply Z.eqb_eq in E8; subst c;
     cbn [app Json.scanstring Json.simple_escape Z.eqb Pos.eqb];
     rewrite IH; reflexivity|].
  destruct (c =? 12) eqn:E12;
    [apply Z.eqb_eq in E12; subst c;
     cbn [app Json.scanstring Json.simple_escape Z.eqb Pos.eqb];
     rewrite IH; reflexivity|].
  destruct (between 32 c 126) eqn:Ep.
  { cbn [app Json.scanstring]. rewrite E34, E92.
    unfold between in Ep. apply andb_true_iff in Ep. destruct Ep as [Ep _].
    apply Z.leb_le in Ep. rewrite (proj2 (Z.leb_gt c 31)) by lia.
    rewrite IH. reflexivity. }
  destruct (c <? 65536) eqn:E; [apply Z.ltb_lt in E | apply Z.ltb_ge in E].
  - destruct (hex4_round c) as (h1 & h2 & h3 & h4 & -> & Hh); [lia|].
    cbn [app]. rewrite (scanstring_u _ _ _ _ _ _ Hh).
    destruct (between 55296 c 56319) eqn:Ehi.
    + subst tail. rewrite alone_tail; [rewrite IH; reflexivity|].
      specialize (Hhead eq_refl). destruct s as [|c' s']; [trivial|].
      apply str_ok_cons in Hs. split; [apply Hs | exact Hhead].
    + rewrite IH. reflexivity.
  - destruct (hex4_round (55296 + (c - 65536) / 1024))
      as (h1 & h2 & h3 & h4 & -> & Hh);
      [Z.to_euclidean_division_equations; lia|].
    destruct (hex4_round (56320 + (c - 65536) mod 1024))
      as (g1 & g2 & g3 & g4 & -> & Hg);
      [Z.to_euclidean_division_equations; lia|].
    cbn [app]. rewrite (scanstring_u _ _ _ _ _ _ Hh).
    rewrite between_true by (Z.to_euclidean_division_equations; lia).
    rewrite Hg, between_true by (Z.to_euclidean_division_equations; lia).
    rewrite IH. cbn [rbind]. do 2 f_equal. f_equal.
    Z.to_euclidean_division_equations; lia.
Qed.


(** *** Numbers *)

Lemma nzhead_nonzero (d x : Decimal.uint) : Decimal.nzhead d <> Decimal.D0 x.
Proof. induction d; cbn [Decimal.nzhead]; try discriminate. exact IHd. Qed.

(** A decimal numeral has no leading zero, unless it is 0. *)
Lemma digits_of_canonical (n : N) :
  digits_of n = [48]
  \/ exists c r, digits_of n = c :: r /\ 49 <= c <= 57 /\ Forall digit r.
Proof.
  pose proof (digits_of_digit n) as Hd. unfold digits_of in *.
  pose proof (DecimalN.Unsigned.to_of (N.to_uint n)) as H.
  rewrite DecimalN.Unsigned.of_to in H.
  destruct (N.to_uint n) as [|d|d|d|d|d|d|d|d|d|d] eqn:E;
    [ | | right; cbn [uint_chars] in *; inversion Hd; subst;
          eexists _, _; (split; [reflexivity | split; [lia | assumption]]) .. ].
  - destruct n; [discriminate E|].
    exfalso. exact (DecimalPos.Unsigned.to_uint_nonnil _ E).
  - unfold Decimal.unorm in H. cbn [Decimal.nzhead] in H.
    destruct (Decimal.nzhead d) eqn:Ez;
      try (exfalso; apply (nzhead_nonzero d d); rewrite Ez; symmetry; exact H).
    injection H as ->. left. reflexivity.
Qed.

Lemma span_digits_all (ds rest : pystr) :
  Forall digit ds ->
  match rest with
  | c :: _ => is_digit c = false
  | [] => True
  end ->
  Json.span_digits (ds ++ rest) = (ds, rest).
Proof.
  intros Hds Hrest. induction Hds as [|c ds Hc Hds IH]; cbn [app Json.span_digits].
  - destruct rest as [|c rest]; [reflexivity|]. cbn [Json.span_digits].
    rewrite Hrest. reflexivity.
  - assert (Hd : is_digit c = true).
    { unfold is_digit, digit in *. apply andb_true_iff. split; apply Z.leb_le; lia. }
    rewrite Hd, IH. reflexivity.
Qed.

Lemma scan_number_digits (P : platform) (neg : bool) (n : N) (rest : pystr) :
  int_ok P (Z.of_N n) = true -> closes rest ->
  Json.scan_number P neg (digits_of n ++ rest)
  = inr (PInt (if neg then - Z.of_N n else Z.of_N n), rest).
Proof.
  intros Hok Hrest.
  assert (Hnd : match rest with c :: _ => is_digit c = false | [] => True end).
  { destruct rest as [|c rest]; [trivial|].
    destruct Hrest as [-> | [-> | ->]]; reflexivity. }
  assert (Hfrac : Json.scan_frac rest = ([], rest)).
  { destruct rest as [|c rest]; [reflexivity|].
    destruct Hrest as [-> | [-> | ->]]; reflexivity. }
  assert (Hexp : Json.scan_exp rest = (None, rest)).
  { destruct rest as [|c rest]; [reflexivity|].
    destruct Hrest as [-> | [-> | ->]]; reflexivity. }
  assert (Hint : Json.scan_int (digits_of n ++ rest) = Some (digits_of n, rest)).
  { destruct (digits_of_canonical n) as [-> | (c & r & -> & Hc & Hr)].
    - reflexivity.
    - cbn [app Json.scan_int].
      rewrite (proj2 (Z.eqb_neq c 48)) by lia.
      rewrite between_true by lia.
      rewrite (span_digits_all r rest Hr Hnd). reflexivity. }
  unfold Json.scan_number. rewrite Hint, Hfrac, Hexp.
  unfold Json.int_of_digits. unfold int_ok in Hok.
  rewrite Z.abs_eq, N2Z.id in Hok by lia.
  apply negb_true_iff in Hok. rewrite Hok, digits_value_of. reflexivity.
Qed.


(** *** Values *)

Lemma not_ws (c : Z) : 33 <= c -> Json.is_ws c = false.
Proof.
  intros H. unfold Json.is_ws.
  rewrite !(proj2 (Z.eqb_neq c _)) by lia. reflexivity.
Qed.

Lemma skip_ws_head (c : Z) (s : pystr) :
  Json.is_ws c = false -> Json.skip_ws (c :: s) = c :: s.
Proof. intros H. cbn [Json.skip_ws]. rewrite H. reflexivity. Qed.

Lemma int_str_opens (n : Z) : opens (int_str n).
Proof.
  unfold int_str. destruct n as [|p|p].
  - exists 48, []. split; [reflexivity | lia].
  - destruct (digits_of_cons (Z.to_N (Z.pos p))) as (c & r & -> & Hc & _).
    exists c, r. split; [reflexivity | unfold digit in Hc; lia].
  - eexists _, _. split; [reflexivity | lia].
Qed.

Lemma dumps_opens (P : platform) (v : pyval) : readable P v -> opens (Encoder.dumps v).
Proof.
  destruct v as [ | [|] | n | x | s | items | pairs]; cbn [readable Encoder.dumps];
    intros H.
  - exists 110, (lit "ull"). split; [reflexivity | lia].
  - exists 116, (lit "rue"). split; [reflexivity | lia].
  - exists 102, (lit "alse"). split; [reflexivity | lia].
  - apply int_str_opens.
  - destruct x as [s|[|]| |s m e]; try contradiction.
    + exists 45, (lit "Infinity"). split; [reflexivity | lia].
    + exists 73, (lit "nfinity"). split; [reflexivity | lia].
    + exists 78, (lit "aN"). split; [reflexivity | lia].
  - eexists _, _. split; [reflexivity | lia].
  - eexists _, _. split; [reflexivity | lia].
  - eexists _, _. split; [reflexivity | lia].
Qed.

Lemma skip_ws_opens (t rest : pystr) : opens t -> Json.skip_ws (t ++ rest) = t ++ rest.
Proof.
  intros (c & r & -> & Hc & _). cbn [app]. apply skip_ws_head, not_ws. lia.
Qed.

Lemma scan_once_int (P : platform) (fuel : nat) (n : Z) (rest : pystr) :
  int_ok P n = true -> closes rest ->
  Json.scan_once P (S fuel) (int_str n ++ rest) = inr (PInt n, rest).
Proof.
  intros Hok Hrest. destruct n as [|p|p].
  - exact (scan_number_digits P false 0 rest Hok Hrest).
  - pose proof (scan_number_digits P false (N.pos p) rest Hok Hrest) as H.
    unfold int_str. change (Z.to_N (Z.pos p)) with (N.pos p).
    destruct (digits_of_cons (N.pos p)) as (c & r & E & Hc & _).
    rewrite E in *. unfold digit in Hc. cbn [app Json.scan_once] in *.
    rewrite !(proj2 (Z.eqb_neq c _)) by lia. exact H.
  - pose proof (scan_number_digits P true (N.pos p) rest Hok Hrest) as H.
    unfold int_str. cbn [app Json.scan_once Z.eqb Pos.eqb].
    destruct (digits_of_cons (N.pos p)) as (c & r & E & Hc & _).
    rewrite E in *. unfold digit in Hc.
    change (lit "Infinity") with (73 :: lit "nfinity").
    cbn [app strip_prefix]. rewrite (proj2 (Z.eqb_neq 73 c)) by lia. exact H.
Qed.

Lemma scan_once_str (P : platform) (fuel : nat) (s rest : pystr) :
  str_ok s = true ->
  Json.scan_once P (S fuel) (Encoder.encode_str s ++ rest) = inr (PStr s, rest).
Proof.
  intros H. unfold Encoder.encode_str. cbn [app]. rewrite <- app_assoc. cbn [app].
  cbn [Json.scan_once Z.eqb Pos.eqb]. rewrite (scanstring_escaped s rest H).
  reflexivity.
Qed.

Lemma dict_set_new (d : list (pystr * pyval)) (k : pystr) (v : pyval) :
  ~ In k (map fst d) -> dict_set d k v = d ++ [(k, v)].
Proof.
  induction d as [|[k' v'] d IH]; intros H; cbn [dict_set app]; [reflexivity|].
  destruct (str_eqb k' k) eqn:E.
  - apply str_eqb_eq in E. exfalso. apply H. left. exact E.
  - rewrite IH; [reflexivity|]. intros Hin. apply H. right. exact Hin.
Qed.

Ltac norm_len_in H :=
  repeat first [rewrite length_app in H | progress (cbn [length] in H)].

Ltac norm_len := repeat first [rewrite length_app | progress (cbn [length])].

Section Reading.

Variable P : platform.
Variable scan : pystr -> result (pyval * pystr).
Variable bound : nat.

Lemma array_items_dumps (items : list pyval) :
  forall (v1 : pyval) (acc : list pyval) (fuel : nat) (rest : pystr),
    Forall (reads scan bound) (v1 :: items) -> Forall (readable P) items ->
    let s := Encoder.dumps v1
             ++ flat_map (fun q => lit ", " ++ q) (map Encoder.dumps items)
             ++ 93 :: rest in
    (length s <= bound)%nat -> (length s <= fuel)%nat ->
    Json.array_items scan fuel s acc = inr (PList (rev acc ++ v1 :: items), rest).
Proof.
  induction items as [|v2 items IH]; intros v1 acc fuel rest Hreads Hok s Hb Hf.
  - subst s. cbn [map flat_map app] in *.
    destruct fuel as [|fuel];
      [rewrite length_app in Hf; cbn [length] in Hf; lia|].
    cbn [Json.array_items]. inversion Hreads as [|? ? H1 _]; subst.
    rewrite (H1 (93 :: rest)) by (cbn [closes]; auto || exact Hb).
    reflexivity.
  - subst s. cbn [map flat_map] in *.
    change (lit ", ") with [44; 32] in *. cbn [app] in *.
    rewrite <- app_assoc in *.
    set (tail := Encoder.dumps v2
                 ++ flat_map (fun q => 44 :: 32 :: q) (map Encoder.dumps items)
                 ++ 93 :: rest) in *.
    assert (Hlen : length (Encoder.dumps v1 ++ 44 :: 32 :: tail)
                   = (length (Encoder.dumps v1) + 2 + length tail)%nat).
    { rewrite length_app. cbn [length]. lia. }
    destruct fuel as [|fuel]; [lia|].
    cbn [Json.array_items]. inversion Hreads as [|? ? H1 Hrest]; subst.
    rewrite (H1 (44 :: 32 :: tail)) by (cbn [closes]; auto || exact Hb).
    cbn [rbind Json.skip_ws Json.is_ws Z.eqb Pos.eqb orb].
    inversion Hok as [|? ? Hv2 Hitems]; subst.
    subst tail. rewrite (skip_ws_opens _ _ (dumps_opens P v2 Hv2)).
    rewrite (IH v2 (v1 :: acc) fuel rest Hrest Hitems) by lia.
    cbn [rev]. rewrite <- app_assoc. reflexivity.
Qed.

Lemma object_pairs_dumps (pairs : list (pystr * pyval)) :
  forall (k1 : pystr) (v1 : pyval) (acc : list (pystr * pyval)) (fuel : nat)
         (rest : pystr),
    Forall (fun kv => reads scan bound (snd kv)) ((k1, v1) :: pairs) ->
    Forall (fun kv => str_ok (fst kv) = true /\ readable P (snd kv))
      ((k1, v1) :: pairs) ->
    List.NoDup (map fst (acc ++ (k1, v1) :: pairs)) ->
    let s := Encoder.encode_str k1 ++ lit ": " ++ Encoder.dumps v1
             ++ flat_map (fun q => lit ", " ++ q)
                  (map (fun kv => Encoder.encode_str (fst kv) ++ lit ": "
                                  ++ Encoder.dumps (snd kv)) pairs)
             ++ 125 :: rest in
    (length s <= bound)%nat -> (length s <= fuel)%nat ->
    Json.object_pairs scan fuel s acc = inr (PDict (acc ++ (k1, v1) :: pairs), rest).
Proof.
  induction pairs as [|[k2 v2] pairs IH];
    intros k1 v1 acc fuel rest Hreads Hok Hnd s Hb Hf.
  - subst s. cbn [map flat_map] in *. change (lit ": ") with [58; 32] in *.
    unfold Encoder.encode_str in *. cbn [app] in *. rewrite <- !app_assoc in *.
    cbn [app] in *.
    destruct fuel as [|fuel]; [cbn [length] in Hf; lia|].
    inversion Hreads as [|? ? H1 _]; subst. cbn [snd] in H1.
    inversion Hok as [|? ? [Hk1 Hv1] _]; subst. cbn [fst snd] in Hk1, Hv1.
    cbn [Json.object_pairs]. rewrite (scanstring_escaped k1 _ Hk1).
    cbn [rbind Json.skip_ws Json.is_ws Z.eqb Pos.eqb orb].
    rewrite (skip_ws_opens _ _ (dumps_opens P v1 Hv1)).
    rewrite (H1 (125 :: rest)).
    + cbn [rbind Json.skip_ws Json.is_ws Z.eqb Pos.eqb orb].
      rewrite dict_set_new; [reflexivity|].
      rewrite map_app in Hnd. apply List.NoDup_remove_2 in Hnd.
      rewrite app_nil_r in Hnd. exact Hnd.
    + cbn [closes]. auto.
    + norm_len_in Hb. norm_len. lia.
  - subst s. cbn [map flat_map fst snd] in *.
    change (lit ": ") with [58; 32] in *. change (lit ", ") with [44; 32] in *.
    cbn [app] in *. rewrite <- !app_assoc in *. cbn [app] in *.
    set (tail := Encoder.encode_str k2 ++ 58 :: 32 :: Encoder.dumps v2
                 ++ flat_map (fun q => 44 :: 32 :: q)
                      (map (fun kv => Encoder.encode_str (fst kv) ++ 58 :: 32
                                      :: Encoder.dumps (snd kv)) pairs)
                 ++ 125 :: rest) in *.
    unfold Encoder.encode_str in Hb, Hf |- *.
    cbn [app] in Hb, Hf |- *. rewrite <- !app_assoc in Hb, Hf |- *.
    cbn [app] in Hb, Hf |- *.
    destruct fuel as [|fuel]; [cbn [length] in Hf; lia|].
    inversion Hreads as [|? ? H1 Hrest]; subst. cbn [snd] in H1.
    inversion Hok as [|? ? [Hk1 Hv1] Hok']; subst. cbn [fst snd] in Hk1, Hv1.
    norm_len_in Hb. norm_len_in Hf.
    cbn [Json.object_pairs]. rewrite (scanstring_escaped k1 _ Hk1).
    cbn [rbind Json.skip_ws Json.is_ws Z.eqb Pos.eqb orb].
    rewrite (skip_ws_opens _ _ (dumps_opens P v1 Hv1)).
    rewrite (H1 (44 :: 32 :: tail)).
    + cbn [rbind Json.skip_ws Json.is_ws Z.eqb Pos.eqb orb].
      assert (Hnew : ~ In k1 (map fst acc)).
      { rewrite map_app in Hnd. apply List.NoDup_remove_2 in Hnd.
        intros Hin. apply Hnd. apply in_or_app. left. exact Hin. }
      rewrite (dict_set_new acc k1 v1 Hnew).
      assert (Hskip : Json.skip_ws tail = tail) by reflexivity.
      rewrite Hskip.
      replace (acc ++ (k1, v1) :: (k2, v2) :: pairs)
        with ((acc ++ [(k1, v1)]) ++ (k2, v2) :: pairs)
        by (rewrite <- app_assoc; reflexivity).
      apply IH.
      * exact Hrest.
      * exact Hok'.
      * rewrite <- app_assoc. exact Hnd.
      * fold tail. lia.
      * fold tail. lia.
    + cbn [closes]. auto.
    + norm_len. lia.
Qed.

End Reading.


Lemma readable_list (P : platform) (items : list pyval) :
  readable P (PList items) <-> Forall (readable P) items.
Proof.
  cbn [readable]. induction items as [|x items IH].
  - split; [constructor | trivial].
  - rewrite IH. split.
    + intros [H1 H2]. constructor; assumption.
    + intros H. inversion H; subst. split; assumption.
Qed.

Lemma readable_dict (P : platform) (pairs : list (pystr * pyval)) :
  readable P (PDict pairs)
  <-> List.NoDup (map fst pairs)
      /\ Forall (fun kv => str_ok (fst kv) = true /\ readable P (snd kv)) pairs.
Proof.
  cbn [readable].
  assert (H : (fix all (l : list (pystr * pyval)) : Prop :=
                 match l with
                 | [] => True
                 | kv :: l' => str_ok (fst kv) = true /\ readable P (snd kv) /\ all l'
                 end) pairs
              <-> Forall (fun kv => str_ok (fst kv) = true /\ readable P (snd kv))
                    pairs).
  { induction pairs as [|kv pairs IH].
    - split; [constructor | trivial].
    - rewrite IH. split.
      + intros (H1 & H2 & H3). constructor; [split|]; assumption.
      + intros H. inversion H as [|? ? [H1 H2] H3]; subst.
        split; [|split]; assumption. }
  rewrite H. reflexivity.
Qed.

(** An array that is not empty: its items are scanned one level down. *)
Lemma scan_once_array (P : platform) (n : nat) (t rest : pystr) :
  opens t ->
  Json.scan_once P (S n) (91 :: t ++ rest)
  = Json.array_items (Json.scan_once P n) n (t ++ rest) [].
Proof.
  intros (c & r & -> & Hc & H93). cbn [app Json.scan_once Z.eqb Pos.eqb].
  rewrite skip_ws_head by (apply not_ws; lia).
  destruct c as [|p|p]; try reflexivity.
  repeat (destruct p as [p|p|]; try reflexivity).
  exfalso. apply H93. reflexivity.
Qed.

(** The same for an object: its first key follows the brace. *)
Lemma scan_once_object (P : platform) (n : nat) (t : pystr) :
  Json.scan_once P (S n) (123 :: 34 :: t)
  = Json.object_pairs (Json.scan_once P n) n (34 :: t) [].
Proof. reflexivity. Qed.

Lemma not_bom {A : Type} (c : Z) (X Y : A) :
  c <> 65279 ->
  match c with
  | 65279 => X
  | _ => Y
  end = Y.
Proof.
  intros H. destruct c as [|p|p]; try reflexivity.
  repeat (destruct p as [p|p|]; try reflexivity).
  exfalso. apply H. reflexivity.
Qed.

(** The scanner reads back the text of a value, whatever follows it. *)
Lemma scan_dumps (P : platform) (v : pyval) :
  readable P v -> forall n, reads (Json.scan_once P (S n)) n v.
Proof.
  induction v as [ | b | k | x | s | items IH | pairs IH] using pyval_ind';
    intros Hv n rest Hrest Hlen.
  - reflexivity.
  - destruct b; reflexivity.
  - apply scan_once_int; assumption.
  - destruct x as [sg|[|]| |sg m e]; try contradiction; reflexivity.
  - apply scan_once_str. exact Hv.
  - apply readable_list in Hv. destruct items as [|v1 items].
    + reflexivity.
    + cbn [Encoder.dumps map join] in *. cbn [app] in Hlen |- *.
      rewrite <- !app_assoc in Hlen |- *. cbn [app] in Hlen |- *.
      inversion Hv as [|? ? Hv1 Hitems]; subst.
      destruct n as [|n]; [cbn [length] in Hlen; lia|].
      rewrite (scan_once_array P (S n) _ _ (dumps_opens P v1 Hv1)).
      cbn [length] in Hlen.
      apply (array_items_dumps P (Json.scan_once P (S n)) n items v1 [] (S n) rest).
      * apply List.Forall_forall. intros w Hw.
        rewrite List.Forall_forall in IH, Hv. apply IH; [exact Hw | apply Hv; exact Hw].
      * exact Hitems.
      * cbv zeta. lia.
      * cbv zeta. lia.
  - apply readable_dict in Hv. destruct Hv as [Hnd Hv].
    destruct pairs as [|[k1 v1] pairs].
    + reflexivity.
    + assert (Et : Encoder.dumps (PDict ((k1, v1) :: pairs)) ++ rest
                   = 123 :: (Encoder.encode_str k1 ++ lit ": " ++ Encoder.dumps v1
                             ++ flat_map (fun q => lit ", " ++ q)
                                  (map (fun kv => Encoder.encode_str (fst kv)
                                                  ++ lit ": "
                                                  ++ Encoder.dumps (snd kv)) pairs)
                             ++ 125 :: rest)).
      { cbn [Encoder.dumps map join fst snd app]. rewrite <- !app_assoc.
        reflexivity. }
      rewrite Et in *. clear Et.
      destruct n as [|n]; [cbn [length] in Hlen; lia|].
      cbn [length] in Hlen.
      match goal with
      | |- Json.scan_once P _ (123 :: ?t) = _ =>
          change (Json.object_pairs (Json.scan_once P (S n)) (S n) t []
                  = inr (PDict ([] ++ (k1, v1) :: pairs), rest))
      end.
      apply (object_pairs_dumps P (Json.scan_once P (S n)) n pairs k1 v1 [] (S n) rest).
      * apply List.Forall_forall. intros w Hw.
        rewrite List.Forall_forall in IH, Hv. apply IH; [exact Hw | apply Hv; exact Hw].
      * exact Hv.
      * exact Hnd.
      * cbv zeta. lia.
      * cbv zeta. lia.
Qed.

Lemma loads_of_dumps (P : platform) (v : pyval) :
  readable P v -> Json.loads P (Encoder.dumps v) = inr v.
Proof.
  intros Hv. pose proof (scan_dumps P v Hv (length (Encoder.dumps v)) []) as H.
  rewrite app_nil_r in H. specialize (H I (le_n _)).
  destruct (dumps_opens P v Hv) as (c & r & E & Hc & _).
  unfold Json.loads. rewrite E at 1. rewrite not_bom by lia.
  rewrite <- (app_nil_r (Encoder.dumps v)) at 2.
  rewrite (skip_ws_opens _ _ (dumps_opens P v Hv)), app_nil_r, H.
  reflexivity.
Qed.




(** ** What [json.loads] builds can be read back *)

(** *** The characters of a decoded text *)

Lemma utf8_decode_range (n : nat) :
  forall (bs : bytes) (s : pystr),
    (length bs <= n)%nat -> utf8_decode bs = inr s ->
    Forall (fun c => 0 <= c <= 1114111) s.
Proof.
  induction n as [|n IH]; intros bs s Hn H.
  - destruct bs; [injection H as <-; constructor | cbn [length] in Hn; lia].
  - destruct bs as [|b0 r0]; [injection H as <-; constructor|].
    cbn [utf8_decode] in H. cbn [length] in Hn.
    pose proof (code_range b0) as R0.
    destruct (code b0 <? 128) eqn:T0.
    { destruct (utf8_decode r0) as [e|s'] eqn:E; cbn [rbind] in H; [discriminate H|].
      injection H as <-. apply IH in E; [|lia]. constructor; [lia | exact E]. }
    destruct r0 as [|b1 r1]; [discriminate H|]. cbn [length] in Hn.
    pose proof (code_range b1) as R1.
    destruct (between 194 (code b0) 223) eqn:T1.
    { destruct (is_cont (code b1)) eqn:T2; [|discriminate H].
      destruct (utf8_decode r1) as [e|s'] eqn:E; cbn [rbind] in H; [discriminate H|].
      injection H as <-. apply IH in E; [|lia]. zbool. constructor; [lia | exact E]. }
    destruct r1 as [|b2 r2]; [discriminate H|]. cbn [length] in Hn.
    pose proof (code_range b2) as R2.
    destruct (between 224 (code b0) 239) eqn:T2.
    { destruct (code b0 =? 224) eqn:Q1; [|destruct (code b0 =? 237) eqn:Q2];
        match type of H with
        | (if ?b then _ else _) = _ => destruct b eqn:T3; [|discriminate H]
        end;
        (destruct (utf8_decode r2) as [e|s'] eqn:E; cbn [rbind] in H; [discriminate H|]);
        injection H as <-; (apply IH in E; [|lia]); zbool;
        (constructor; [lia | exact E]). }
    destruct r2 as [|b3 r3]; [discriminate H|]. cbn [length] in Hn.
    pose proof (code_range b3) as R3.
    destruct (code b0 =? 240) eqn:Q1; [|destruct (code b0 =? 244) eqn:Q2];
      match type of H with
      | (if ?b then _ else _) = _ => destruct b eqn:T3; [|discriminate H]
      end;
      (destruct (utf8_decode r3) as [e|s'] eqn:E; cbn [rbind] in H; [discriminate H|]);
      injection H as <-; (apply IH in E; [|lia]); zbool;
      (constructor; [lia | exact E]).
Qed.

Lemma utf8_decode_scalar (bs : bytes) (s : pystr) :
  utf8_decode bs = inr s -> Forall scalar s.
Proof.
  intros H. pose proof (utf8_decode_range (length bs) bs s (Nat.le_refl _) H) as Hr.
  pose proof (utf8_decode_encode (length bs) bs s (Nat.le_refl _) H) as He.
  apply utf8_encode_scalar in He.
  apply List.Forall_forall. intros c Hc.
  rewrite List.Forall_forall in Hr, He. split; [apply Hr | apply He]; exact Hc.
Qed.


(** *** The strings that the scanner builds *)

Lemma hex_value_range (c v : Z) : Json.hex_value c = Some v -> 0 <= v < 16.
Proof.
  unfold Json.hex_value.
  destruct (between 48 c 57) eqn:E1;
    [|destruct (between 97 c 102) eqn:E2; [|destruct (between 65 c 70) eqn:E3]];
    intros [= <-] || discriminate; zbool; lia.
Qed.

Lemma hex4_range (a b c d u : Z) : Json.hex4 a b c d = Some u -> 0 <= u < 65536.
Proof.
  unfold Json.hex4.
  destruct (Json.hex_value a) as [x|] eqn:Ea; [|discriminate].
  destruct (Json.hex_value b) as [y|] eqn:Eb; [|discriminate].
  destruct (Json.hex_value c) as [z|] eqn:Ec; [|discriminate].
  destruct (Json.hex_value d) as [w|] eqn:Ed; [|discriminate].
  apply hex_value_range in Ea, Eb, Ec, Ed. intros [= <-]. lia.
Qed.

Lemma simple_escape_range (e x : Z) : Json.simple_escape e = Some x -> 8 <= x <= 92.
Proof.
  unfold Json.simple_escape.
  repeat match goal with
         | |- (if ?b then _ else _) = _ -> _ => destruct b; [intros [= <-]; lia|]
         end.
  discriminate.
Qed.

Lemma not_char92 {A : Type} (a : Z) (F G : A) :
  a <> 92 ->
  match a with
  | 92 => F
  | _ => G
  end = G.
Proof.
  intros H. destruct a as [|p|p]; try reflexivity.
  repeat (destruct p as [p|p|]; try reflexivity).
  exfalso. apply H. reflexivity.
Qed.

Lemma not_char117 {A : Type} (a : Z) (F G : A) :
  a <> 117 ->
  match a with
  | 117 => F
  | _ => G
  end = G.
Proof.
  intros H. destruct a as [|p|p]; try reflexivity.
  repeat (destruct p as [p|p|]; try reflexivity).
  exfalso. apply H. reflexivity.
Qed.

Lemma scanstring_raw (c : Z) (r : pystr) :
  c <> 34 -> c <> 92 ->
  Json.scanstring (c :: r)
  = if c <=? 31 then inl JSONDecodeError
    else let* (t, rest) := Json.scanstring r in inr (c :: t, rest).
Proof.
  intros H1 H2. cbn [Json.scanstring].
  rewrite (proj2 (Z.eqb_neq c 34) H1), (proj2 (Z.eqb_neq c 92) H2). reflexivity.
Qed.

Lemma scanstring_esc (e : Z) (r' : pystr) :
  e <> 117 ->
  Json.scanstring (92 :: e :: r')
  = match Json.simple_escape e with
    | None => inl JSONDecodeError
    | Some x => let* (t, rest) := Json.scanstring r' in inr (x :: t, rest)
    end.
Proof.
  intros H. cbn [Json.scanstring Z.eqb Pos.eqb].
  destruct e as [|p|p]; try reflexivity.
  repeat (destruct p as [p|p|]; try reflexivity).
  exfalso. apply H. reflexivity.
Qed.

(** Whether an escape is followed by the escape of a low surrogate. *)
Lemma pair_cases {A : Type} (X : Z -> pystr -> A) (E Y : A) (r' : pystr) :
  let m :=
    match r' with
    | 92 :: 117 :: g1 :: g2 :: g3 :: g4 :: r'' =>
        match Json.hex4 g1 g2 g3 g4 with
        | None => E
        | Some u2 => if between 56320 u2 57343 then X u2 r'' else Y
        end
    | _ => Y
    end in
  (m = Y /\ ~ low_esc r') \/ m = E
  \/ exists g1 g2 g3 g4 r'' u2,
       r' = 92 :: 117 :: g1 :: g2 :: g3 :: g4 :: r''
       /\ Json.hex4 g1 g2 g3 g4 = Some u2 /\ between 56320 u2 57343 = true
       /\ m = X u2 r''.
Proof.
  cbv zeta.
  assert (Hshort : forall l, (length l < 6)%nat -> ~ low_esc l).
  { intros l Hl (g1 & g2 & g3 & g4 & r & u & -> & _). cbn [length] in Hl. lia. }
  destruct r' as [|a r1]; [left; split; [reflexivity | apply Hshort; cbn; lia]|].
  destruct (Z.eq_dec a 92) as [->|Ha].
  2: { left. split; [apply not_char92; exact Ha|].
       intros (g1 & g2 & g3 & g4 & r & u & [= -> _] & _). apply Ha. reflexivity. }
  destruct r1 as [|b r2]; [left; split; [reflexivity | apply Hshort; cbn; lia]|].
  destruct (Z.eq_dec b 117) as [->|Hb].
  2: { left. split; [apply not_char117; exact Hb|].
       intros (g1 & g2 & g3 & g4 & r & u & [= -> _] & _). apply Hb. reflexivity. }
  destruct r2 as [|g1 [|g2 [|g3 [|g4 r'']]]];
    try (left; split; [reflexivity | apply Hshort; cbn; lia]).
  destruct (Json.hex4 g1 g2 g3 g4) as [u2|] eqn:Eh; [|right; left; reflexivity].
  destruct (between 56320 u2 57343) eqn:El.
  - right; right. exists g1, g2, g3, g4, r'', u2. repeat split; assumption.
  - left. split; [reflexivity|].
    intros (h1 & h2 & h3 & h4 & r & u & [= -> -> -> -> ->] & Hh & Hl).
    rewrite Eh in Hh. injection Hh as <-. rewrite El in Hl. discriminate Hl.
Qed.

Lemma paired_alone (c : Z) (t : pystr) :
  between 55296 c 56319 = false -> paired (c :: t) = paired t.
Proof.
  intros H. cbn [paired]. destruct t as [|c' t']; [reflexivity|].
  rewrite H. reflexivity.
Qed.

Lemma scalar_not_high (c : Z) : is_surrogate c = false -> between 55296 c 56319 = false.
Proof. intros H. zbool; apply between_false; lia. Qed.

Lemma scalar_not_low (c : Z) : is_surrogate c = false -> between 56320 c 57343 = false.
Proof. intros H. zbool; apply between_false; lia. Qed.


Ltac tail_scalar H :=
  apply List.Forall_forall; intros ? ?;
  rewrite List.Forall_forall in H; apply H; cbn [In]; tauto.

Lemma between_bounds (lo c hi : Z) : between lo c hi = true -> lo <= c <= hi.
Proof.
  unfold between. intros H. apply andb_true_iff in H. destruct H as [H1 H2].
  apply Z.leb_le in H1, H2. lia.
Qed.

Lemma range_cons (c : Z) (t : pystr) :
  0 <= c <= 1114111 ->
  forallb (fun c => between 0 c 1114111) t = true ->
  forallb (fun c => between 0 c 1114111) (c :: t) = true.
Proof.
  intros Hc Ht. cbn [forallb]. rewrite Ht, between_true by lia. reflexivity.
Qed.

(** The string that the scanner builds from a text without surrogates has
    no pair of surrogates in it: the escapes of a pair are made one code
    point. *)
Lemma scanstring_sound (n : nat) :
  forall (s t rest : pystr),
    (length s <= n)%nat -> Forall scalar s -> Json.scanstring s = inr (t, rest) ->
    forallb (fun c => between 0 c 1114111) t = true
    /\ paired t = false
    /\ Forall scalar rest
    /\ match t with
       | c :: _ => between 56320 c 57343 = true -> low_esc s
       | [] => True
       end.
Proof.
  induction n as [|n IH]; intros s t rest Hn Hs H.
  - destruct s; [discriminate H | cbn [length] in Hn; lia].
  - destruct s as [|c r]; [discriminate H|]. cbn [length] in Hn.
    assert (Hc : scalar c) by (inversion Hs; assumption).
    assert (Hr : Forall scalar r) by (inversion Hs; assumption).
    destruct (Z.eq_dec c 34) as [->|H34].
    { injection H as <- <-. repeat split. exact Hr. }
    destruct (Z.eq_dec c 92) as [->|H92].
    2: { rewrite (scanstring_raw c r H34 H92) in H.
         destruct (c <=? 31); [discriminate H|].
         destruct (Json.scanstring r) as [e|[t' rest']] eqn:E; cbn [rbind] in H;
           [discriminate H|].
         injection H as <- <-.
         destruct (IH r t' rest' ltac:(lia) Hr E) as (Ht & Hp & Hrest & _).
         destruct Hc as [Hc1 Hc2].
         split; [apply range_cons; assumption|].
         split; [rewrite paired_alone by (apply scalar_not_high; exact Hc2); exact Hp|].
         split; [exact Hrest|].
         intros Hl. rewrite (scalar_not_low c Hc2) in Hl. discriminate Hl. }
    destruct r as [|e r']; [discriminate H|]. cbn [length] in Hn.
    destruct (Z.eq_dec e 117) as [->|H117].
    2: { rewrite (scanstring_esc e r' H117) in H.
         destruct (Json.simple_escape e) as [x|] eqn:Ex; [|discriminate H].
         apply simple_escape_range in Ex.
         destruct (Json.scanstring r') as [e'|[t' rest']] eqn:E; cbn [rbind] in H;
           [discriminate H|].
         injection H as <- <-.
         assert (Hr' : Forall scalar r') by (inversion Hr; assumption).
         destruct (IH r' t' rest' ltac:(lia) Hr' E) as (Ht & Hp & Hrest & _).
         split; [apply range_cons; [lia | exact Ht]|].
         split; [rewrite paired_alone by (apply between_false; lia); exact Hp|].
         split; [exact Hrest|].
         intros Hl. rewrite between_false in Hl by lia. discriminate Hl. }
    destruct r' as [|h1 [|h2 [|h3 [|h4 r'']]]]; try discriminate H.
    cbn [length] in Hn.
    assert (Hr'' : Forall scalar r'') by (tail_scalar Hs).
    destruct (Json.hex4 h1 h2 h3 h4) as [u1|] eqn:Eh.
    2: { cbn [Json.scanstring Z.eqb Pos.eqb] in H. rewrite Eh in H. discriminate H. }
    rewrite (scanstring_u _ _ _ _ _ _ Eh) in H.
    pose proof (hex4_range _ _ _ _ _ Eh) as Hu1.
    destruct (between 55296 u1 56319) eqn:Ehi.
    + destruct (pair_cases
                  (fun u2 r3 =>
                     let* (t, rest) := Json.scanstring r3 in
                     inr ((65536 + (u1 - 55296) * 1024 + (u2 - 56320)) :: t, rest))
                  (inl JSONDecodeError)
                  (let* (t, rest) := Json.scanstring r'' in inr (u1 :: t, rest))
                  r'')
        as [[Em Hnl] | [Em | (g1 & g2 & g3 & g4 & r3 & u2 & Er & Eg & El & Em)]];
        cbv beta zeta in Em; rewrite Em in H; clear Em.
      * destruct (Json.scanstring r'') as [e'|[t' rest']] eqn:E; cbn [rbind] in H;
          [discriminate H|].
        injection H as <- <-.
        destruct (IH r'' t' rest' ltac:(lia) Hr'' E) as (Ht & Hp & Hrest & Hhead).
        split; [apply range_cons; [lia | exact Ht]|].
        split.
        { cbn [paired]. destruct t' as [|c' t'']; [reflexivity|].
          rewrite Hp, orb_false_r. apply andb_false_iff. right.
          destruct (between 56320 c' 57343) eqn:Elow; [|reflexivity].
          exfalso. apply Hnl, Hhead. reflexivity. }
        split; [exact Hrest|].
        intros Hl. apply between_bounds in Ehi, Hl. lia.
      * discriminate H.
      * subst r''.
        destruct (Json.scanstring r3) as [e'|[t' rest']] eqn:E; cbn [rbind] in H;
          [discriminate H|].
        injection H as <- <-. cbn [length] in Hn.
        assert (Hr3 : Forall scalar r3) by (tail_scalar Hs).
        destruct (IH r3 t' rest' ltac:(lia) Hr3 E) as (Ht & Hp & Hrest & _).
        apply between_bounds in Ehi, El.
        split; [apply range_cons; [lia | exact Ht]|].
        split; [rewrite paired_alone by (apply between_false; lia); exact Hp|].
        split; [exact Hrest|].
        intros Hl. rewrite between_false in Hl by lia. discriminate Hl.
    + destruct (Json.scanstring r'') as [e'|[t' rest']] eqn:E; cbn [rbind] in H;
        [discriminate H|].
      injection H as <- <-.
      destruct (IH r'' t' rest' ltac:(lia) Hr'' E) as (Ht & Hp & Hrest & _).
      split; [apply range_cons; [lia | exact Ht]|].
      split; [rewrite paired_alone by exact Ehi; exact Hp|].
      split; [exact Hrest|].
      intros Hl. exists h1, h2, h3, h4, r'', u1. repeat split; assumption.
Qed.

Lemma scanstring_str_ok (s t rest : pystr) :
  Forall scalar s -> Json.scanstring s = inr (t, rest) ->
  str_ok t = true /\ Forall scalar rest.
Proof.
  intros Hs H.
  destruct (scanstring_sound (length s) s t rest (Nat.le_refl _) Hs H)
    as (Ht & Hp & Hrest & _).
  split; [|exact Hrest]. unfold str_ok. rewrite Ht, Hp. reflexivity.
Qed.


(** *** What is left of the text, and the numbers *)

Lemma skip_ws_scalar (s : pystr) : Forall scalar s -> Forall scalar (Json.skip_ws s).
Proof.
  induction 1 as [|c s Hc Hs IH]; cbn [Json.skip_ws]; [constructor|].
  destruct (Json.is_ws c); [exact IH | constructor; assumption].
Qed.

Lemma strip_prefix_scalar (p s r : pystr) :
  strip_prefix p s = Some r -> Forall scalar s -> Forall scalar r.
Proof.
  revert s; induction p as [|x p IH]; intros [|y s]; cbn [strip_prefix];
    try discriminate.
  - intros [= <-] H. exact H.
  - intros [= <-] H. exact H.
  - destruct (x =? y); [|discriminate]. intros H Hs. apply (IH s H).
    inversion Hs; assumption.
Qed.

Lemma span_digits_sound (s d r : pystr) :
  Json.span_digits s = (d, r) -> Forall scalar s ->
  Forall scalar r /\ Forall digit d.
Proof.
  revert d r; induction s as [|c s IH]; intros d r; cbn [Json.span_digits].
  - intros [= <- <-] _. split; constructor.
  - destruct (is_digit c) eqn:Ec.
    + destruct (Json.span_digits s) as [d' r']. intros [= <- <-] Hs.
      destruct (IH d' r' eq_refl) as [Hr Hd]; [inversion Hs; assumption|].
      split; [exact Hr|]. constructor; [|exact Hd].
      unfold is_digit in Ec. apply (between_bounds 48 c 57) in Ec. exact Ec.
    + intros [= <- <-] Hs. split; [exact Hs | constructor].
Qed.

Lemma scan_int_sound (s ip r : pystr) :
  Json.scan_int s = Some (ip, r) -> Forall scalar s ->
  Forall scalar r
  /\ (ip = [48] \/ exists c d, ip = c :: d /\ 49 <= c <= 57 /\ Forall digit d).
Proof.
  unfold Json.scan_int. destruct s as [|c s]; [discriminate|].
  destruct (c =? 48).
  { intros [= <- <-] Hs. split; [inversion Hs; assumption | left; reflexivity]. }
  destruct (between 49 c 57) eqn:Ec; [|discriminate].
  destruct (Json.span_digits s) as [d r'] eqn:E. intros [= <- <-] Hs.
  destruct (span_digits_sound s d r' E) as [Hr Hd]; [inversion Hs; assumption|].
  split; [exact Hr|]. right. exists c, d.
  split; [reflexivity|]. split; [apply between_bounds; exact Ec | exact Hd].
Qed.

Lemma scan_frac_scalar (s fp r : pystr) :
  Json.scan_frac s = (fp, r) -> Forall scalar s -> Forall scalar r.
Proof.
  unfold Json.scan_frac. intros H Hs.
  repeat (case_hyp H; try (injection H as <- <-; exact Hs)).
  all: match goal with
       | E : Json.span_digits ?x = _ |- _ =>
           apply span_digits_sound in E; [|tail_scalar Hs];
           injection H as <- <-; apply E
       end.
Qed.

Lemma scan_exp_scalar (s r : pystr) (ex : option (bool * pystr)) :
  Json.scan_exp s = (ex, r) -> Forall scalar s -> Forall scalar r.
Proof.
  unfold Json.scan_exp. intros H Hs.
  destruct s as [|c s]; [injection H as <- <-; exact Hs|].
  destruct ((c =? 101) || (c =? 69)); [|injection H as <- <-; exact Hs].
  match type of H with
  | context [match ?m with (_, _) => _ end] => destruct m as [neg r1] eqn:Es
  end.
  assert (Hr1 : Forall scalar r1).
  { clear H. repeat (case_hyp Es; try (injection Es as <- <-; tail_scalar Hs)). }
  destruct (Json.span_digits r1) as [d r'] eqn:Ed.
  apply span_digits_sound in Ed; [|exact Hr1].
  destruct d; injection H as <- <-; [exact Hs | apply Ed].
Qed.

Lemma digits_uint (ds : pystr) :
  Forall digit ds -> exists d, uint_chars d = ds.
Proof.
  induction 1 as [|c ds Hc Hds [d IH]]; [exists Decimal.Nil; reflexivity|].
  unfold digit in Hc. subst ds.
  assert (H : c = 48 \/ c = 49 \/ c = 50 \/ c = 51 \/ c = 52 \/ c = 53 \/ c = 54
              \/ c = 55 \/ c = 56 \/ c = 57) by lia.
  destruct H as [-> | [-> | [-> | [-> | [-> | [-> | [-> | [-> | [-> | ->]]]]]]]]].
  - exists (Decimal.D0 d). reflexivity.
  - exists (Decimal.D1 d). reflexivity.
  - exists (Decimal.D2 d). reflexivity.
  - exists (Decimal.D3 d). reflexivity.
  - exists (Decimal.D4 d). reflexivity.
  - exists (Decimal.D5 d). reflexivity.
  - exists (Decimal.D6 d). reflexivity.
  - exists (Decimal.D7 d). reflexivity.
  - exists (Decimal.D8 d). reflexivity.
  - exists (Decimal.D9 d). reflexivity.
Qed.

(** A numeral without a leading zero is the numeral of its value. *)
Lemma canonical_digits (ip : pystr) :
  ip = [48] \/ (exists c d, ip = c :: d /\ 49 <= c <= 57 /\ Forall digit d) ->
  digits_of (Z.to_N (digits_value ip)) = ip.
Proof.
  intros [-> | (c & ds & -> & Hc & Hds)]; [reflexivity|].
  destruct (digits_uint (c :: ds)) as [d Hd];
    [constructor; [unfold digit; lia | exact Hds]|].
  rewrite <- Hd, digits_value_uint, N2Z.id. unfold digits_of.
  rewrite DecimalN.Unsigned.to_of.
  destruct d; cbn [uint_chars] in Hd; try discriminate Hd;
    injection Hd as Hc' _; try lia; reflexivity.
Qed.

Lemma digits_value_nonneg (ds : pystr) : Forall digit ds -> 0 <= digits_value ds.
Proof.
  intros H. destruct (digits_uint ds H) as [d <-]. rewrite digits_value_uint. lia.
Qed.

Lemma scan_number_sound (P : platform) (neg : bool) (s r : pystr) (v : pyval) :
  Forall scalar s -> Json.scan_number P neg s = inr (v, r) ->
  sound P v /\ Forall scalar r.
Proof.
  unfold Json.scan_number. intros Hs.
  destruct (Json.scan_int s) as [[ip r0]|] eqn:E0; [|discriminate].
  destruct (Json.scan_frac r0) as [fp r1] eqn:E1.
  destruct (Json.scan_exp r1) as [ex r2] eqn:E2.
  apply scan_int_sound in E0; [|exact Hs]. destruct E0 as [Hr0 Hip].
  apply scan_frac_scalar in E1; [|exact Hr0].
  apply scan_exp_scalar in E2; [|exact E1].
  destruct fp as [|c fp]; [destruct ex as [[eneg ed]|]|].
  - intros [= <- <-]. split; [intros H; exact H | exact E2].
  - unfold Json.int_of_digits.
    destruct ((640 <? Z.of_nat (length ip)) && (0 <? max_str_digits P)
              && (max_str_digits P <? Z.of_nat (length ip))) eqn:El;
      cbn [rbind]; [discriminate|].
    intros [= <- <-]. split; [|exact E2]. intros _. cbn [readable]. unfold int_ok.
    assert (Hd : Forall digit ip).
    { destruct Hip as [-> | (c & d & -> & Hc & Hd)];
        constructor; (unfold digit; lia) || assumption || constructor. }
    pose proof (digits_value_nonneg ip Hd) as Hv.
    assert (Ha : Z.abs (if neg then - digits_value ip else digits_value ip)
                 = digits_value ip) by (destruct neg; lia).
    rewrite Ha, (canonical_digits ip Hip), El. reflexivity.
  - intros [= <- <-]. split; [intros H; exact H | exact E2].
Qed.

Lemma constant_sound (P : platform) (word : string) (v v' : pyval) (s r : pystr) :
  Forall scalar s -> readable P v -> Json.constant word v s = inr (v', r) ->
  sound P v' /\ Forall scalar r.
Proof.
  unfold Json.constant. intros Hs Hv.
  destruct (strip_prefix (lit word) s) as [r'|] eqn:E; [|discriminate].
  intros [= <- <-]. split; [intros _; exact Hv | exact (strip_prefix_scalar _ _ _ E Hs)].
Qed.


(** *** The values that the scanner builds *)

Lemma no_finite_float_list (items : list pyval) :
  no_finite_float (PList items) <-> Forall no_finite_float items.
Proof.
  cbn [no_finite_float]. induction items as [|x items IH].
  - split; [constructor | trivial].
  - rewrite IH. split.
    + intros [H1 H2]. constructor; assumption.
    + intros H. inversion H; subst. split; assumption.
Qed.

Lemma no_finite_float_dict (pairs : list (pystr * pyval)) :
  no_finite_float (PDict pairs) <-> Forall (fun kv => no_finite_float (snd kv)) pairs.
Proof.
  cbn [no_finite_float]. induction pairs as [|kv pairs IH].
  - split; [constructor | trivial].
  - rewrite IH. split.
    + intros [H1 H2]. constructor; assumption.
    + intros H. inversion H; subst. split; assumption.
Qed.

Lemma sound_list (P : platform) (items : list pyval) :
  Forall (sound P) items -> sound P (PList items).
Proof.
  intros H Hf. apply no_finite_float_list in Hf. apply readable_list.
  induction H as [|x items Hx _ IH]; [constructor|].
  inversion Hf; subst. constructor; [apply Hx; assumption | apply IH; assumption].
Qed.

Lemma sound_dict (P : platform) (pairs : list (pystr * pyval)) :
  List.NoDup (map fst pairs) ->
  Forall (fun kv => str_ok (fst kv) = true /\ sound P (snd kv)) pairs ->
  sound P (PDict pairs).
Proof.
  intros Hnd H Hf. apply no_finite_float_dict in Hf. apply readable_dict.
  split; [exact Hnd|]. clear Hnd.
  induction H as [|kv pairs [Hk Hv] _ IH]; [constructor|].
  inversion Hf; subst.
  constructor; [split; [exact Hk | apply Hv; assumption] | apply IH; assumption].
Qed.

Lemma dict_set_pairs (Q : pyval -> Prop) (d : list (pystr * pyval)) (k : pystr)
  (v : pyval) :
  Forall (fun kv => str_ok (fst kv) = true /\ Q (snd kv)) d ->
  str_ok k = true -> Q v ->
  Forall (fun kv => str_ok (fst kv) = true /\ Q (snd kv)) (dict_set d k v).
Proof.
  intros Hd Hk Hv. induction Hd as [|[k' v'] d [Hk' Hv'] Hd IH]; cbn [dict_set].
  - constructor; [split; assumption | constructor].
  - destruct (str_eqb k' k); constructor; try assumption; split; assumption.
Qed.

Section Sound.

Variable P : platform.
Variable scan : pystr -> result (pyval * pystr).

Hypothesis scan_sound :
  forall t v r, Forall scalar t -> scan t = inr (v, r) -> sound P v /\ Forall scalar r.

Lemma array_items_sound (fuel : nat) :
  forall (s : pystr) (acc : list pyval) (v : pyval) (r : pystr),
    Forall scalar s -> Forall (sound P) acc ->
    Json.array_items scan fuel s acc = inr (v, r) ->
    sound P v /\ Forall scalar r.
Proof.
  induction fuel as [|fuel IH]; intros s acc v r Hs Hacc H; [discriminate H|].
  cbn [Json.array_items] in H.
  destruct (scan s) as [e|[v1 r1]] eqn:E; cbn [rbind] in H; [discriminate H|].
  apply scan_sound in E; [|exact Hs]. destruct E as [Hv1 Hr1].
  apply skip_ws_scalar in Hr1.
  destruct (Json.skip_ws r1) as [|c r2] eqn:Ew; [discriminate H|].
  assert (Hr2 : Forall scalar r2) by (inversion Hr1; assumption).
  clear Hr1 Ew.
  repeat (case_hyp H; try discriminate H).
  all: first [ apply IH in H;
               [exact H | apply skip_ws_scalar; exact Hr2 | constructor; assumption]
             | injection H as <- <-; split; [|exact Hr2];
               apply sound_list;
               apply (List.Forall_rev (l := v1 :: acc)); constructor; assumption ].
Qed.

Lemma object_pairs_sound (fuel : nat) :
  forall (s : pystr) (acc : list (pystr * pyval)) (v : pyval) (r : pystr),
    Forall scalar s -> List.NoDup (map fst acc) ->
    Forall (fun kv => str_ok (fst kv) = true /\ sound P (snd kv)) acc ->
    Json.object_pairs scan fuel s acc = inr (v, r) ->
    sound P v /\ Forall scalar r.
Proof.
  induction fuel as [|fuel IH]; intros s acc v r Hs Hk Hv H; [discriminate H|].
  cbn [Json.object_pairs] in H.
  destruct s as [|c s]; [discriminate H|].
  assert (Hs' : Forall scalar s) by (inversion Hs; assumption). clear Hs.
  repeat (case_hyp H; try discriminate H).
  destruct (Json.scanstring s) as [e|[key r1]] eqn:Ek; cbn [rbind] in H;
    [discriminate H|].
  apply scanstring_str_ok in Ek; [|exact Hs']. destruct Ek as [Hkey Hr1].
  apply skip_ws_scalar in Hr1.
  destruct (Json.skip_ws r1) as [|c1 r2] eqn:Ew1; [discriminate H|].
  assert (Hr2 : Forall scalar r2) by (inversion Hr1; assumption).
  clear Hr1 Ew1.
  repeat (case_hyp H; try discriminate H).
  destruct (scan (Json.skip_ws r2)) as [e|[v1 r3]] eqn:Ev; cbn [rbind] in H;
    [discriminate H|].
  apply scan_sound in Ev; [|apply skip_ws_scalar; exact Hr2].
  destruct Ev as [Hv1 Hr3]. apply skip_ws_scalar in Hr3.
  destruct (Json.skip_ws r3) as [|c3 r4] eqn:Ew3; [discriminate H|].
  assert (Hr4 : Forall scalar r4) by (inversion Hr3; assumption).
  clear Hr3 Ew3.
  repeat (case_hyp H; try discriminate H).
  all: first [ apply IH in H;
               [exact H | apply skip_ws_scalar; exact Hr4
               | apply dict_set_nodup; exact Hk
               | apply dict_set_pairs; assumption]
             | injection H as <- <-; split; [|exact Hr4];
               apply sound_dict;
               [apply dict_set_nodup; exact Hk | apply dict_set_pairs; assumption] ].
Qed.

End Sound.

Lemma scan_once_sound (P : platform) (fuel : nat) :
  forall (s : pystr) (v : pyval) (r : pystr),
    Forall scalar s -> Json.scan_once P fuel s = inr (v, r) ->
    sound P v /\ Forall scalar r.
Proof.
  induction fuel as [|fuel IH]; intros s v r Hs H; [discriminate H|].
  cbn [Json.scan_once] in H.
  destruct s as [|c s]; [discriminate H|].
  assert (Hs' : Forall scalar s) by (inversion Hs; assumption).
  destruct (c =? 34).
  { destruct (Json.scanstring s) as [e|[t rest]] eqn:E; cbn [rbind] in H;
      [discriminate H|].
    injection H as <- <-. apply scanstring_str_ok in E; [|exact Hs'].
    destruct E as [Ht Hrest]. split; [intros _; exact Ht | exact Hrest]. }
  pose proof (skip_ws_scalar s Hs') as Hw.
  destruct (c =? 123).
  { destruct (Json.skip_ws s) as [|c1 s1] eqn:Ew;
      [apply (object_pairs_sound P _ IH) in H;
       [exact H | constructor | constructor | constructor]|].
    assert (Hs1 : Forall scalar s1) by (inversion Hw; assumption).
    repeat (case_hyp H; try discriminate H).
    all: first [ apply (object_pairs_sound P _ IH) in H;
                 [exact H | exact Hw | constructor | constructor]
               | injection H as <- <-; split; [|exact Hs1];
                 apply sound_dict; constructor ]. }
  destruct (c =? 91).
  { destruct (Json.skip_ws s) as [|c1 s1] eqn:Ew;
      [apply (array_items_sound P _ IH) in H; [exact H | constructor | constructor]|].
    assert (Hs1 : Forall scalar s1) by (inversion Hw; assumption).
    repeat (case_hyp H; try discriminate H).
    all: first [ apply (array_items_sound P _ IH) in H;
                 [exact H | exact Hw | constructor]
               | injection H as <- <-; split; [|exact Hs1];
                 apply sound_list; constructor ]. }
  repeat match type of H with
         | (if ?b then Json.constant _ _ _ else _) = _ =>
             destruct b; [apply (constant_sound P) in H; [exact H | exact Hs | exact I]|]
         end.
  destruct (c =? 45).
  - destruct (strip_prefix (lit "Infinity") s) as [r'|] eqn:E.
    + injection H as <- <-.
      split; [intros _; exact I | exact (strip_prefix_scalar _ _ _ E Hs')].
    + exact (scan_number_sound P true s r v Hs' H).
  - exact (scan_number_sound P false (c :: s) r v Hs H).
Qed.

(** [json.loads] is one run of the scanner. *)
Lemma loads_scan (P : platform) (text : pystr) (v : pyval) :
  Json.loads P text = inr v ->
  exists r, Json.scan_once P (S (length text)) (Json.skip_ws text) = inr (v, r).
Proof.
  intros H. unfold Json.loads in H.
  assert (Hs : (let* (v', r) := Json.scan_once P (S (length text)) (Json.skip_ws text) in
                match Json.skip_ws r with
                | [] => inr v'
                | _ => inl JSONDecodeError
                end) = inr v).
  { destruct text as [|c text]; [exact H|].
    repeat (case_hyp H; try discriminate H); exact H. }
  destruct (Json.scan_once P (S (length text)) (Json.skip_ws text))
    as [e|[v' r]] eqn:E; cbn [rbind] in Hs; [discriminate Hs|].
  destruct (Json.skip_ws r); [|discriminate Hs].
  injection Hs as <-. exists r. reflexivity.
Qed.

(** What [json.loads] builds from a text without surrogates can be read
    back, unless a finite float is in it. *)
Lemma loads_sound (P : platform) (text : pystr) (v : pyval) :
  Forall scalar text -> Json.loads P text = inr v -> sound P v.
Proof.
  intros Hs H. destruct (loads_scan P text v H) as [r Hr].
  exact (proj1 (scan_once_sound P _ _ _ _ (skip_ws_scalar _ Hs) Hr)).
Qed.


(** X15. The JSON text of a record can be read back as the entry that was
    posted. For every accepted entry the line written ends with the text
    [json.dumps] makes of the entry; the entry, built by [json.loads] from
    a body decoded as UTF-8, has no key twice, no pair of surrogates in a
    string and no int beyond the conversion limit, so unless a finite float
    is in it, [json.loads] applied to that text gives the entry again. *)
Theorem record_read_back (P : platform) (LOG_FILE : pystr) (r : request)
  (post_data : bytes) (st st' : state) :
  accepted P LOG_FILE r post_data st st' ->
  exists (text : pystr) (d : list (pystr * pyval)) (stamp : pystr) (record : bytes),
    utf8_decode post_data = inr text /\ Json.loads P text = inr (PDict d) /\
    utf8_encode (lit "[" ++ stamp ++ lit "] [" ++ py_str P (entry_type d) ++ lit "] "
                 ++ Encoder.dumps (PDict d) ++ [NL]) = inr record /\
    st' = logged LOG_FILE record st /\
    (no_finite_float (PDict d) ->
     readable P (PDict d)
     /\ Json.loads P (Encoder.dumps (PDict d)) = inr (PDict d)).
Proof.
  intros H. apply accepted_inv in H.
  destruct H as (text & d & secs & timet & us & record
                 & H1 & H2 & _ & _ & _ & H6 & _ & H8 & _).
  exists text, d, (render P (timet + utcoffset P timet) (us / 1000)), record.
  split; [exact H1|]. split; [exact H2|]. split; [exact H6|]. split; [exact H8|].
  intros Hf.
  pose proof (loads_sound P text (PDict d) (utf8_decode_scalar _ _ H1) H2 Hf) as Hr.
  split; [exact Hr | exact (loads_of_dumps P (PDict d) Hr)].
Qed.

Lemma record_read_back_witness :
  Json.loads utc
    (Encoder.dumps
       (PDict [(lit "timestamp", PInt 1700000000000); (lit "type", PStr (lit "INFO"));
               (lit "msg", PStr (lit "hello"))]))
  = inr (PDict [(lit "timestamp", PInt 1700000000000); (lit "type", PStr (lit "INFO"));
                (lit "msg", PStr (lit "hello"))]).
Proof.
  destruct (record_read_back utc sample_LOG_FILE (post_log hello_body)
              (blit hello_body) started _ accepted_hello)
    as (text & d & stamp & record & H1 & H2 & _ & _ & H5).
  vm_compute in H1. injection H1 as <-.
  vm_compute in H2. injection H2 as <-.
  apply H5. cbn [no_finite_float snd]. repeat split.
Defined.
